(** * Core Content Hub API: a shallow embedding of [main.py] and [schemas.py]

    The request handlers of [main.py] are embedded as functions in a small
    state-and-exception monad over a world made of the document store, the
    wall clock and a log of the store operations issued.  Documents are
    finite maps from field names to values, as the Python dictionaries and
    the BSON documents they stand for. *)

From Stdlib Require Import ZArith String Ascii List Bool Lia Permutation.
From Stdlib Require Import Sorted.
From stdpp Require Import sorting.
From stdpp Require Import base option list gmap strings pretty fin_maps.
Import ListNotations.

(** ** Python values *)

Module PyData.

#[local] Open Scope Z_scope.

(** [datetime.datetime]: the wall-clock reading, in microseconds counted
    from 0001-01-01T00:00:00, and the UTC offset of its [tzinfo] in
    microseconds ([None] for a naive value). *)
Record datetime := Datetime { wall : Z; tzinfo : option Z }.

(** The values stored in the fields of the [post] and [category]
    documents. *)
Inductive value :=
| VNone
| VBool (b : bool)
| VInt (n : Z)
| VStr (s : string)
| VList (l : list string)
| VDatetime (d : datetime)
| VObjectId (hex : string).

#[global] Instance datetime_eq_dec : EqDecision datetime.
Proof. solve_decision. Defined.

#[global] Instance value_eq_dec : EqDecision value.
Proof. solve_decision. Defined.

(** A document: a Python [dict] with string keys. *)
Abbreviation dict := (gmap string value).

(** Python truth value testing ([bool(v)], [not v], [if v:]). *)
Definition truthy (v : value) : bool :=
  match v with
  | VNone => false
  | VBool b => b
  | VInt n => negb (n =? 0)
  | VStr s => negb (String.eqb s "")
  | VList l => match l with [] => false | _ => true end
  | VDatetime _ => true
  | VObjectId _ => true
  end.

(** [d.get(k)]: the value under [k], [None] when the key is absent. *)
Definition dict_get (d : dict) (k : string) : value := default VNone (d !! k).

Definition isinstance_datetime (v : value) : bool :=
  match v with VDatetime _ => true | _ => false end.

(** *** Text helpers *)

Definition ascii_code (c : ascii) : Z := Z.of_nat (nat_of_ascii c).

Definition is_upper (c : ascii) : bool := (65 <=? ascii_code c) && (ascii_code c <=? 90).

Definition to_lower (c : ascii) : ascii :=
  if is_upper c then ascii_of_nat (nat_of_ascii c + 32) else c.

Fixpoint lower (s : string) : string :=
  match s with
  | EmptyString => EmptyString
  | String c s' => String (to_lower c) (lower s')
  end.

(** The text holds ASCII characters only. *)
Fixpoint ascii_text (s : string) : bool :=
  match s with
  | EmptyString => true
  | String c s' => (ascii_code c <? 128) && ascii_text s'
  end.

Definition hex_digit (n : Z) : ascii :=
  ascii_of_nat (Z.to_nat (if n <? 10 then 48 + n else 87 + n)).

(** [n] written with exactly [w] decimal digits (["%0wd"] for
    [0 <= n < 10^w]). *)
Fixpoint fixed_dec (w : nat) (n : Z) : string :=
  match w with
  | O => ""
  | S w' => fixed_dec w' (n / 10) +:+ String (hex_digit (n mod 10)) ""
  end.

(** [n] written with exactly [w] lower-case hexadecimal digits. *)
Fixpoint fixed_hex (w : nat) (n : Z) : string :=
  match w with
  | O => ""
  | S w' => fixed_hex w' (n / 16) +:+ String (hex_digit (n mod 16)) ""
  end.

Fixpoint join (sep : string) (l : list string) : string :=
  match l with
  | [] => ""
  | [x] => x
  | x :: l' => x +:+ sep +:+ join sep l'
  end.

(** *** Calendar *)

Definition us_per_second : Z := 1000000.
Definition us_per_minute : Z := 60 * us_per_second.
Definition us_per_hour : Z := 60 * us_per_minute.
Definition us_per_day : Z := 24 * us_per_hour.

(** Year, month and day of the proleptic Gregorian date that lies [n] days
    after 0001-01-01. *)
Definition civil_of_days (n : Z) : Z * Z * Z :=
  let z := n + 306 in
  let era := z / 146097 in
  let doe := z - era * 146097 in
  let yoe := (doe - doe / 1460 + doe / 36524 - doe / 146096) / 365 in
  let doy := doe - (365 * yoe + yoe / 4 - yoe / 100) in
  let mp := (5 * doy + 2) / 153 in
  let d := doy - (153 * mp + 2) / 5 + 1 in
  let m := if mp <? 10 then mp + 3 else mp - 9 in
  let y := yoe + era * 400 + (if m <=? 2 then 1 else 0) in
  (y, m, d).

(** [datetime._format_offset]: the UTC offset as [+HH:MM], with seconds
    and microseconds only when they are not zero. *)
Definition format_offset (off : option Z) : string :=
  match off with
  | None => ""
  | Some o =>
      let sign := if o <? 0 then "-" else "+" in
      let a := Z.abs o in
      let hh := a / us_per_hour in
      let mm := (a mod us_per_hour) / us_per_minute in
      let ss := (a mod us_per_minute) / us_per_second in
      let us := a mod us_per_second in
      sign +:+ fixed_dec 2 hh +:+ ":" +:+ fixed_dec 2 mm
        +:+ (if (ss =? 0) && (us =? 0) then ""
            else ":" +:+ fixed_dec 2 ss
                 +:+ (if us =? 0 then "" else "." +:+ fixed_dec 6 us))
  end.

(** [datetime.isoformat(sep)]. *)
Definition isoformat_sep (sep : string) (d : datetime) : string :=
  let days := wall d / us_per_day in
  let rest := wall d mod us_per_day in
  let '(y, m, dd) := civil_of_days days in
  let us := rest mod us_per_second in
  fixed_dec 4 y +:+ "-" +:+ fixed_dec 2 m +:+ "-" +:+ fixed_dec 2 dd +:+ sep
    +:+ fixed_dec 2 (rest / us_per_hour) +:+ ":"
    +:+ fixed_dec 2 ((rest mod us_per_hour) / us_per_minute) +:+ ":"
    +:+ fixed_dec 2 ((rest mod us_per_minute) / us_per_second)
    +:+ (if us =? 0 then "" else "." +:+ fixed_dec 6 us)
    +:+ format_offset (tzinfo d).

Definition isoformat : datetime -> string := isoformat_sep "T".

(** [timezone.utc]. *)
Definition utc : option Z := Some 0.

(** The last reading a [datetime] can hold, 9999-12-31T23:59:59.999999;
    the first is 0. *)
Definition datetime_max : Z := 3652059 * us_per_day - 1.

(** The reading of the same instant in UTC.  An aware value is shifted by
    its own offset; a naive one is read as system local time, whose offset
    at that wall-clock reading the argument [local_utcoffset] gives. *)
Definition moved_to_utc (local_utcoffset : Z -> Z) (d : datetime) : datetime :=
  let off := match tzinfo d with
             | Some o => o
             | None => local_utcoffset (wall d)
             end in
  {| wall := wall d - off; tzinfo := utc |}.

(** [d.astimezone(timezone.utc)]; [None] stands for the [OverflowError]
    raised when the reading in UTC lies outside the years 1 to 9999. *)
Definition astimezone_utc (local_utcoffset : Z -> Z) (d : datetime) : option datetime :=
  let r := moved_to_utc local_utcoffset d in
  if (0 <=? wall r) && (wall r <=? datetime_max) then Some r else None.

(** The instant a value denotes, in microseconds of UTC. *)
Definition instant (local_utcoffset : Z -> Z) (d : datetime) : Z :=
  wall (moved_to_utc local_utcoffset d).

(** *** [str] *)

(** [str.isprintable] on a character below 256. *)
Definition printable (c : ascii) : bool :=
  let n := ascii_code c in
  negb ((n <? 32) || ((127 <=? n) && (n <=? 160)) || (n =? 173)).

Fixpoint contains_char (c : ascii) (s : string) : bool :=
  match s with
  | EmptyString => false
  | String c' s' => Ascii.eqb c c' || contains_char c s'
  end.

Fixpoint repr_body (q : ascii) (s : string) : string :=
  match s with
  | EmptyString => ""
  | String c s' =>
      (if Ascii.eqb c q || Ascii.eqb c "\" then String "\" (String c "")
       else if Ascii.eqb c "009" then "\t"
       else if Ascii.eqb c "010" then "\n"
       else if Ascii.eqb c "013" then "\r"
       else if printable c then String c ""
       else "\x" +:+ fixed_hex 2 (ascii_code c))
      +:+ repr_body q s'
  end.

(** [repr] of a [str]: single quotes unless the text holds a single quote
    and no double quote. *)
Definition repr_str (s : string) : string :=
  let q : ascii := if contains_char "'" s && negb (contains_char "034" s)
                   then "034"%char else "'"%char in
  String q (repr_body q s) +:+ String q "".

(** [str(v)]. *)
Definition py_str (v : value) : string :=
  match v with
  | VNone => "None"
  | VBool b => if b then "True" else "False"
  | VInt n => pretty n
  | VStr s => s
  | VList l => "[" +:+ join ", " (map repr_str l) +:+ "]"
  | VDatetime d => isoformat_sep " " d
  | VObjectId h => h
  end.

End PyData.

(** ** [bson.ObjectId] *)

Module Bson.
Import PyData.

#[local] Open Scope Z_scope.

Definition is_hex (c : ascii) : bool :=
  let n := ascii_code c in
  ((48 <=? n) && (n <=? 57)) || ((97 <=? n) && (n <=? 102)) || ((65 <=? n) && (n <=? 70)).

(** ASCII white space, which [bytes.fromhex] skips. *)
Definition is_space (c : ascii) : bool :=
  let n := ascii_code c in (n =? 32) || ((9 <=? n) && (n <=? 13)).

(** [bytes.fromhex(s)], the bytes kept as their lower-case hexadecimal
    text; [None] stands for [ValueError]. *)
Fixpoint fromhex (s : string) : option string :=
  match s with
  | EmptyString => Some EmptyString
  | String c s' =>
      if is_space c then fromhex s'
      else match s' with
           | EmptyString => None
           | String c' s'' =>
               if is_hex c && is_hex c'
               then (fun r => String (to_lower c) (String (to_lower c') r)) <$> fromhex s''
               else None
           end
  end.

(** [ObjectId(oid)] on a [str]: an identifier is kept as the text
    [str] gives back for it; [None] stands for [InvalidId]. *)
Definition ObjectId (oid : string) : option string :=
  if Nat.eqb (String.length oid) 24 then fromhex oid else None.

(** [ObjectId.is_valid(oid)]. *)
Definition is_valid (oid : string) : bool :=
  if String.eqb oid "" then false
  else match ObjectId oid with Some _ => true | None => false end.

(** The [n]-th identifier the driver generates. *)
Definition generated_id (n : Z) : string := fixed_hex 24 n.

End Bson.

(** ** The document store *)

Module Mongo.
Import PyData.

#[local] Open Scope Z_scope.

(** *** Query documents *)

(** The condition a query puts on one field: a value to equal, [$in] with
    its candidates, or [$regex] with its [$options]. *)
Inductive cond :=
| Eq (v : value)
| In (vs : list value)
| Regex (pattern options : string).

(** One entry of a query document: a field with its condition, or [$or]
    with its alternatives, each a document of field conditions. *)
Inductive clause :=
| Field (k : string) (c : cond)
| Or (alts : list (list (string * cond))).

(** A query document; every entry has to hold. *)
Definition filter := list clause.

(** *** Regular expressions

    What is interpreted here is the search of ASCII text for a pattern
    made of ASCII literal characters, [.] and escaped punctuation.  For a
    pattern that uses any other operator, and wherever the pattern or the
    subject holds a character beyond ASCII (whose letter case the
    engine folds by its own tables), the verdict is the server's own
    ([regex_engine] of the database). *)

Inductive atom := Lit (c : ascii) | Dot.

Definition is_alnum (c : ascii) : bool :=
  let n := ascii_code c in
  ((48 <=? n) && (n <=? 57)) || ((97 <=? n) && (n <=? 122)) || ((65 <=? n) && (n <=? 90))
  || (n =? 95).

(** The characters with a meaning of their own in a pattern. *)
Definition is_meta (c : ascii) : bool :=
  existsb (Ascii.eqb c)
    ["\"; "^"; "$"; "."; "["; "]"; "|"; "("; ")"; "?"; "*"; "+"; "{"; "}"]%char.

Fixpoint parse_atoms (p : string) : option (list atom) :=
  match p with
  | EmptyString => Some []
  | String c p' =>
      if Ascii.eqb c "\" then
        match p' with
        | EmptyString => None
        | String c' p'' =>
            if is_alnum c' then None else (fun r => Lit c' :: r) <$> parse_atoms p''
        end
      else if Ascii.eqb c "." then (fun r => Dot :: r) <$> parse_atoms p'
      else if is_meta c then None
      else (fun r => Lit c :: r) <$> parse_atoms p'
  end.

Definition atom_matches (caseless : bool) (a : atom) (c : ascii) : bool :=
  match a with
  | Lit x => if caseless then Ascii.eqb (to_lower x) (to_lower c) else Ascii.eqb x c
  | Dot => negb (Ascii.eqb c "010")
  end.

(** The atoms match a prefix of the subject. *)
Fixpoint match_here (caseless : bool) (atoms : list atom) (s : string) : bool :=
  match atoms, s with
  | [], _ => true
  | _ :: _, EmptyString => false
  | a :: atoms', String c s' => atom_matches caseless a c && match_here caseless atoms' s'
  end.

(** The atoms match somewhere in the subject (an unanchored search). *)
Fixpoint match_anywhere (caseless : bool) (atoms : list atom) (s : string) : bool :=
  match_here caseless atoms s
  || match s with
     | EmptyString => false
     | String _ s' => match_anywhere caseless atoms s'
     end.

(** The search for the atoms of an ASCII pattern: interpreted on an ASCII
    subject, and left to the server, which compiled the pattern to
    [server], on any other. *)
Definition search (server : option (string -> bool)) (caseless : bool) (atoms : list atom)
    : string -> bool :=
  fun s =>
    if ascii_text s then match_anywhere caseless atoms s
    else match server with
         | Some re => re s
         | None => false
         end.

(** A compiled pattern: the search it performs on a subject; [None] when
    the pattern is rejected. *)
Definition regex_compile (engine : string -> string -> option (string -> bool))
    (pattern options : string) : option (string -> bool) :=
  match parse_atoms pattern with
  | Some atoms =>
      if negb (ascii_text pattern) then engine pattern options
      else if String.eqb options "" then Some (search (engine pattern options) false atoms)
      else if String.eqb options "i" then Some (search (engine pattern options) true atoms)
      else engine pattern options
  | None => engine pattern options
  end.

(** *** Matching a document *)

(** A stored value equals the queried one; an array field also matches
    through any of its elements, and [null] is matched by an absent
    field. *)
Definition eq_match (x : option value) (v : value) : bool :=
  match x, v with
  | None, VNone => true
  | None, _ => false
  | Some (VList l), VStr s => bool_decide (s ∈ l)
  | Some y, _ => bool_decide (y = v)
  end.

Definition regex_match (re : string -> bool) (x : option value) : bool :=
  match x with
  | Some (VStr s) => re s
  | Some (VList l) => existsb re l
  | _ => false
  end.

(** The test a condition performs on a field; [None] when the server
    rejects the condition. *)
Definition compile_cond (engine : string -> string -> option (string -> bool))
    (c : cond) : option (option value -> bool) :=
  match c with
  | Eq v => Some (fun x => eq_match x v)
  | In vs => Some (fun x => existsb (eq_match x) vs)
  | Regex p o => regex_match <$> regex_compile engine p o
  end.

Definition compile_field (engine : string -> string -> option (string -> bool))
    (kc : string * cond) : option (dict -> bool) :=
  (fun test (d : dict) => test (d !! kc.1)) <$> compile_cond engine kc.2.

(** Every condition of a document of field conditions holds. *)
Definition compile_fields (engine : string -> string -> option (string -> bool))
    (fs : list (string * cond)) : option (dict -> bool) :=
  (fun tests (d : dict) => forallb (fun t : dict -> bool => t d) tests)
    <$> mapM (compile_field engine) fs.

Definition compile_clause (engine : string -> string -> option (string -> bool))
    (c : clause) : option (dict -> bool) :=
  match c with
  | Field k c => compile_field engine (k, c)
  | Or alts =>
      (fun tests (d : dict) => existsb (fun t : dict -> bool => t d) tests)
        <$> mapM (compile_fields engine) alts
  end.

(** The predicate a query document denotes; [None] when the server
    rejects it. *)
Definition compile_filter (engine : string -> string -> option (string -> bool))
    (f : filter) : option (dict -> bool) :=
  (fun tests (d : dict) => forallb (fun t : dict -> bool => t d) tests)
    <$> mapM (compile_clause engine) f.

(** *** Sort order *)

(** The instant of a stored date; a naive value is taken as UTC. *)
Definition bson_instant (d : datetime) : Z := wall d - default 0 (tzinfo d).

Fixpoint string_max (l : list string) : option string :=
  match l with
  | [] => None
  | s :: l' =>
      match string_max l' with
      | None => Some s
      | Some m => Some (if String.ltb s m then m else s)
      end
  end.

(** The key a descending sort reads off a field: an array counts through
    its greatest element, an empty array below [null], an absent field as
    [null]. *)
Definition sort_key (x : option value) : option value :=
  match x with
  | None => Some VNone
  | Some (VList l) => VStr <$> string_max l
  | Some v => Some v
  end.

(** The rank of a value's type in the comparison order of the store. *)
Definition type_rank (k : option value) : Z :=
  match k with
  | None => 0
  | Some VNone => 2
  | Some (VInt _) => 3
  | Some (VStr _) => 4
  | Some (VList _) => 6
  | Some (VObjectId _) => 8
  | Some (VBool _) => 9
  | Some (VDatetime _) => 10
  end.

(** [key_lt a b]: key [a] sorts strictly before key [b] in ascending
    order. *)
Definition key_lt (a b : option value) : bool :=
  if type_rank a <? type_rank b then true
  else if type_rank b <? type_rank a then false
  else match a, b with
       | Some (VInt x), Some (VInt y) => x <? y
       | Some (VStr x), Some (VStr y) => String.ltb x y
       | Some (VObjectId x), Some (VObjectId y) => String.ltb x y
       | Some (VBool x), Some (VBool y) => negb x && y
       | Some (VDatetime x), Some (VDatetime y) => bson_instant x <? bson_instant y
       | _, _ => false
       end.

(** Insertion of [d], which comes before the documents of [l] in stored
    order, into [l] already in descending order of field [k]: after the
    documents whose key is greater, before those whose key is equal. *)
Fixpoint insert_desc (k : string) (d : dict) (l : list dict) : list dict :=
  match l with
  | [] => [d]
  | e :: l' =>
      if key_lt (sort_key (d !! k)) (sort_key (e !! k))
      then e :: insert_desc k d l'
      else d :: e :: l'
  end.

(** [sort(k, -1)]: descending order of field [k].  The server fixes no
    order among documents with equal keys; here they keep their stored
    order, and what is stated of a sorted result is stated of every
    descending arrangement of the documents. *)
Definition sort_desc (k : string) (l : list dict) : list dict :=
  foldr (fun d acc => insert_desc k d acc) [] l.

(** *** Databases and cursors *)

(** A database: its collections by name, each the list of its documents in
    stored order, and the regular-expression engine of the server.  A
    document holds its values as they were given to the store. *)
Record Database := {
  collections : gmap string (list dict);
  regex_engine : string -> string -> option (string -> bool)
}.

(** [db[name]]; a collection never written to is empty. *)
Definition collection (d : Database) (name : string) : list dict :=
  default [] (collections d !! name).

Definition set_collection (d : Database) (name : string) (l : list dict) : Database :=
  {| collections := <[name := l]> (collections d); regex_engine := regex_engine d |}.

(** The documents of a collection that match a query, in stored order. *)
Definition select (d : Database) (name : string) (f : filter) : option (list dict) :=
  (fun p => List.filter p (collection d name)) <$> compile_filter (regex_engine d) f.

(** [limit(n)] applied to the documents found: zero lifts the limit, a
    negative number asks for one batch of at most its absolute value,
    taken here to hold that many. *)
Definition apply_limit (n : Z) (l : list dict) : list dict :=
  if n =? 0 then l else take (Z.to_nat (Z.abs n)) l.

(** [$set]: the first document matching [p] gets the fields of [upd];
    the result tells whether one matched. *)
Fixpoint set_first (p : dict -> bool) (upd : dict) (l : list dict) : list dict * bool :=
  match l with
  | [] => ([], false)
  | e :: l' =>
      if p e then ((upd ∪ e) :: l', true)
      else let '(r, m) := set_first p upd l' in (e :: r, m)
  end.

(** [delete_one]: the collection without the first document matching [p],
    and the number of documents removed. *)
Fixpoint remove_first (p : dict -> bool) (l : list dict) : list dict * Z :=
  match l with
  | [] => ([], 0)
  | e :: l' =>
      if p e then (l', 1)
      else let '(r, n) := remove_first p l' in (e :: r, n)
  end.

End Mongo.

(** ** [schemas.py] and the input models of [main.py] *)

Module Schemas.
Import PyData.

(** An optional field of a model: [None] dumps as Python's [None]. *)
Definition dump_opt {A} (f : A -> value) (x : option A) : value :=
  from_option f VNone x.

(** A field of an update model: unset, or set to [None] or to a value.
    Only a field that was set is dumped under [exclude_unset]. *)
Definition dump_set {A} (k : string) (f : A -> value) (x : option (option A))
    : list (string * value) :=
  match x with
  | None => []
  | Some o => [(k, dump_opt f o)]
  end.

Module Category.
Record t := mk {
  name : string;
  slug : string;
  description : option string
}.

(** [payload.model_dump()]. *)
Definition model_dump (p : t) : dict :=
  list_to_map [("name", VStr (name p)); ("slug", VStr (slug p));
               ("description", dump_opt VStr (description p))].
End Category.

Module Post.
Record t := mk {
  title : string;
  slug : string;
  excerpt : option string;
  content : string;
  image_url : option string;
  category_slug : option string;
  tags : option (list string);
  status : string;
  author : option string;
  published_at : option datetime
}.

(** [payload.model_dump()]. *)
Definition model_dump (p : t) : dict :=
  list_to_map [("title", VStr (title p)); ("slug", VStr (slug p));
               ("excerpt", dump_opt VStr (excerpt p));
               ("content", VStr (content p));
               ("image_url", dump_opt VStr (image_url p));
               ("category_slug", dump_opt VStr (category_slug p));
               ("tags", dump_opt VList (tags p));
               ("status", VStr (status p));
               ("author", dump_opt VStr (author p));
               ("published_at", dump_opt VDatetime (published_at p))].
End Post.

Module PostUpdate.
Record t := mk {
  title : option (option string);
  slug : option (option string);
  excerpt : option (option string);
  content : option (option string);
  image_url : option (option string);
  category_slug : option (option string);
  tags : option (option (list string));
  status : option (option string);
  author : option (option string);
  published_at : option (option datetime)
}.

(** [payload.model_dump(exclude_unset=True)]. *)
Definition model_dump_exclude_unset (p : t) : dict :=
  list_to_map (dump_set "title" VStr (title p) ++ dump_set "slug" VStr (slug p)
    ++ dump_set "excerpt" VStr (excerpt p) ++ dump_set "content" VStr (content p)
    ++ dump_set "image_url" VStr (image_url p)
    ++ dump_set "category_slug" VStr (category_slug p)
    ++ dump_set "tags" VList (tags p) ++ dump_set "status" VStr (status p)
    ++ dump_set "author" VStr (author p)
    ++ dump_set "published_at" VDatetime (published_at p)).

(** The model with no field set. *)
Definition unset : t := mk None None None None None None None None None None.
End PostUpdate.

Module CategoryUpdate.
Record t := mk {
  name : option (option string);
  slug : option (option string);
  description : option (option string)
}.

(** [payload.model_dump(exclude_unset=True)]. *)
Definition model_dump_exclude_unset (p : t) : dict :=
  list_to_map (dump_set "name" VStr (name p) ++ dump_set "slug" VStr (slug p)
    ++ dump_set "description" VStr (description p)).

Definition unset : t := mk None None None.
End CategoryUpdate.

End Schemas.

(** ** The world of a request and the handler monad *)

Module Runtime.
Import PyData Mongo.

(** The exceptions a handler can end with. *)
Inductive exn :=
| HTTPException (status_code : Z) (detail : string)
| TypeError
| ValueError
| OverflowError
| InvalidId
| OperationFailure
| DuplicateKeyError
| DatabaseNotAvailable.

(** How a call ends: with a value, or with an exception raised. *)
Inductive outcome (A : Type) :=
| Returned (a : A)
| Raised (e : exn).
Arguments Returned {A} a.
Arguments Raised {A} e.

(** A request the driver sent to the store. *)
Inductive op :=
| OpFindOne (coll : string) (f : filter)
| OpFind (coll : string) (f : filter)
| OpCount (coll : string) (f : filter)
| OpInsertOne (coll : string) (d : dict)
| OpUpdateOne (coll : string) (f : filter) (upd : dict).

(** The world a handler runs in: the global handle [db] ([None] when no
    database is configured), the readings the clock gives to successive
    calls of [datetime.now] and how many were taken, the counter of the
    identifier generator, the requests sent to the store so far, and the
    UTC offset of system local time at a wall-clock reading. *)
Record World := {
  db : option Database;
  readings : nat -> Z;
  reads : nat;
  next_id : Z;
  oplog : list op;
  local_utcoffset : Z -> Z
}.

Definition M (A : Type) : Type := World -> outcome A * World.

Definition ret {A} (a : A) : M A := fun w => (Returned a, w).

Definition bind {A B} (m : M A) (k : A -> M B) : M B :=
  fun w =>
    match m w with
    | (Returned a, w') => k a w'
    | (Raised e, w') => (Raised e, w')
    end.

Definition raise {A} (e : exn) : M A := fun w => (Raised e, w).

Definition get_world : M World := fun w => (Returned w, w).

Definition with_db (d : Database) (w : World) : World :=
  {| db := Some d; readings := readings w; reads := reads w; next_id := next_id w;
     oplog := oplog w; local_utcoffset := local_utcoffset w |}.

(** The world after one more request went to the store. *)
Definition logged (o : op) (w : World) : World :=
  {| db := db w; readings := readings w; reads := reads w; next_id := next_id w;
     oplog := oplog w ++ [o]; local_utcoffset := local_utcoffset w |}.

(** The world after one more reading of the clock. *)
Definition ticked (w : World) : World :=
  {| db := db w; readings := readings w; reads := S (reads w); next_id := next_id w;
     oplog := oplog w; local_utcoffset := local_utcoffset w |}.

(** The world after one more identifier was generated. *)
Definition generated (w : World) : World :=
  {| db := db w; readings := readings w; reads := reads w;
     next_id := (next_id w + 1)%Z; oplog := oplog w;
     local_utcoffset := local_utcoffset w |}.

Definition log (o : op) : M unit := fun w => (Returned tt, logged o w).

(** The instant the clock shows at its next reading, as an aware value. *)
Definition current_instant (w : World) : value :=
  VDatetime {| wall := readings w (reads w); tzinfo := utc |}.

(** [datetime.now(timezone.utc)]. *)
Definition now_utc : M value := fun w => (Returned (current_instant w), ticked w).

(** A fresh identifier of the driver. *)
Definition fresh_id : M value :=
  fun w => (Returned (VObjectId (Bson.generated_id (next_id w))), generated w).

(** [db[...]]: subscripting the handle, a [TypeError] when it is [None]. *)
Definition subscript_db : M Database :=
  fun w => match db w with
           | Some d => (Returned d, w)
           | None => (Raised TypeError, w)
           end.

Definition put_db (d : Database) : M unit := fun w => (Returned tt, with_db d w).

(** Modelled from the spec: the handle [db] of the module [database],
    which this program imports and which is not among its sources.  It is
    the connection to the document store of the spec's section 6, absent
    when no database is configured, and [if db] holds exactly when it is
    there. *)
Definition db_is_set (w : World) : bool :=
  match db w with
  | Some _ => true
  | None => false
  end.

End Runtime.

(** ** The driver: collections and cursors *)

Module Driver.
Import PyData Mongo Runtime.

#[local] Open Scope Z_scope.

Notation "x <- m ;; k" := (bind m (fun x => k))
  (at level 100, m at next level, right associativity, only parsing).
Notation "m ;; k" := (bind m (fun _ => k))
  (at level 100, right associativity, only parsing).

(** The predicate of a query, [OperationFailure] when the server rejects
    it. *)
Definition server_filter (d : Database) (f : filter) : M (dict -> bool) :=
  match compile_filter (regex_engine d) f with
  | Some p => ret p
  | None => raise OperationFailure
  end.

(** [db[coll].find_one(f)]: the first matching document in stored order,
    [None] when there is none. *)
Definition find_one (coll : string) (f : filter) : M (option dict) :=
  d <- subscript_db ;;
  log (OpFindOne coll f) ;;
  p <- server_filter d f ;;
  ret (head (List.filter p (collection d coll))).

(** [db[coll].count_documents(f)]. *)
Definition count_documents (coll : string) (f : filter) : M Z :=
  d <- subscript_db ;;
  log (OpCount coll f) ;;
  p <- server_filter d f ;;
  ret (Z.of_nat (length (List.filter p (collection d coll)))).

(** [db[coll].insert_one(document)]: the document gets an [_id] when it has
    none, and is added at the end of the collection; the result is the
    inserted identifier.  The collection keeps a date as it is handed
    over, where a store keeps its instant to the millisecond. *)
Definition insert_one (coll : string) (document : dict) : M value :=
  d <- subscript_db ;;
  oid <- match document !! "_id" with
         | Some v => ret v
         | None => fresh_id
         end ;;
  let stored := <["_id" := oid]> document in
  log (OpInsertOne coll stored) ;;
  if existsb (fun e : dict => bool_decide (e !! "_id" = Some oid)) (collection d coll)
  then raise DuplicateKeyError
  else put_db (set_collection d coll (collection d coll ++ [stored])) ;;
       ret oid.

(** [db[coll].update_one(f, {"$set": upd})]; the result is
    [matched_count] as a truth value.  Dates are kept as by
    [insert_one]. *)
Definition update_one (coll : string) (f : filter) (upd : dict) : M bool :=
  d <- subscript_db ;;
  log (OpUpdateOne coll f upd) ;;
  p <- server_filter d f ;;
  let '(l, matched) := set_first p upd (collection d coll) in
  (if matched then put_db (set_collection d coll l) else ret tt) ;;
  ret matched.

(** A cursor: the query it will send when iterated. *)
Record Cursor := {
  cur_coll : string;
  cur_filter : filter;
  cur_sort : option string;
  cur_skip : Z;
  cur_limit : Z
}.

(** [db[coll].find(f)]. *)
Definition find (coll : string) (f : filter) : M Cursor :=
  _d <- subscript_db ;;
  ret {| cur_coll := coll; cur_filter := f; cur_sort := None; cur_skip := 0; cur_limit := 0 |}.

(** [cursor.sort(k, -1)]. *)
Definition sort (k : string) (c : Cursor) : M Cursor :=
  ret {| cur_coll := cur_coll c; cur_filter := cur_filter c; cur_sort := Some k;
         cur_skip := cur_skip c; cur_limit := cur_limit c |}.

(** [cursor.skip(n)]: a negative number is refused at once. *)
Definition skip (n : Z) (c : Cursor) : M Cursor :=
  if n <? 0 then raise ValueError
  else ret {| cur_coll := cur_coll c; cur_filter := cur_filter c; cur_sort := cur_sort c;
              cur_skip := n; cur_limit := cur_limit c |}.

(** [cursor.limit(n)]. *)
Definition limit (n : Z) (c : Cursor) : M Cursor :=
  ret {| cur_coll := cur_coll c; cur_filter := cur_filter c; cur_sort := cur_sort c;
         cur_skip := cur_skip c; cur_limit := n |}.

(** The numbers a query can carry: eight-byte integers. *)
Definition fits_int64 (n : Z) : bool := (- 2 ^ 63 <=? n) && (n <? 2 ^ 63).

(** The documents a query with the given window yields: those matching,
    sorted, without the first [skip_n], up to the limit. *)
Definition window (sort_k : option string) (skip_n limit_n : Z) (l : list dict) : list dict :=
  apply_limit limit_n
    (drop (Z.to_nat skip_n)
       (match sort_k with Some k => sort_desc k l | None => l end)).

(** Iterating a cursor ([for d in cursor]): the query is sent and its
    documents are read. *)
Definition iterate (c : Cursor) : M (list dict) :=
  d <- subscript_db ;;
  if negb (fits_int64 (cur_skip c) && fits_int64 (cur_limit c)) then raise OverflowError
  else
    log (OpFind (cur_coll c) (cur_filter c)) ;;
    p <- server_filter d (cur_filter c) ;;
    ret (window (cur_sort c) (cur_skip c) (cur_limit c)
           (List.filter p (collection d (cur_coll c)))).

(** [db[coll].delete_one(f)]; the result is [deleted_count].  The log of
    the world keeps the reads, the inserts and the updates; a removal
    shows in the database alone. *)
Definition delete_one (coll : string) (f : filter) : M Z :=
  d <- subscript_db ;;
  p <- server_filter d f ;;
  let '(l, n) := remove_first p (collection d coll) in
  (if n =? 0 then ret tt else put_db (set_collection d coll l)) ;;
  ret n.

End Driver.

(** ** [main.py] *)

Module Main.
Import PyData Mongo Runtime Driver Schemas.

#[local] Open Scope Z_scope.

(** *** [serialize_doc] *)

(** The text a datetime field is rewritten to,
    [v.astimezone(timezone.utc).isoformat()], for a value that
    [astimezone] accepts. *)
Definition utc_iso (tz : Z -> Z) (d : datetime) : value :=
  VStr (isoformat (moved_to_utc tz d)).

(** One turn of the loop over the items: a datetime value is replaced
    under its key. *)
Definition convert_item (tz : Z -> Z) (d : dict) (kv : string * value) : dict :=
  match kv.2 with
  | VDatetime t => <[kv.1 := utc_iso tz t]> d
  | _ => d
  end.

(** What [serialize_doc(doc)] returns, on [None] or a dictionary, when
    it returns: a datetime that cannot be moved to UTC within the years 1
    to 9999 makes the call raise, which [serialize_doc_obj] below
    follows. *)
Definition serialize_doc (tz : Z -> Z) (doc : option dict) : option dict :=
  match doc with
  | None => None
  | Some d0 =>
      if decide (d0 = ∅) then Some d0
      else
        let d := d0 in
        let d := match d !! "_id" with
                 | Some v => <["id" := VStr (py_str v)]> (delete "_id" d)
                 | None => d
                 end in
        Some (foldl (convert_item tz) d (map_to_list d))
  end.

(** The function on dictionary objects in a heap, statement by
    statement: [dict(doc)] allocates the copy, [pop] and the item
    assignments update the copy in place, and the result is a reference,
    or the exception that [astimezone] raised. *)
Abbreviation heap := (gmap positive dict).

Definition setitem (l : positive) (k : string) (v : value) (h : heap) : heap :=
  alter (fun d : dict => <[k := v]> d) l h.

Definition popitem (l : positive) (k : string) (h : heap) : heap :=
  alter (fun d : dict => delete k d) l h.

Definition items (l : positive) (h : heap) : list (string * value) :=
  map_to_list (default ∅ (h !! l)).

(** The loop over the items, on the copy [l]: each datetime is replaced
    under its key, and the first one that cannot be moved to UTC ends the
    loop with [OverflowError]. *)
Fixpoint convert_datetimes (tz : Z -> Z) (l : positive) (kvs : list (string * value))
    (h : heap) : outcome unit * heap :=
  match kvs with
  | [] => (Returned tt, h)
  | kv :: kvs' =>
      match kv.2 with
      | VDatetime t =>
          match astimezone_utc tz t with
          | Some u => convert_datetimes tz l kvs' (setitem l kv.1 (VStr (isoformat u)) h)
          | None => (Raised OverflowError, h)
          end
      | _ => convert_datetimes tz l kvs' h
      end
  end.

Definition serialize_doc_obj (tz : Z -> Z) (doc : option positive) (h : heap)
    : outcome (option positive) * heap :=
  match doc with
  | None => (Returned None, h)
  | Some l0 =>
      match h !! l0 with
      | None => (Returned (Some l0), h)
      | Some d0 =>
          if decide (d0 = ∅) then (Returned (Some l0), h)
          else
            let l := fresh (dom h) in
            let h := <[l := d0]> h in
            let h := match d0 !! "_id" with
                     | Some v => setitem l "id" (VStr (py_str v)) (popitem l "_id" h)
                     | None => h
                     end in
            match convert_datetimes tz l (items l h) h with
            | (Returned _, h') => (Returned (Some l), h')
            | (Raised e, h') => (Raised e, h')
            end
      end
  end.

(** *** Results of the handlers *)

(** What a handler hands back to the framework. *)
Inductive response :=
| RDoc (d : option dict)
| RDocs (l : list (option dict))
| RUpdated (updated : bool)
| RListing (items : list (option dict)) (page page_size total : Z)
| RException (e : exn).

(** [if db], [if existing]: truth of an optional object. *)
Definition doc_truthy (o : option dict) : bool :=
  match o with
  | None => false
  | Some d => negb (bool_decide (d = ∅))
  end.

(** Truth of an optional text ([if status:], [if q:]). *)
Definition str_truthy (o : option string) : bool :=
  match o with
  | None => false
  | Some s => negb (String.eqb s "")
  end.

Definition serialize (doc : option dict) : M (option dict) :=
  w <- get_world ;;
  ret (serialize_doc (local_utcoffset w) doc).

(** Modelled from the spec: [create_document] of the module [database],
    which this file imports.  It refuses to work without a database, stamps
    [created_at] and [updated_at], inserts the fields and returns the
    identifier the store assigned, as text. *)
Definition create_document (collection_name : string) (data : dict) : M string :=
  w <- get_world ;;
  if negb (db_is_set w) then raise DatabaseNotAvailable
  else
    created <- now_utc ;;
    updated <- now_utc ;;
    let data := <["updated_at" := updated]> (<["created_at" := created]> data) in
    inserted_id <- insert_one collection_name data ;;
    ret (py_str inserted_id).

(** [ObjectId(id)] in a handler. *)
Definition object_id (id : string) : M value :=
  match Bson.ObjectId id with
  | Some h => ret (VObjectId h)
  | None => raise InvalidId
  end.

(** The slug lookup of the create handlers:
    [db[coll].find_one({"slug": slug}) if db else None]. *)
Definition existing_slug (coll slug : string) : M (option dict) :=
  w <- get_world ;;
  if db_is_set w then find_one coll [Field "slug" (Eq (VStr slug))]
  else ret None.

Definition create_category (payload : Category.t) : M response :=
  existing <- existing_slug "category" (Category.slug payload) ;;
  if doc_truthy existing
  then raise (HTTPException 400 "Category slug already exists")
  else
    cat_id <- create_document "category" (Category.model_dump payload) ;;
    oid <- object_id cat_id ;;
    doc <- find_one "category" [Field "_id" (Eq oid)] ;;
    r <- serialize doc ;;
    ret (RDoc r).

Definition update_category (id : string) (payload : CategoryUpdate.t) : M response :=
  if negb (Bson.is_valid id) then raise (HTTPException 400 "Invalid id")
  else
    let update := CategoryUpdate.model_dump_exclude_unset payload in
    if decide (update = ∅) then ret (RUpdated false)
    else
      t <- now_utc ;;
      let update := <["updated_at" := t]> update in
      oid <- object_id id ;;
      res <- update_one "category" [Field "_id" (Eq oid)] update ;;
      oid' <- object_id id ;;
      doc <- find_one "category" [Field "_id" (Eq oid')] ;;
      if res then r <- serialize doc ;; ret (RDoc r)
      else ret (RException (HTTPException 404 "Not found")).

Definition create_post (payload : Post.t) : M response :=
  existing <- existing_slug "post" (Post.slug payload) ;;
  if doc_truthy existing
  then raise (HTTPException 400 "Post slug already exists")
  else
    let data := Post.model_dump payload in
    data <- (if bool_decide (dict_get data "status" = VStr "published")
                && negb (truthy (dict_get data "published_at"))
             then t <- now_utc ;; ret (<["published_at" := t]> data)
             else ret data) ;;
    post_id <- create_document "post" data ;;
    oid <- object_id post_id ;;
    doc <- find_one "post" [Field "_id" (Eq oid)] ;;
    r <- serialize doc ;;
    ret (RDoc r).

(** The query of the administrative listing. *)
Definition admin_filter (status q : option string) : filter :=
  let filt : filter := [] in
  let filt := if str_truthy status
              then filt ++ [Field "status" (Eq (VStr (default "" status)))]
              else filt in
  if str_truthy q
  then filt ++ [Or [[("title", Regex (default "" q) "i")];
                    [("excerpt", Regex (default "" q) "i")];
                    [("content", Regex (default "" q) "i")]]]
  else filt.

Definition list_posts_admin (status q : option string) : M response :=
  let filt := admin_filter status q in
  c <- find "post" filt ;;
  docs <- sort "created_at" c ;;
  ds <- iterate docs ;;
  w <- get_world ;;
  ret (RDocs (map (fun d => serialize_doc (local_utcoffset w) (Some d)) ds)).

Definition get_post_admin (id : string) : M response :=
  if negb (Bson.is_valid id) then raise (HTTPException 400 "Invalid id")
  else
    oid <- object_id id ;;
    doc <- find_one "post" [Field "_id" (Eq oid)] ;;
    if negb (doc_truthy doc) then raise (HTTPException 404 "Not found")
    else r <- serialize doc ;; ret (RDoc r).

Definition update_post (id : string) (payload : PostUpdate.t) : M response :=
  if negb (Bson.is_valid id) then raise (HTTPException 400 "Invalid id")
  else
    let update := PostUpdate.model_dump_exclude_unset payload in
    if decide (update = ∅) then ret (RUpdated false)
    else
      update <- (if bool_decide (dict_get update "status" = VStr "published")
                    && negb (truthy (dict_get update "published_at"))
                 then t <- now_utc ;; ret (<["published_at" := t]> update)
                 else ret update) ;;
      t <- now_utc ;;
      let update := <["updated_at" := t]> update in
      oid <- object_id id ;;
      res <- update_one "post" [Field "_id" (Eq oid)] update ;;
      oid' <- object_id id ;;
      doc <- find_one "post" [Field "_id" (Eq oid')] ;;
      if res then r <- serialize doc ;; ret (RDoc r)
      else ret (RException (HTTPException 404 "Not found")).

(** The query of the public listing. *)
Definition public_filter (category tag : option string) : filter :=
  let filt : filter := [Field "status" (Eq (VStr "published"))] in
  let filt := if str_truthy category
              then filt ++ [Field "category_slug" (Eq (VStr (default "" category)))]
              else filt in
  if str_truthy tag
  then filt ++ [Field "tags" (In [VStr (default "" tag)])]
  else filt.

Definition list_posts_public (page page_size : option Z) (category tag : option string)
    : M response :=
  let page := default 1 page in
  let page_size := default 10 page_size in
  let filt := public_filter category tag in
  let skip_n := (page - 1) * page_size in
  c <- find "post" filt ;;
  c <- sort "published_at" c ;;
  c <- skip skip_n c ;;
  cursor <- limit page_size c ;;
  ds <- iterate cursor ;;
  w <- get_world ;;
  let items := map (fun d => serialize_doc (local_utcoffset w) (Some d)) ds in
  total <- count_documents "post" filt ;;
  ret (RListing items page page_size total).

Definition get_post_by_slug (slug : string) : M response :=
  doc <- find_one "post" [Field "slug" (Eq (VStr slug)); Field "status" (Eq (VStr "published"))] ;;
  if negb (doc_truthy doc) then raise (HTTPException 404 "Not found")
  else r <- serialize doc ;; ret (RDoc r).

(** *** The handlers that remove a document *)

(** The dictionary [{"deleted": b}]. *)
Record Deleted := { deleted : bool }.

Definition delete_category (id : string) : M Deleted :=
  if negb (Bson.is_valid id) then raise (HTTPException 400 "Invalid id")
  else
    oid <- object_id id ;;
    res <- delete_one "category" [Field "_id" (Eq oid)] ;;
    ret {| deleted := res =? 1 |}.

Definition delete_post (id : string) : M Deleted :=
  if negb (Bson.is_valid id) then raise (HTTPException 400 "Invalid id")
  else
    oid <- object_id id ;;
    res <- delete_one "post" [Field "_id" (Eq oid)] ;;
    ret {| deleted := res =? 1 |}.

(** *** The syndication feed *)

Module WPFeedItem.
Record t := mk {
  id : string;
  title : string;
  slug : string;
  excerpt : option string;
  content : string;
  image_url : option string;
  category_slug : option string;
  tags : option (list string);
  author : option string;
  published_at : option string
}.

(** A field declared [str]: the key has to be there and hold a text. *)
Definition required_str (s : dict) (k : string) : option string :=
  match s !! k with
  | Some (VStr x) => Some x
  | _ => None
  end.

(** A field declared [Optional[str] = None]: absent or [None] gives
    [None], a text gives itself, any other value is refused. *)
Definition optional_str (s : dict) (k : string) : option (option string) :=
  match s !! k with
  | None | Some VNone => Some None
  | Some (VStr x) => Some (Some x)
  | Some _ => None
  end.

(** A field declared [Optional[List[str]] = None]. *)
Definition optional_strs (s : dict) (k : string) : option (option (list string)) :=
  match s !! k with
  | None | Some VNone => Some None
  | Some (VList l) => Some (Some l)
  | Some _ => None
  end.

(** The model built from the dictionary [s] unpacked into keyword
    arguments, keys the model does not declare being ignored; [None]
    stands for the validation error. *)
Definition validate (s : dict) : option t :=
  id ← required_str s "id";
  title ← required_str s "title";
  slug ← required_str s "slug";
  excerpt ← optional_str s "excerpt";
  content ← required_str s "content";
  image_url ← optional_str s "image_url";
  category_slug ← optional_str s "category_slug";
  tags ← optional_strs s "tags";
  author ← optional_str s "author";
  published_at ← optional_str s "published_at";
  Some (mk id title slug excerpt content image_url category_slug tags author published_at).
End WPFeedItem.

(** The loop of [wp_feed] over the documents of the cursor: each is
    serialized and validated, and the first one refused ends the loop
    with the validation error, an instance of [ValueError]. *)
Fixpoint feed_items (tz : Z -> Z) (ds : list dict) (items : list WPFeedItem.t)
    : M (list WPFeedItem.t) :=
  match ds with
  | [] => ret items
  | d :: ds' =>
      match WPFeedItem.validate (default ∅ (serialize_doc tz (Some d))) with
      | Some item => feed_items tz ds' (items ++ [item])
      | None => raise ValueError
      end
  end.

Definition wp_feed (limit : option Z) : M (list WPFeedItem.t) :=
  let limit := default 50 limit in
  let filt : filter := [Field "status" (Eq (VStr "published"))] in
  c <- find "post" filt ;;
  c <- sort "published_at" c ;;
  cursor <- Driver.limit limit c ;;
  ds <- iterate cursor ;;
  w <- get_world ;;
  feed_items (local_utcoffset w) ds [].

End Main.

(** ** Vocabulary of the statements *)

Module Spec.
Import PyData Mongo Runtime Driver Schemas Main.

#[local] Open Scope Z_scope.

(** The stored document of a collection that carries the identifier
    [oid], the first one in stored order. *)
Definition stored (coll oid : string) (w : World) : option dict :=
  match db w with
  | Some d =>
      head (List.filter (fun e : dict => bool_decide (e !! "_id" = Some (VObjectId oid)))
              (collection d coll))
  | None => None
  end.

(** The outcome an update gives when no document matched. *)
Definition not_found_returned : outcome response :=
  Returned (RException (HTTPException 404 "Not found")).

(** The failure [NotFound]: the exception raised. *)
Definition not_found : outcome response := Raised (HTTPException 404 "Not found").

(** The outcome of an update that had nothing to set. *)
Definition no_update : outcome response := Returned (RUpdated false).

(** The value a stored document holds under a key, [None] when the
    document or the key is missing. *)
Definition field (k : string) (o : option dict) : option value :=
  match o with
  | Some d => d !! k
  | None => None
  end.

(** The test the query [{"_id": v}] performs on a document. *)
Definition id_test (v : value) : dict -> bool :=
  fun d => eq_match (d !! "_id") v && true.

(** The test both post handlers make on the fields in hand before they
    stamp [published_at]. *)
Definition publish_due (fields : dict) : bool :=
  bool_decide (dict_get fields "status" = VStr "published")
  && negb (truthy (dict_get fields "published_at")).

(** The fields [update_post] sends to the store for a dumped partial. *)
Definition fields_set (fields : dict) (w : World) : dict :=
  if publish_due fields
  then <["updated_at" := current_instant (ticked w)]>
         (<["published_at" := current_instant w]> fields)
  else <["updated_at" := current_instant w]> fields.

(** The world after the clock readings [update_post] takes. *)
Definition after_stamps (fields : dict) (w : World) : World :=
  if publish_due fields then ticked (ticked w) else ticked w.

(** The copy [serialize_doc] works on, once the identifier has its new
    name. *)
Definition with_id (d : dict) : dict :=
  match d !! "_id" with
  | Some v => <["id" := VStr (py_str v)]> (delete "_id" d)
  | None => d
  end.

(** [astimezone] accepts the value, if it is a datetime. *)
Definition movable (tz : Z -> Z) (v : value) : bool :=
  match v with
  | VDatetime t => match astimezone_utc tz t with Some _ => true | None => false end
  | _ => true
  end.

(** Every datetime the loop of [serialize_doc] meets in [d] can be moved
    to UTC within the years 1 to 9999. *)
Definition convertible (tz : Z -> Z) (d : dict) : Prop :=
  forall k t, k <> "_id" -> k <> "id" \/ d !! "_id" = None ->
    d !! k = Some (VDatetime t) -> is_Some (astimezone_utc tz t).

(** The reading of the spec that the code does not follow, for the
    serializer: the document the reference [l0] stands for comes back as
    a copy, whatever it holds. *)
Definition returns_a_copy (tz : Z -> Z) (h : heap) (l0 : positive) : Prop :=
  exists l h', serialize_doc_obj tz (Some l0) h = (Returned (Some l), h') /\ l <> l0.

(** What [serialize_doc] makes of the value of a field. *)
Definition serialize_value (tz : Z -> Z) (v : value) : value :=
  match v with
  | VDatetime t => utc_iso tz t
  | _ => v
  end.

(** The text [s] ends with [suffix]. *)
Definition ends_with (suffix s : string) : Prop := exists p, s = p +:+ suffix.

(** A stored field reads as the text [s] to an equality query: it is
    that text, or an array that holds it. *)
Definition reads_as (s : string) (x : option value) : Prop :=
  x = Some (VStr s) \/ exists l, x = Some (VList l) /\ s ∈ l.

(** The test the query of [get_post_by_slug] performs on a document. *)
Definition public_slug_test (slug : string) : dict -> bool :=
  fun d => eq_match (d !! "slug") (VStr slug)
           && (eq_match (d !! "status") (VStr "published") && true).

(** The test the query [{"slug": s}] performs on a document. *)
Definition slug_test (s : string) : dict -> bool :=
  fun d => eq_match (d !! "slug") (VStr s) && true.

(** The document [create_document] hands to the store for the fields
    [data], with the identifier the driver gives it. *)
Definition inserted (data : dict) (w : World) : dict :=
  <["_id" := VObjectId (Bson.generated_id (next_id w))]>
    (<["updated_at" := current_instant (ticked w)]>
       (<["created_at" := current_instant w]> data)).

(** The document [create_post] stores for the dumped payload [data]. *)
Definition post_created (data : dict) (w : World) : dict :=
  if publish_due data
  then inserted (<["published_at" := current_instant w]> data) (ticked w)
  else inserted data w.

(** The identifier the driver generates next is not in use in the
    collection. *)
Definition unused_id (coll : string) (w : World) : Prop :=
  stored coll (Bson.generated_id (next_id w)) w = None.

(** The reading of the spec that the code does not follow, for the stamp
    of an update: whenever the stored fields with the partial merged over
    them have status [published] and no [published_at], the update stamps
    the current instant. *)
Definition stamp_decided_on_merge (id : string) (payload : PostUpdate.t) (w : World)
    : Prop :=
  forall h existing,
    Bson.ObjectId id = Some h ->
    stored "post" h w = Some existing ->
    let merged := PostUpdate.model_dump_exclude_unset payload ∪ existing in
    dict_get merged "status" = VStr "published" ->
    truthy (dict_get merged "published_at") = false ->
    field "published_at" (stored "post" h (update_post id payload w).2)
    = Some (current_instant w).

(** The reading of the spec that the code does not follow, for the
    number of stamps: a document that is published and has its
    [published_at] keeps that value through any update that supplies no
    [published_at] of its own. *)
Definition stamped_only_the_first_time (id : string) (payload : PostUpdate.t) (w : World)
    : Prop :=
  forall h existing t,
    Bson.ObjectId id = Some h ->
    stored "post" h w = Some existing ->
    existing !! "status" = Some (VStr "published") ->
    existing !! "published_at" = Some (VDatetime t) ->
    PostUpdate.published_at payload = None ->
    field "published_at" (stored "post" h (update_post id payload w).2)
    = Some (VDatetime t).

(** The text [q] occurs in [s] as a substring, the case of the ASCII
    letters aside. *)
Definition occurs_ci (q s : string) : Prop :=
  exists a b, lower s = a +:+ lower q +:+ b.

(** The text occurs in a stored field: in the text it holds, or in one of
    the texts of the array it holds. *)
Definition field_contains (q : string) (x : option value) : Prop :=
  match x with
  | Some (VStr s) => occurs_ci q s
  | Some (VList l) => Exists (occurs_ci q) l
  | _ => False
  end.

(** The text occurs in the title, the excerpt or the content. *)
Definition search_hit (q : string) (x : dict) : Prop :=
  field_contains q (x !! "title") \/ field_contains q (x !! "excerpt")
  \/ field_contains q (x !! "content").

(** A stored field holds ASCII text, when it holds text at all. *)
Definition ascii_field (x : option value) : Prop :=
  match x with
  | Some (VStr s) => ascii_text s = true
  | Some (VList l) => Forall (fun s => ascii_text s = true) l
  | _ => True
  end.

(** The title, the excerpt and the content of a post are ASCII text. *)
Definition ascii_texts (x : dict) : Prop :=
  ascii_field (x !! "title") /\ ascii_field (x !! "excerpt")
  /\ ascii_field (x !! "content").

(** The text holds no character with a meaning of its own in a regular
    expression. *)
Fixpoint literal_text (q : string) : bool :=
  match q with
  | EmptyString => true
  | String c q' => negb (is_meta c) && literal_text q'
  end.

(** The pattern that matches the characters of a text one by one. *)
Fixpoint literals (q : string) : list atom :=
  match q with
  | EmptyString => []
  | String c q' => Lit c :: literals q'
  end.

(** An entry of a query that searches no text: neither [$regex] nor
    [$or]. *)
Definition no_search (c : clause) : Prop :=
  match c with
  | Field _ (Regex _ _) => False
  | Field _ _ => True
  | Or _ => False
  end.

(** The reading of the spec that the code does not follow, for the search
    text: the administrative listing with search text [q] selects exactly
    the posts in which [q] occurs. *)
Definition search_is_substring_match (q : string) (w : World) : Prop :=
  forall d, db w = Some d ->
  exists docs,
    select d "post" (admin_filter None (Some q)) = Some docs
    /\ forall x, x ∈ docs <-> x ∈ collection d "post" /\ search_hit q x.

(** *** Notions for the handlers beyond the updates *)

(** The field holds a date for the instant [n], microseconds of UTC, as
    a store that keeps milliseconds holds it: the instant itself or a
    value up to a millisecond below it. *)
Definition stamped_at (n : Z) (x : option value) : Prop :=
  exists t, x = Some (VDatetime t) /\ n - 1000 < bson_instant t <= n.

(** The instant of [t] lies a day or more inside the years a [datetime]
    holds: the store can keep it, and it can be read in whatever zone. *)
Definition well_inside (t : datetime) : Prop :=
  us_per_day <= bson_instant t <= datetime_max - us_per_day.

(** No two documents of a collection share an [_id], as the store
    guarantees for its collections. *)
Definition ids_unique (l : list dict) : Prop :=
  NoDup ((fun e : dict => e !! "_id") <$> l).

(** A digit or a letter from [a] to [f]: the characters of the text of an
    identifier. *)
Definition lower_hex (c : ascii) : bool :=
  let n := ascii_code c in
  ((48 <=? n) && (n <=? 57)) || ((97 <=? n) && (n <=? 102)).

Fixpoint all_chars (p : ascii -> bool) (s : string) : bool :=
  match s with
  | EmptyString => true
  | String c s' => p c && all_chars p s'
  end.

(** Document [x] does not sort below document [y] on field [k]. *)
Definition not_below (k : string) (x y : dict) : Prop :=
  key_lt (sort_key (x !! k)) (sort_key (y !! k)) = false.

(** The documents [l] are in descending order of field [k]: no document
    is followed, however far behind, by one that sorts above it. *)
Definition newest_first (k : string) (l : list dict) : Prop :=
  forall i j x y, (i < j)%nat -> l !! i = Some x -> l !! j = Some y ->
    key_lt (sort_key (x !! k)) (sort_key (y !! k)) = false.

(** The dictionary [serialize_doc] returns for the dictionary [d]. *)
Definition serialized (tz : Z -> Z) (d : dict) : dict :=
  default ∅ (serialize_doc tz (Some d)).

(** The test the query [{"status": "published"}] performs on a
    document. *)
Definition published_test : dict -> bool :=
  fun x => eq_match (x !! "status") (VStr "published") && true.

(** An optional text of a feed item against the field it was read from:
    the text that is there, or nothing for an absent or [None] field. *)
Definition text_of (o : option string) (x : option value) : Prop :=
  match o with
  | Some s => x = Some (VStr s)
  | None => x = None \/ x = Some VNone
  end.

Definition texts_of (o : option (list string)) (x : option value) : Prop :=
  match o with
  | Some l => x = Some (VList l)
  | None => x = None \/ x = Some VNone
  end.

(** The feed item [item] shows the stored post [x]: its identifier as
    text, and each declared field as [serialize_doc] leaves it. *)
Definition feeds (tz : Z -> Z) (x : dict) (item : WPFeedItem.t) : Prop :=
  let shown k := serialize_value tz <$> x !! k in
  (forall v, x !! "_id" = Some v -> WPFeedItem.id item = py_str v)
  /\ shown "title" = Some (VStr (WPFeedItem.title item))
  /\ shown "slug" = Some (VStr (WPFeedItem.slug item))
  /\ shown "content" = Some (VStr (WPFeedItem.content item))
  /\ text_of (WPFeedItem.excerpt item) (shown "excerpt")
  /\ text_of (WPFeedItem.image_url item) (shown "image_url")
  /\ text_of (WPFeedItem.category_slug item) (shown "category_slug")
  /\ texts_of (WPFeedItem.tags item) (shown "tags")
  /\ text_of (WPFeedItem.author item) (shown "author")
  /\ text_of (WPFeedItem.published_at item) (shown "published_at").

End Spec.

(** ** Worlds the statements are exercised on *)

Module Scenario.
Import PyData Mongo Runtime Driver Schemas Main.

#[local] Open Scope Z_scope.

(** A server that accepts no pattern beyond the literal ones. *)
Definition plain_engine : string -> string -> option (string -> bool) := fun _ _ => None.

Definition database_of (ps cs : list dict) : Database :=
  {| collections := {[ "post" := ps; "category" := cs ]}; regex_engine := plain_engine |}.

(** A clock that starts on 1997-05-23T16:00:00 and advances by one
    microsecond per reading. *)
Definition clock (n : nat) : Z := 63000000000000000 + Z.of_nat n.

Definition world_of (d : Database) : World :=
  {| db := Some d; readings := clock; reads := 0%nat; next_id := 1; oplog := [];
     local_utcoffset := fun _ => 0 |}.

Definition id1 : string := "000000000000000000000001".
Definition id2 : string := "000000000000000000000002".

Definition empty_world : World := world_of (database_of [] []).

(** A partial that sets only the title. *)
Definition retitle : PostUpdate.t :=
  PostUpdate.mk (Some (Some "B")) None None None None None None None None None.

Definition rename : CategoryUpdate.t :=
  CategoryUpdate.mk (Some (Some "B")) None None.

(** A published post that was stored without a [published_at]. *)
Definition unstamped_post : dict :=
  {[ "_id" := VObjectId id1; "title" := VStr "A"; "slug" := VStr "a";
     "content" := VStr "x"; "status" := VStr "published" ]}.

Definition unstamped_world : World := world_of (database_of [unstamped_post] []).

(** 1965-09-14T14:13:20 UTC, a publish time the caller chooses. *)
Definition chosen_time : datetime := {| wall := 62000000000000000; tzinfo := utc |}.

(** A post created as published, with its publish time supplied. *)
Definition dated_post : Post.t :=
  Post.mk "A" "a" None "x" None None None "published" None (Some chosen_time).

(** The world after that post was created in an empty store. *)
Definition dated_world : World := (create_post dated_post empty_world).2.

(** A partial that sets only the status, to [published]. *)
Definition republish : PostUpdate.t :=
  PostUpdate.mk None None None None None None None (Some (Some "published")) None None.

(** A partial that sets only [published_at], to the chosen time. *)
Definition redate : PostUpdate.t :=
  PostUpdate.mk None None None None None None None None None (Some (Some chosen_time)).

(** The document that creation leaves in the store. *)
Definition dated_stored : dict :=
  {[ "_id" := VObjectId id1; "title" := VStr "A"; "slug" := VStr "a";
     "excerpt" := VNone; "content" := VStr "x"; "image_url" := VNone;
     "category_slug" := VNone; "tags" := VNone; "status" := VStr "published";
     "author" := VNone; "published_at" := VDatetime chosen_time;
     "created_at" := VDatetime {| wall := clock 0; tzinfo := utc |};
     "updated_at" := VDatetime {| wall := clock 1; tzinfo := utc |} ]}.

(** A draft whose title is [abc]. *)
Definition abc_post : dict :=
  {[ "_id" := VObjectId id1; "title" := VStr "abc"; "slug" := VStr "abc";
     "excerpt" := VNone; "content" := VStr "x"; "status" := VStr "draft" ]}.

Definition abc_world : World := world_of (database_of [abc_post] []).

Definition id3 : string := "000000000000000000000003".
Definition id4 : string := "000000000000000000000004".

(** A post with a status and a publish time, [n] milliseconds after the
    start of the clock, as the driver hands back the dates of the store:
    to the millisecond, in UTC, without a time zone. *)
Definition post_at (id slug status : string) (n : nat) : dict :=
  {[ "_id" := VObjectId id; "slug" := VStr slug; "status" := VStr status;
     "published_at" := VDatetime {| wall := clock (1000 * n); tzinfo := None |} ]}.

Definition first_post : dict := post_at id1 "first" "published" 1.
Definition second_post : dict := post_at id2 "second" "published" 2.
Definition third_post : dict := post_at id3 "third" "published" 3.
Definition draft_post : dict := post_at id4 "fourth" "draft" 4.

(** Three published posts and a draft, stored in no particular order. *)
Definition blog_world : World :=
  world_of (database_of [second_post; draft_post; first_post; third_post] []).

(** A heap with one document: a post written at 17:00 in a zone one hour
    ahead of UTC. *)
Definition zoned_post : dict :=
  {[ "_id" := VObjectId id1; "title" := VStr "A";
     "created_at" := VDatetime {| wall := clock 0 + 3600000000;
                                  tzinfo := Some 3600000000 |} ]}.

Definition one_object : heap := {[ 1%positive := zoned_post ]}.

(** A heap whose one document is empty. *)
Definition empty_object : heap := {[ 1%positive := ∅ ]}.

(** A heap with one document, dated 0001-01-01T00:30 in a zone one hour
    ahead of UTC: half an hour before the first instant a [datetime] in
    UTC can hold. *)
Definition early_post : dict :=
  {[ "t" := VDatetime {| wall := 1800000000; tzinfo := Some 3600000000 |} ]}.

Definition early_object : heap := {[ 1%positive := early_post ]}.

Definition tech : Category.t := Category.mk "Tech" "tech" None.

(** The world after the category [tech] was created in an empty store. *)
Definition tech_world : World := (create_category tech empty_world).2.

(** The document that creation leaves in the store. *)
Definition tech_stored : dict :=
  {[ "_id" := VObjectId id1; "name" := VStr "Tech"; "slug" := VStr "tech";
     "description" := VNone;
     "created_at" := VDatetime {| wall := clock 0; tzinfo := utc |};
     "updated_at" := VDatetime {| wall := clock 1; tzinfo := utc |} ]}.

(** A partial that sets only the slug, to the slug of the second post. *)
Definition reslug : PostUpdate.t :=
  PostUpdate.mk None (Some (Some "second")) None None None None None None None None.

(** A published post with no title. *)
Definition untitled_post : dict :=
  {[ "_id" := VObjectId id1; "slug" := VStr "a"; "content" := VStr "x";
     "status" := VStr "published" ]}.

Definition untitled_world : World := world_of (database_of [untitled_post] []).

(** A world with no database configured. *)
Definition bare_world : World :=
  {| db := None; readings := clock; reads := 0%nat; next_id := 1; oplog := [];
     local_utcoffset := fun _ => 0 |}.

(** The feed item of the post stored in [dated_world]. *)
Definition dated_item : WPFeedItem.t :=
  WPFeedItem.mk id1 "A" "a" None "x" None None None None
    (Some "1965-09-14T14:13:20+00:00").

(** A partial that sets the title to [None]. *)
Definition untitle : PostUpdate.t :=
  PostUpdate.mk (Some None) None None None None None None None None None.

End Scenario.

(** * Verification *)

Module Facts.
Import PyData Mongo Runtime Driver Schemas Main Spec.

#[local] Open Scope Z_scope.

Ltac run :=
  unfold bind, ret, raise, get_world, log, now_utc, fresh_id, subscript_db, put_db;
  simpl.

(** *** Updates with nothing to set *)

Lemma update_post_unset id w :
  Bson.is_valid id = true ->
  update_post id PostUpdate.unset w = (Returned (RUpdated false), w).
Proof.
  intros Hid. unfold update_post. rewrite Hid. reflexivity.
Qed.

Lemma update_category_unset id w :
  Bson.is_valid id = true ->
  update_category id CategoryUpdate.unset w = (Returned (RUpdated false), w).
Proof.
  intros Hid. unfold update_category. rewrite Hid. reflexivity.
Qed.

Lemma list_to_map_empty_inv (l : list (string * value)) :
  (list_to_map l : dict) = ∅ -> l = [].
Proof.
  destruct l as [|[k v] l]; [reflexivity|].
  simpl. intros H. exfalso. exact (insert_non_empty (M := gmap string) _ _ _ H).
Qed.

Lemma dump_set_nil {A} k (f : A -> value) x : dump_set k f x = [] -> x = None.
Proof. destruct x; [discriminate | reflexivity]. Qed.

(** A post update dumps to the empty dictionary exactly when no field of
    it was set. *)
Lemma post_update_dump_empty p :
  PostUpdate.model_dump_exclude_unset p = ∅ <-> p = PostUpdate.unset.
Proof.
  split; [|intros ->; reflexivity].
  intros H. apply list_to_map_empty_inv in H.
  repeat (apply app_eq_nil in H; destruct H as [?%dump_set_nil H]).
  apply dump_set_nil in H. destruct p; simpl in *; subst. reflexivity.
Qed.

Lemma category_update_dump_empty p :
  CategoryUpdate.model_dump_exclude_unset p = ∅ <-> p = CategoryUpdate.unset.
Proof.
  split; [|intros ->; reflexivity].
  intros H. apply list_to_map_empty_inv in H.
  repeat (apply app_eq_nil in H; destruct H as [?%dump_set_nil H]).
  apply dump_set_nil in H. destruct p; simpl in *; subst. reflexivity.
Qed.

(** C8: an update with an empty partial, on a well-formed identifier, is
    not an error.  The post and the category handler both return the
    outcome "no update performed" and leave the world as it was: no
    document is written, no request reaches the store, and the clock is
    not read, so nothing is stamped.  That outcome differs from both forms
    of "not found", the exception raised and the exception object
    returned. *)
Theorem update_with_empty_partial_is_noop id pu cu w :
  Bson.is_valid id = true ->
  PostUpdate.model_dump_exclude_unset pu = ∅ ->
  CategoryUpdate.model_dump_exclude_unset cu = ∅ ->
  update_post id pu w = (no_update, w)
  /\ update_category id cu w = (no_update, w)
  /\ no_update <> not_found
  /\ no_update <> not_found_returned.
Proof.
  intros Hid ->%post_update_dump_empty ->%category_update_dump_empty.
  repeat split.
  - apply update_post_unset, Hid.
  - apply update_category_unset, Hid.
  - discriminate.
  - discriminate.
Qed.

(** C10: with an empty partial the update handlers answer without
    consulting the store.  The outcome is the same in any two worlds,
    whatever their databases hold, and no request is added to the log of
    store operations; so the answer tells nothing about whether a document
    with that identifier exists. *)
Theorem update_with_empty_partial_ignores_store id pu cu w1 w2 :
  Bson.is_valid id = true ->
  PostUpdate.model_dump_exclude_unset pu = ∅ ->
  CategoryUpdate.model_dump_exclude_unset cu = ∅ ->
  (update_post id pu w1).1 = (update_post id pu w2).1
  /\ (update_category id cu w1).1 = (update_category id cu w2).1
  /\ oplog (update_post id pu w1).2 = oplog w1
  /\ oplog (update_category id cu w1).2 = oplog w1.
Proof.
  intros Hid ->%post_update_dump_empty ->%category_update_dump_empty.
  rewrite !update_post_unset, !update_category_unset by exact Hid.
  repeat split; reflexivity.
Qed.

(** *** The monad and the driver *)

Lemma is_valid_ObjectId id :
  Bson.is_valid id = true -> exists h, Bson.ObjectId id = Some h.
Proof.
  unfold Bson.is_valid. destruct (String.eqb id ""); [discriminate|].
  destruct (Bson.ObjectId id) as [h|]; [eauto | discriminate].
Qed.

Lemma object_id_run id h w :
  Bson.ObjectId id = Some h -> object_id id w = (Returned (VObjectId h), w).
Proof. intros H. unfold object_id. rewrite H. reflexivity. Qed.

Lemma find_one_run coll f w d p :
  db w = Some d -> compile_filter (regex_engine d) f = Some p ->
  find_one coll f w
  = (Returned (head (List.filter p (collection d coll))), logged (OpFindOne coll f) w).
Proof.
  intros Hdb Hp. unfold find_one, server_filter. run. rewrite Hdb, Hp. reflexivity.
Qed.

Lemma update_one_run coll f upd w d p :
  db w = Some d -> compile_filter (regex_engine d) f = Some p ->
  update_one coll f upd w
  = let r := set_first p upd (collection d coll) in
    (Returned r.2,
     if r.2 then with_db (set_collection d coll r.1) (logged (OpUpdateOne coll f upd) w)
     else logged (OpUpdateOne coll f upd) w).
Proof.
  intros Hdb Hp. unfold update_one, server_filter. run. rewrite Hdb, Hp.
  destruct (set_first p upd (collection d coll)) as [l [|]]; reflexivity.
Qed.

Lemma compile_id_filter e v : compile_filter e [Field "_id" (Eq v)] = Some (id_test v).
Proof. reflexivity. Qed.

Lemma eq_match_oid x h : eq_match x (VObjectId h) = bool_decide (x = Some (VObjectId h)).
Proof.
  destruct x as [[]|]; simpl; try reflexivity;
    apply bool_decide_ext; split; congruence.
Qed.

Lemma id_test_oid h (e : dict) :
  id_test (VObjectId h) e = bool_decide (e !! "_id" = Some (VObjectId h)).
Proof. unfold id_test. rewrite eq_match_oid. apply andb_true_r. Qed.

Lemma stored_id_test coll h w d :
  db w = Some d ->
  stored coll h w = head (List.filter (id_test (VObjectId h)) (collection d coll)).
Proof.
  intros Hdb. unfold stored. rewrite Hdb. f_equal.
  apply List.filter_ext. intros e. symmetry. apply id_test_oid.
Qed.

(** *** [$set] on the first match *)

Lemma head_filter_none {A} (p : A -> bool) l : head (List.filter p l) = None -> List.filter p l = [].
Proof. destruct (List.filter p l); [reflexivity | discriminate]. Qed.

Lemma set_first_no_match p upd l :
  List.filter p l = [] -> set_first p upd l = (l, false).
Proof.
  induction l as [|e l IH]; simpl; [reflexivity|].
  destruct (p e); [discriminate|]. intros H. rewrite (IH H). reflexivity.
Qed.

Lemma set_first_match p upd l e :
  head (List.filter p l) = Some e ->
  p (upd ∪ e) = true ->
  (set_first p upd l).2 = true
  /\ head (List.filter p (set_first p upd l).1) = Some (upd ∪ e).
Proof.
  intros Hhead Hp. induction l as [|x l IH]; simpl in *; [discriminate|].
  destruct (p x) eqn:Hx.
  - simpl in Hhead. injection Hhead as ->. simpl. rewrite Hp. auto.
  - destruct (set_first p upd l) as [r m]. simpl in *. rewrite Hx. auto.
Qed.

(** *** The update handlers, run *)

Lemma update_post_run id payload w d h :
  Bson.is_valid id = true -> db w = Some d -> Bson.ObjectId id = Some h ->
  PostUpdate.model_dump_exclude_unset payload <> ∅ ->
  let fields := fields_set (PostUpdate.model_dump_exclude_unset payload) w in
  let q := [Field "_id" (Eq (VObjectId h))] in
  let r := set_first (id_test (VObjectId h)) fields (collection d "post") in
  let w1 := logged (OpUpdateOne "post" q fields)
              (after_stamps (PostUpdate.model_dump_exclude_unset payload) w) in
  update_post id payload w
  = if r.2
    then (Returned (RDoc (serialize_doc (local_utcoffset w)
                            (head (List.filter (id_test (VObjectId h)) r.1)))),
          logged (OpFindOne "post" q) (with_db (set_collection d "post" r.1) w1))
    else (not_found_returned, logged (OpFindOne "post" q) w1).
Proof.
  intros Hid Hdb Hh Hne. simpl.
  unfold update_post, fields_set, after_stamps, publish_due. rewrite Hid. simpl.
  destruct (decide _) as [|_]; [contradiction|].
  set (upd := PostUpdate.model_dump_exclude_unset payload).
  destruct (bool_decide _ && negb _);
    run; rewrite (object_id_run _ _ _ Hh);
    (erewrite update_one_run; [| simpl; exact Hdb | apply compile_id_filter]);
    simpl; destruct (set_first _ _ _) as [l [|]]; simpl;
    rewrite (object_id_run _ _ _ Hh).
  1,3: erewrite find_one_run; [| simpl; reflexivity | apply compile_id_filter];
    simpl; unfold collection at 1; simpl; rewrite lookup_insert_eq; reflexivity.
  all: erewrite find_one_run; [| simpl; exact Hdb | apply compile_id_filter];
    reflexivity.
Qed.

Lemma update_category_run id payload w d h :
  Bson.is_valid id = true -> db w = Some d -> Bson.ObjectId id = Some h ->
  CategoryUpdate.model_dump_exclude_unset payload <> ∅ ->
  let fields := <["updated_at" := current_instant w]>
                  (CategoryUpdate.model_dump_exclude_unset payload) in
  let q := [Field "_id" (Eq (VObjectId h))] in
  let r := set_first (id_test (VObjectId h)) fields (collection d "category") in
  let w1 := logged (OpUpdateOne "category" q fields) (ticked w) in
  update_category id payload w
  = if r.2
    then (Returned (RDoc (serialize_doc (local_utcoffset w)
                            (head (List.filter (id_test (VObjectId h)) r.1)))),
          logged (OpFindOne "category" q) (with_db (set_collection d "category" r.1) w1))
    else (not_found_returned, logged (OpFindOne "category" q) w1).
Proof.
  intros Hid Hdb Hh Hne. simpl.
  unfold update_category. rewrite Hid. simpl.
  destruct (decide _) as [|_]; [contradiction|].
  run; rewrite (object_id_run _ _ _ Hh);
    (erewrite update_one_run; [| simpl; exact Hdb | apply compile_id_filter]);
    simpl; destruct (set_first _ _ _) as [l [|]]; simpl;
    rewrite (object_id_run _ _ _ Hh).
  - erewrite find_one_run; [| simpl; reflexivity | apply compile_id_filter].
    simpl. unfold collection at 1. simpl. rewrite lookup_insert_eq. reflexivity.
  - erewrite find_one_run; [| simpl; exact Hdb | apply compile_id_filter].
    reflexivity.
Qed.

(** C1: what the update handlers do for a well-formed identifier that no
    stored document carries, when the partial is not empty.  They do not
    fail: the call returns, and the value returned is the exception object
    for "404 Not found".  The exception is never raised, as it is by
    [get_post_admin] on the same identifier. *)
Theorem update_of_unknown_id_returns_the_exception id pu cu w d h :
  Bson.is_valid id = true ->
  db w = Some d ->
  Bson.ObjectId id = Some h ->
  PostUpdate.model_dump_exclude_unset pu <> ∅ ->
  CategoryUpdate.model_dump_exclude_unset cu <> ∅ ->
  stored "post" h w = None ->
  stored "category" h w = None ->
  (update_post id pu w).1 = not_found_returned
  /\ (update_category id cu w).1 = not_found_returned
  /\ not_found_returned <> not_found
  /\ (get_post_admin id w).1 = not_found.
Proof.
  intros Hid Hdb Hh Hpu Hcu Hp Hc.
  rewrite (stored_id_test _ _ _ _ Hdb) in Hp.
  rewrite (stored_id_test _ _ _ _ Hdb) in Hc.
  apply head_filter_none in Hp, Hc.
  repeat split.
  - rewrite (update_post_run _ _ _ _ _ Hid Hdb Hh Hpu). simpl.
    rewrite (set_first_no_match _ _ _ Hp). reflexivity.
  - rewrite (update_category_run _ _ _ _ _ Hid Hdb Hh Hcu). simpl.
    rewrite (set_first_no_match _ _ _ Hc). reflexivity.
  - discriminate.
  - unfold get_post_admin. rewrite Hid. simpl. run.
    rewrite (object_id_run _ _ _ Hh).
    erewrite find_one_run; [| exact Hdb | apply compile_id_filter].
    rewrite Hp. reflexivity.
Qed.

(** *** Dumps of the input models *)

Lemma lookup_dump_app {A} k k' (f : A -> value) x l :
  (list_to_map (dump_set k' f x ++ l) : dict) !! k
  = if decide (k = k')
    then match x with
         | Some o => Some (dump_opt f o)
         | None => (list_to_map l : dict) !! k
         end
    else (list_to_map l : dict) !! k.
Proof.
  destruct x as [o|]; simpl.
  - destruct (decide (k = k')) as [->|Hne].
    + apply lookup_insert_eq.
    + by rewrite lookup_insert_ne.
  - by destruct (decide (k = k')).
Qed.

Lemma lookup_dump_last {A} k k' (f : A -> value) x :
  (list_to_map (dump_set k' f x) : dict) !! k
  = if decide (k = k') then dump_opt f <$> x else None.
Proof.
  rewrite <- (app_nil_r (dump_set k' f x)), lookup_dump_app. simpl.
  rewrite lookup_empty. destruct (decide _), x; reflexivity.
Qed.

Lemma post_update_dump_status p :
  PostUpdate.model_dump_exclude_unset p !! "status" = dump_opt VStr <$> PostUpdate.status p.
Proof.
  unfold PostUpdate.model_dump_exclude_unset.
  rewrite !lookup_dump_app, lookup_dump_last. simpl.
  destruct (PostUpdate.status p); reflexivity.
Qed.

Lemma post_update_dump_published_at p :
  PostUpdate.model_dump_exclude_unset p !! "published_at"
  = dump_opt VDatetime <$> PostUpdate.published_at p.
Proof.
  unfold PostUpdate.model_dump_exclude_unset.
  rewrite !lookup_dump_app, lookup_dump_last. reflexivity.
Qed.

Lemma post_update_dump_no_id p : PostUpdate.model_dump_exclude_unset p !! "_id" = None.
Proof.
  unfold PostUpdate.model_dump_exclude_unset.
  rewrite !lookup_dump_app, lookup_dump_last. reflexivity.
Qed.

Lemma post_dump_status p : Post.model_dump p !! "status" = Some (VStr (Post.status p)).
Proof. reflexivity. Qed.

Lemma post_dump_published_at p :
  Post.model_dump p !! "published_at" = Some (dump_opt VDatetime (Post.published_at p)).
Proof. reflexivity. Qed.

Lemma post_dump_no_id p : Post.model_dump p !! "_id" = None.
Proof. reflexivity. Qed.

(** The stamp test, read on the models. *)
Lemma publish_due_update p :
  publish_due (PostUpdate.model_dump_exclude_unset p)
  = bool_decide (PostUpdate.status p = Some (Some "published"))
    && match PostUpdate.published_at p with Some (Some _) => false | _ => true end.
Proof.
  unfold publish_due, dict_get.
  rewrite post_update_dump_status, post_update_dump_published_at.
  f_equal.
  - apply bool_decide_ext. destruct (PostUpdate.status p) as [[s|]|]; simpl;
      split; congruence.
  - destruct (PostUpdate.published_at p) as [[t|]|]; reflexivity.
Qed.

Lemma publish_due_create p :
  publish_due (Post.model_dump p)
  = bool_decide (Post.status p = "published")
    && match Post.published_at p with Some _ => false | None => true end.
Proof.
  unfold publish_due, dict_get.
  rewrite post_dump_status, post_dump_published_at. simpl.
  f_equal.
  - apply bool_decide_ext. split; congruence.
  - destruct (Post.published_at p); reflexivity.
Qed.

Lemma fields_set_no_id upd w : upd !! "_id" = None -> fields_set upd w !! "_id" = None.
Proof.
  intros H. unfold fields_set. destruct (publish_due upd);
    rewrite ?lookup_insert_ne by done; exact H.
Qed.

Lemma fields_set_published_at upd w :
  fields_set upd w !! "published_at"
  = if publish_due upd then Some (current_instant w) else upd !! "published_at".
Proof.
  unfold fields_set. destruct (publish_due upd).
  - rewrite lookup_insert_ne by done. apply lookup_insert_eq.
  - by rewrite lookup_insert_ne.
Qed.

Lemma head_filter_Some {A} (p : A -> bool) l e :
  head (List.filter p l) = Some e -> p e = true.
Proof.
  induction l as [|x l IH]; simpl; [discriminate|].
  destruct (p x) eqn:Hx; [|exact IH]. simpl. congruence.
Qed.

(** The document an update leaves in the store: the fields sent, over the
    fields it had. *)
Lemma update_post_stored id payload w d h existing :
  Bson.is_valid id = true -> db w = Some d -> Bson.ObjectId id = Some h ->
  PostUpdate.model_dump_exclude_unset payload <> ∅ ->
  stored "post" h w = Some existing ->
  let merged := fields_set (PostUpdate.model_dump_exclude_unset payload) w ∪ existing in
  stored "post" h (update_post id payload w).2 = Some merged
  /\ (update_post id payload w).1
     = Returned (RDoc (serialize_doc (local_utcoffset w) (Some merged))).
Proof.
  intros Hid Hdb Hh Hne Hst. simpl.
  rewrite (stored_id_test _ _ _ _ Hdb) in Hst.
  rewrite (update_post_run _ _ _ _ _ Hid Hdb Hh Hne). simpl.
  destruct (set_first_match (id_test (VObjectId h))
              (fields_set (PostUpdate.model_dump_exclude_unset payload) w)
              (collection d "post") existing Hst) as [Hm Hhd].
  { rewrite id_test_oid. apply bool_decide_eq_true.
    rewrite lookup_union_r by apply fields_set_no_id, post_update_dump_no_id.
    apply head_filter_Some in Hst. rewrite id_test_oid in Hst.
    by apply bool_decide_eq_true in Hst. }
  rewrite Hm. simpl. rewrite Hhd. split; [|reflexivity].
  erewrite stored_id_test by reflexivity.
  unfold collection at 1. simpl. rewrite lookup_insert_eq. exact Hhd.
Qed.

Lemma compile_slug_filter e s : compile_filter e [Field "slug" (Eq (VStr s))] = Some (slug_test s).
Proof. reflexivity. Qed.

Lemma existing_slug_run coll s w d :
  db w = Some d ->
  existing_slug coll s w
  = (Returned (head (List.filter (slug_test s) (collection d coll))),
     logged (OpFindOne coll [Field "slug" (Eq (VStr s))]) w).
Proof.
  intros Hdb. unfold existing_slug, db_is_set. run. rewrite Hdb.
  erewrite find_one_run; [| exact Hdb | apply compile_slug_filter]. reflexivity.
Qed.

Lemma filter_nil_existsb {A} (p q : A -> bool) l :
  (forall x, q x = p x) -> List.filter p l = [] -> existsb q l = false.
Proof.
  intros Hq. induction l as [|x l IH]; simpl; [reflexivity|].
  rewrite Hq. destruct (p x); [discriminate | exact IH].
Qed.

Lemma create_document_run coll data w d :
  db w = Some d -> data !! "_id" = None -> unused_id coll w ->
  create_document coll data w
  = (Returned (Bson.generated_id (next_id w)),
     with_db (set_collection d coll (collection d coll ++ [inserted data w]))
       (logged (OpInsertOne coll (inserted data w)) (generated (ticked (ticked w))))).
Proof.
  intros Hdb Hid Hfresh. unfold create_document, insert_one, db_is_set. run.
  rewrite Hdb. simpl.
  rewrite !lookup_insert_ne by done. rewrite Hid. simpl.
  unfold unused_id in Hfresh. rewrite (stored_id_test _ _ _ _ Hdb) in Hfresh.
  apply head_filter_none in Hfresh.
  rewrite Hdb. simpl.
  rewrite (filter_nil_existsb _ _ _ (fun e => eq_sym (id_test_oid _ e)) Hfresh).
  reflexivity.
Qed.

Lemma reread_keeps_db coll s w :
  db ((oid <- object_id s ;;
       doc <- find_one coll [Field "_id" (Eq oid)] ;;
       r <- serialize doc ;;
       ret (RDoc r)) w).2 = db w.
Proof.
  unfold object_id, find_one, server_filter, serialize.
  destruct (Bson.ObjectId s); run; [|reflexivity].
  destruct (db w) eqn:E; simpl; exact E.
Qed.

(** The store after a post was created: the collection with the new
    document at its end. *)
Lemma create_post_db payload w d :
  db w = Some d ->
  List.filter (slug_test (Post.slug payload)) (collection d "post") = [] ->
  unused_id "post" w ->
  db (create_post payload w).2
  = Some (set_collection d "post"
            (collection d "post" ++ [post_created (Post.model_dump payload) w])).
Proof.
  intros Hdb Hslug Hfresh. unfold create_post.
  pose proof (post_dump_no_id payload) as Hnoid.
  generalize dependent (Post.model_dump payload). intros data Hnoid.
  unfold bind at 1. rewrite (existing_slug_run _ _ _ _ Hdb), Hslug.
  cbn [doc_truthy head].
  unfold post_created. fold (publish_due data).
  destruct (publish_due data).
  - unfold bind at 1. unfold bind at 1. unfold now_utc, ret.
    unfold bind at 1.
    erewrite create_document_run;
      [| exact Hdb | by rewrite lookup_insert_ne | exact Hfresh].
    rewrite reread_keeps_db. reflexivity.
  - unfold bind at 1. unfold ret at 1.
    unfold bind at 1.
    erewrite create_document_run; [| exact Hdb | exact Hnoid | exact Hfresh].
    rewrite reread_keeps_db. reflexivity.
Qed.

(** *** The publish stamp *)

(** What an update leaves under [published_at], read on the partial. *)
Lemma update_post_published_at id payload w d h existing :
  Bson.is_valid id = true -> db w = Some d -> Bson.ObjectId id = Some h ->
  PostUpdate.model_dump_exclude_unset payload <> ∅ ->
  stored "post" h w = Some existing ->
  field "published_at" (stored "post" h (update_post id payload w).2)
  = match PostUpdate.published_at payload with
    | Some (Some t) => Some (VDatetime t)
    | Some None =>
        if bool_decide (PostUpdate.status payload = Some (Some "published"))
        then Some (current_instant w) else Some VNone
    | None =>
        if bool_decide (PostUpdate.status payload = Some (Some "published"))
        then Some (current_instant w) else existing !! "published_at"
    end.
Proof.
  intros Hid Hdb Hh Hne Hst.
  destruct (update_post_stored _ _ _ _ _ _ Hid Hdb Hh Hne Hst) as [-> _].
  simpl. rewrite lookup_union, fields_set_published_at, publish_due_update.
  rewrite post_update_dump_published_at.
  destruct (PostUpdate.published_at payload) as [[t|]|];
    destruct (bool_decide _); simpl;
    destruct (existing !! "published_at"); reflexivity.
Qed.

(** C2, amended: on an update with a partial that is not empty and an
    identifier a stored post carries, the publish stamp is decided on the
    incoming partial alone.  When the partial itself sets status to
    [published] and supplies no [published_at] value, the stored
    [published_at] becomes the current UTC instant.  When the partial does
    not set status to [published] and does not mention [published_at], the
    stored [published_at] stays as it was, whatever the stored status. *)
Theorem update_stamp_reads_only_the_partial id payload w d h existing :
  Bson.is_valid id = true ->
  db w = Some d ->
  Bson.ObjectId id = Some h ->
  PostUpdate.model_dump_exclude_unset payload <> ∅ ->
  stored "post" h w = Some existing ->
  let after := stored "post" h (update_post id payload w).2 in
  (PostUpdate.status payload = Some (Some "published") ->
   (forall t, PostUpdate.published_at payload <> Some (Some t)) ->
   field "published_at" after = Some (current_instant w))
  /\ (PostUpdate.status payload <> Some (Some "published") ->
      PostUpdate.published_at payload = None ->
      field "published_at" after = existing !! "published_at").
Proof.
  intros Hid Hdb Hh Hne Hst after. subst after.
  rewrite (update_post_published_at _ _ _ _ _ _ Hid Hdb Hh Hne Hst).
  split.
  - intros Hs Hp. rewrite bool_decide_eq_true_2 by exact Hs.
    destruct (PostUpdate.published_at payload) as [[t|]|]; [|reflexivity..].
    by destruct (Hp t).
  - intros Hs ->. by rewrite bool_decide_eq_false_2.
Qed.


Lemma post_created_published_at p w :
  post_created (Post.model_dump p) w !! "published_at"
  = Some match Post.published_at p with
         | Some t => VDatetime t
         | None => if bool_decide (Post.status p = "published")
                   then current_instant w else VNone
         end.
Proof.
  unfold post_created, inserted. rewrite publish_due_create.
  destruct (Post.published_at p) as [t|] eqn:Ht;
    destruct (bool_decide _); simpl;
    rewrite !lookup_insert_ne by done;
    rewrite ?lookup_insert_eq, ?post_dump_published_at, ?Ht; reflexivity.
Qed.

(** C3, amended: the automatic stamp follows the fields of the request in
    hand.  [create_post] stores the [published_at] the caller supplied, and
    otherwise the current instant when the status is [published] and
    [None] when it is not.  [update_post] stores the [published_at] the
    partial supplies; a partial that sets status to [published] without a
    [published_at] value gets the current instant, each time such a
    partial is sent; any other partial leaves the stored value alone, or
    sets it to [None] when it says so.  In neither handler does the stamp
    replace a value supplied in the same request. *)
Theorem publish_stamp_follows_the_request :
  (forall payload w d,
     db w = Some d ->
     List.filter (slug_test (Post.slug payload)) (collection d "post") = [] ->
     unused_id "post" w ->
     exists doc,
       db (create_post payload w).2
       = Some (set_collection d "post" (collection d "post" ++ [doc]))
       /\ doc !! "published_at"
          = Some match Post.published_at payload with
                 | Some t => VDatetime t
                 | None => if bool_decide (Post.status payload = "published")
                           then current_instant w else VNone
                 end)
  /\ (forall id payload w d h existing,
        Bson.is_valid id = true ->
        db w = Some d ->
        Bson.ObjectId id = Some h ->
        PostUpdate.model_dump_exclude_unset payload <> ∅ ->
        stored "post" h w = Some existing ->
        field "published_at" (stored "post" h (update_post id payload w).2)
        = match PostUpdate.published_at payload with
          | Some (Some t) => Some (VDatetime t)
          | Some None =>
              if bool_decide (PostUpdate.status payload = Some (Some "published"))
              then Some (current_instant w) else Some VNone
          | None =>
              if bool_decide (PostUpdate.status payload = Some (Some "published"))
              then Some (current_instant w) else existing !! "published_at"
          end).
Proof.
  split.
  - intros payload w d Hdb Hslug Hfresh. eexists. split.
    + apply create_post_db; assumption.
    + apply post_created_published_at.
  - apply update_post_published_at.
Qed.

(** *** Slug conflicts *)

Lemma slug_test_hit s (e : dict) : e !! "slug" = Some (VStr s) -> slug_test s e = true.
Proof.
  intros H. unfold slug_test. rewrite H. simpl. rewrite andb_true_r.
  by apply bool_decide_eq_true.
Qed.

Lemma slug_test_nonempty s (e : dict) : slug_test s e = true -> e <> ∅.
Proof.
  unfold slug_test. intros H ->. rewrite lookup_empty in H. discriminate H.
Qed.

Lemma head_filter_elem {A} (p : A -> bool) l x :
  x ∈ l -> p x = true -> exists y, head (List.filter p l) = Some y /\ p y = true.
Proof.
  intros Hin Hp. induction Hin as [x l|x y l Hin IH]; simpl.
  - rewrite Hp. eauto.
  - destruct (p y) eqn:Hy; simpl; eauto.
Qed.

Lemma slug_conflict_found coll s w d e :
  db w = Some d -> e ∈ collection d coll -> e !! "slug" = Some (VStr s) ->
  exists y,
    existing_slug coll s w
    = (Returned (Some y), logged (OpFindOne coll [Field "slug" (Eq (VStr s))]) w)
    /\ doc_truthy (Some y) = true.
Proof.
  intros Hdb Hin Hs.
  destruct (head_filter_elem (slug_test s) _ _ Hin (slug_test_hit _ _ Hs)) as (y & Hy & Hp).
  exists y. rewrite (existing_slug_run _ _ _ _ Hdb), Hy. split; [reflexivity|].
  simpl. apply negb_true_iff, bool_decide_eq_false, (slug_test_nonempty _ _ Hp).
Qed.

(** C5: creating a post or a category whose slug equals, character for
    character, the slug of a document already in the collection fails with
    the slug conflict (400, "... slug already exists").  The one request
    sent to the store is the lookup of the slug: the database is left as
    it was, nothing is inserted, no identifier is generated and the clock
    is not read. *)
Theorem create_with_a_taken_slug_is_refused :
  (forall payload w d e,
     db w = Some d ->
     e ∈ collection d "post" ->
     e !! "slug" = Some (VStr (Post.slug payload)) ->
     create_post payload w
     = (Raised (HTTPException 400 "Post slug already exists"),
        logged (OpFindOne "post" [Field "slug" (Eq (VStr (Post.slug payload)))]) w)
     /\ db (create_post payload w).2 = db w)
  /\ (forall payload w d e,
        db w = Some d ->
        e ∈ collection d "category" ->
        e !! "slug" = Some (VStr (Category.slug payload)) ->
        create_category payload w
        = (Raised (HTTPException 400 "Category slug already exists"),
           logged (OpFindOne "category" [Field "slug" (Eq (VStr (Category.slug payload)))]) w)
        /\ db (create_category payload w).2 = db w).
Proof.
  split; intros payload w d e Hdb Hin Hs;
    destruct (slug_conflict_found _ _ _ _ _ Hdb Hin Hs) as (y & Hy & Ht).
  - assert (create_post payload w
            = (Raised (HTTPException 400 "Post slug already exists"),
               logged (OpFindOne "post" [Field "slug" (Eq (VStr (Post.slug payload)))]) w))
      as ->; [|split; reflexivity].
    unfold create_post. unfold bind at 1. rewrite Hy, Ht. reflexivity.
  - assert (create_category payload w
            = (Raised (HTTPException 400 "Category slug already exists"),
               logged (OpFindOne "category"
                         [Field "slug" (Eq (VStr (Category.slug payload)))]) w))
      as ->; [|split; reflexivity].
    unfold create_category. unfold bind at 1. rewrite Hy, Ht. reflexivity.
Qed.

(** *** [serialize_doc] *)

Lemma convert_items_lookup tz (l : list (string * value)) (acc : dict) k :
  NoDup l.*1 ->
  foldl (convert_item tz) acc l !! k
  = match (list_to_map l : dict) !! k with
    | Some (VDatetime t) => Some (utc_iso tz t)
    | _ => acc !! k
    end.
Proof.
  revert acc. induction l as [|[k' v] l IH]; intros acc Hnd; simpl.
  - by rewrite lookup_empty.
  - apply NoDup_cons in Hnd as [Hk' Hnd]. rewrite (IH _ Hnd).
    destruct (decide (k = k')) as [->|Hne].
    + rewrite lookup_insert_eq.
      rewrite (not_elem_of_list_to_map_1 (M := gmap string) _ _ Hk').
      unfold convert_item. simpl. destruct v; try reflexivity.
      apply lookup_insert_eq.
    + rewrite lookup_insert_ne by done.
      destruct (list_to_map l !! k) as [[]|]; try reflexivity;
        unfold convert_item; simpl; destruct v; try reflexivity;
        by rewrite lookup_insert_ne.
Qed.

Lemma convert_items_fmap tz (d : dict) :
  foldl (convert_item tz) d (map_to_list d) = serialize_value tz <$> d.
Proof.
  apply map_eq. intros k.
  rewrite convert_items_lookup by apply NoDup_fst_map_to_list.
  rewrite list_to_map_to_list, lookup_fmap.
  destruct (d !! k) as [[]|]; reflexivity.
Qed.

Lemma serialize_doc_nonempty tz (d : dict) :
  d <> ∅ ->
  serialize_doc tz (Some d)
  = Some (serialize_value tz <$>
            match d !! "_id" with
            | Some v => <["id" := VStr (py_str v)]> (delete "_id" d)
            | None => d
            end).
Proof.
  intros Hne. unfold serialize_doc. destruct (decide (d = ∅)); [contradiction|].
  by rewrite convert_items_fmap.
Qed.

Lemma astimezone_utc_Some tz t u :
  astimezone_utc tz t = Some u -> u = moved_to_utc tz t.
Proof.
  unfold astimezone_utc. destruct (_ && _); [by intros [= <-] | discriminate].
Qed.

(** The loop that meets no datetime out of range does what the fold over
    the items does. *)
Lemma convert_datetimes_ok tz l kvs (h : heap) (acc : dict) :
  forallb (fun kv => movable tz kv.2) kvs = true ->
  convert_datetimes tz l kvs (<[l := acc]> h)
  = (Returned tt, <[l := foldl (convert_item tz) acc kvs]> h).
Proof.
  revert acc. induction kvs as [|[k v] kvs IH]; intros acc Hall; [reflexivity|].
  cbn [forallb] in Hall. apply andb_true_iff in Hall as [Hv Hall].
  cbn [convert_datetimes foldl]. unfold convert_item at 2. cbn [fst snd] in *.
  destruct v; try apply (IH _ Hall).
  cbn [movable] in Hv. destruct (astimezone_utc tz d) as [u|] eqn:Hu; [|discriminate].
  unfold setitem. rewrite alter_insert_eq, (IH _ Hall).
  unfold utc_iso. by rewrite (astimezone_utc_Some _ _ _ Hu).
Qed.

Lemma convert_datetimes_raises tz l kvs (h : heap) (acc : dict) :
  forallb (fun kv => movable tz kv.2) kvs = false ->
  exists acc',
    convert_datetimes tz l kvs (<[l := acc]> h)
    = (Raised OverflowError, <[l := acc']> h).
Proof.
  revert acc. induction kvs as [|[k v] kvs IH]; intros acc Hall; [discriminate|].
  cbn [forallb] in Hall. cbn [convert_datetimes fst snd] in *.
  destruct v; try apply (IH _ Hall).
  cbn [movable] in Hall. destruct (astimezone_utc tz d) as [u|]; [|by exists acc].
  unfold setitem. rewrite alter_insert_eq. apply (IH _ Hall).
Qed.

Lemma with_id_datetime (d : dict) k t :
  with_id d !! k = Some (VDatetime t)
  <-> k <> "_id" /\ (k <> "id" \/ d !! "_id" = None) /\ d !! k = Some (VDatetime t).
Proof.
  unfold with_id. destruct (d !! "_id") as [v|] eqn:Hid.
  - destruct (decide (k = "id")) as [->|Hk].
    + rewrite lookup_insert_eq. split; [discriminate|].
      intros (_ & [?|?] & _); [done | discriminate].
    + rewrite lookup_insert_ne by done. destruct (decide (k = "_id")) as [->|Hk'].
      * rewrite lookup_delete_eq. split; [discriminate | by intros [? _]].
      * rewrite lookup_delete_ne by done. split; [by auto | by intros (_ & _ & ?)].
  - split; [|by intros (_ & _ & ?)].
    intros H. split; [|by auto]. intros ->. rewrite Hid in H. discriminate H.
Qed.

(** Whether a document is [convertible] is read off its items. *)
Lemma convertible_check tz (d : dict) :
  convertible tz d
  <-> forallb (fun kv => movable tz kv.2) (map_to_list (with_id d)) = true.
Proof.
  rewrite forallb_forall. unfold convertible. split.
  - intros H [k v] Hin%list_elem_of_In%elem_of_map_to_list. cbn [snd].
    destruct v; try reflexivity.
    apply with_id_datetime in Hin as (Hk & Hk' & Hd).
    cbn [movable]. by destruct (H k _ Hk Hk' Hd) as [u ->].
  - intros H k t Hk Hk' Hd.
    assert (with_id d !! k = Some (VDatetime t)) as Hin by by apply with_id_datetime.
    apply elem_of_map_to_list, list_elem_of_In, H in Hin. cbn [snd movable] in Hin.
    destruct (astimezone_utc tz t); [eauto | discriminate].
Qed.

Lemma copy_with_id (h : heap) l (d : dict) :
  match d !! "_id" with
  | Some v => setitem l "id" (VStr (py_str v)) (popitem l "_id" (<[l := d]> h))
  | None => <[l := d]> h
  end = <[l := with_id d]> h.
Proof.
  unfold with_id. destruct (d !! "_id"); [|reflexivity].
  unfold setitem, popitem. by rewrite !alter_insert_eq.
Qed.

Lemma serialize_doc_obj_run tz (h : heap) l0 (d : dict) :
  h !! l0 = Some d -> d <> ∅ ->
  if forallb (fun kv => movable tz kv.2) (map_to_list (with_id d))
  then serialize_doc_obj tz (Some l0) h
       = (Returned (Some (fresh (dom h))),
          <[fresh (dom h) := default ∅ (serialize_doc tz (Some d))]> h)
  else exists junk,
         serialize_doc_obj tz (Some l0) h
         = (Raised OverflowError, <[fresh (dom h) := junk]> h).
Proof.
  intros Hl0 Hne. unfold serialize_doc_obj. rewrite Hl0.
  destruct (decide (d = ∅)); [contradiction|]. cbv zeta.
  rewrite copy_with_id. unfold items. rewrite lookup_insert_eq.
  cbn [default from_option id].
  destruct (forallb _ _) eqn:Hall.
  - rewrite (convert_datetimes_ok _ _ _ _ _ Hall), (serialize_doc_nonempty _ _ Hne).
    fold (with_id d). by rewrite convert_items_fmap.
  - destruct (convert_datetimes_raises tz (fresh (dom h)) _ h (with_id d) Hall)
      as [junk ->].
    by exists junk.
Qed.

Lemma append_assoc (a b c : string) : (a +:+ b) +:+ c = a +:+ (b +:+ c).
Proof. induction a as [|x a IH]; [reflexivity | exact (f_equal (String x) IH)]. Qed.

Lemma ends_with_append suffix a b : ends_with suffix b -> ends_with suffix (a +:+ b).
Proof. intros [p ->]. exists (a +:+ p). symmetry. apply append_assoc. Qed.

Lemma isoformat_of_utc (t : datetime) :
  tzinfo t = utc -> ends_with "+00:00" (isoformat t).
Proof.
  intros Hutc. unfold isoformat, isoformat_sep. rewrite Hutc.
  destruct (civil_of_days _) as [[y m] dd].
  remember (format_offset utc) as off eqn:Hoff.
  repeat apply ends_with_append. subst off. by exists "".
Qed.

Lemma moved_to_utc_aware tz t o :
  tzinfo t = Some o ->
  moved_to_utc tz t = {| wall := wall t - o; tzinfo := utc |}.
Proof. intros H. unfold moved_to_utc. by rewrite H. Qed.

Lemma instant_moved_to_utc tz t : instant tz (moved_to_utc tz t) = instant tz t.
Proof. unfold instant, moved_to_utc. simpl. lia. Qed.

(** C6, amended: [serialize_doc] on a document object of the heap.
    [None] comes back as [None], and the empty dictionary comes back
    itself, not as a copy.  Any other dictionary whose datetimes can all
    be moved to UTC within the years 1 to 9999 comes back as a reference
    [l] to a new object: the input object still holds what it held and no
    other object changed.  In the new object the key [_id] is gone and
    [id] holds the text of the identifier; every field whose value is a
    datetime holds the ISO-8601 text of that instant moved to UTC (it ends
    in +00:00, denotes the same instant, and for a value with offset [o]
    shows the wall clock shifted by [o]); every other field holds the
    value it had.  A dictionary with a datetime that cannot be moved so
    makes the call raise [OverflowError]; no object that was there has
    changed then either. *)
Theorem serialize_doc_contract tz (h : heap) l0 (d : dict) :
  h !! l0 = Some d ->
  serialize_doc_obj tz None h = (Returned None, h)
  /\ serialize_doc tz None = None
  /\ (d = ∅ -> serialize_doc_obj tz (Some l0) h = (Returned (Some l0), h))
  /\ (d <> ∅ -> convertible tz d ->
      exists l h' r,
        serialize_doc_obj tz (Some l0) h = (Returned (Some l), h')
        /\ h !! l = None
        /\ h' !! l0 = Some d
        /\ (forall l', l' <> l -> h' !! l' = h !! l')
        /\ h' !! l = Some r
        /\ serialize_doc tz (Some d) = Some r
        /\ r !! "_id" = None
        /\ (forall v, d !! "_id" = Some v -> r !! "id" = Some (VStr (py_str v)))
        /\ (forall hex, d !! "_id" = Some (VObjectId hex) -> r !! "id" = Some (VStr hex))
        /\ (forall k, k <> "_id" -> k <> "id" \/ d !! "_id" = None ->
              r !! k = serialize_value tz <$> d !! k)
        /\ (forall k t, k <> "_id" -> k <> "id" \/ d !! "_id" = None ->
              d !! k = Some (VDatetime t) ->
              exists u,
                astimezone_utc tz t = Some u
                /\ r !! k = Some (VStr (isoformat u))
                /\ ends_with "+00:00" (isoformat u)
                /\ instant tz u = instant tz t
                /\ (forall o, tzinfo t = Some o -> wall u = wall t - o))
        /\ (forall k v, k <> "_id" -> k <> "id" \/ d !! "_id" = None ->
              d !! k = Some v -> isinstance_datetime v = false -> r !! k = Some v))
  /\ (d <> ∅ -> ~ convertible tz d ->
      exists h',
        serialize_doc_obj tz (Some l0) h = (Raised OverflowError, h')
        /\ (forall l', h !! l' <> None -> h' !! l' = h !! l')).
Proof.
  intros Hl0. do 2 (split; [reflexivity|]).
  assert (Hfresh : h !! fresh (dom h) = None) by apply not_elem_of_dom, is_fresh.
  split; [|split].
  - intros ->. unfold serialize_doc_obj. rewrite Hl0. by rewrite decide_True.
  - intros Hne Hconv. pose proof (serialize_doc_obj_run tz h l0 d Hl0 Hne) as Hrun.
    rewrite (proj1 (convertible_check tz d) Hconv) in Hrun.
    pose proof (serialize_doc_nonempty tz d Hne) as Hr. fold (with_id d) in Hr.
    rewrite Hr in Hrun. cbn [default] in Hrun.
    assert (forall k, k <> "_id" -> k <> "id" \/ d !! "_id" = None ->
              (serialize_value tz <$> with_id d) !! k = serialize_value tz <$> d !! k)
      as Hother.
    { intros k Hk Hk'. rewrite lookup_fmap. unfold with_id.
      destruct (d !! "_id") as [v|] eqn:Hid; [|reflexivity].
      destruct Hk' as [Hk'|?]; [|done].
      by rewrite lookup_insert_ne, lookup_delete_ne. }
    exists (fresh (dom h)), (<[fresh (dom h) := serialize_value tz <$> with_id d]> h),
           (serialize_value tz <$> with_id d).
    split; [exact Hrun|]. split; [exact Hfresh|].
    split; [rewrite lookup_insert_ne; [done|]; intros E; rewrite E in Hfresh; congruence|].
    split; [intros l' Hl'; by rewrite lookup_insert_ne|].
    split; [apply lookup_insert_eq|]. split; [exact Hr|].
    assert (forall v, d !! "_id" = Some v ->
              (serialize_value tz <$> with_id d) !! "id" = Some (VStr (py_str v))) as Hid.
    { intros v Hv. unfold with_id. rewrite Hv. by rewrite lookup_fmap, lookup_insert_eq. }
    split; [|split; [exact Hid|split; [intros hex Hhex; apply (Hid _ Hhex)|]]].
    { rewrite lookup_fmap. unfold with_id. destruct (d !! "_id") as [v|] eqn:Hv.
      - by rewrite lookup_insert_ne, lookup_delete_eq.
      - by rewrite Hv. }
    split; [exact Hother|]. split.
    + intros k t Hk Hk' Ht. destruct (Hconv k t Hk Hk' Ht) as [u Hu].
      exists u. split; [exact Hu|].
      pose proof (astimezone_utc_Some _ _ _ Hu) as ->.
      split; [by rewrite (Hother k), Ht|].
      split; [by apply isoformat_of_utc|].
      split; [apply instant_moved_to_utc|].
      intros o Ho. by rewrite (moved_to_utc_aware _ _ _ Ho).
    + intros k v Hk Hk' Hv Hnd. rewrite (Hother k) by assumption. rewrite Hv.
      destruct v; try reflexivity. discriminate Hnd.
  - intros Hne Hconv. pose proof (serialize_doc_obj_run tz h l0 d Hl0 Hne) as Hrun.
    destruct (forallb _ _) eqn:Hall.
    { exfalso. by apply Hconv, convertible_check. }
    destruct Hrun as [junk ->]. eexists. split; [reflexivity|].
    intros l' Hl'. rewrite lookup_insert_ne; [done|]. by intros <-.
Qed.

(** *** Sorting and windows *)

Lemma insert_desc_perm k (x : dict) l : insert_desc k x l ≡ₚ x :: l.
Proof.
  induction l as [|e l IH]; simpl; [reflexivity|].
  destruct (key_lt _ _); [|reflexivity].
  rewrite IH. apply Permutation_swap.
Qed.

Lemma sort_desc_perm k l : sort_desc k l ≡ₚ l.
Proof.
  induction l as [|x l IH]; simpl; [reflexivity|].
  unfold sort_desc in *. simpl. rewrite insert_desc_perm. by rewrite IH.
Qed.

(** *** The order of a sorted cursor *)

Lemma ascii_compare_trans a b c :
  Ascii.compare a b = Lt -> Ascii.compare b c = Lt -> Ascii.compare a c = Lt.
Proof.
  unfold Ascii.compare. rewrite !N.compare_lt_iff. lia.
Qed.

Lemma string_compare_trans x : forall y z,
  String.compare x y = Lt -> String.compare y z = Lt -> String.compare x z = Lt.
Proof.
  induction x as [|a x IH]; intros [|b y] [|c z]; simpl; try discriminate; try done.
  destruct (Ascii.compare a b) eqn:Hab; try discriminate.
  - apply Ascii.compare_eq_iff in Hab as ->.
    destruct (Ascii.compare b c); try discriminate; [apply IH | done].
  - intros _. destruct (Ascii.compare b c) eqn:Hbc; try discriminate.
    + apply Ascii.compare_eq_iff in Hbc as <-. by rewrite Hab.
    + intros _. by rewrite (ascii_compare_trans _ _ _ Hab Hbc).
Qed.

Lemma string_ltb_trans x y z :
  String.ltb x y = true -> String.ltb y z = true -> String.ltb x z = true.
Proof.
  unfold String.ltb. intros H1 H2.
  destruct (String.compare x y) eqn:Hxy; try discriminate.
  destruct (String.compare y z) eqn:Hyz; try discriminate.
  by rewrite (string_compare_trans _ _ _ Hxy Hyz).
Qed.

Lemma string_ltb_irrefl x : String.ltb x x = false.
Proof.
  unfold String.ltb. pose proof (String.compare_antisym x x) as H.
  destruct (String.compare x x); simpl in H; try discriminate; reflexivity.
Qed.

Lemma key_lt_irrefl a : key_lt a a = false.
Proof.
  unfold key_lt. rewrite Z.ltb_irrefl.
  destruct a as [[| b | | | | |]|]; try reflexivity.
  - by destruct b.
  - apply Z.ltb_irrefl.
  - apply string_ltb_irrefl.
  - apply Z.ltb_irrefl.
  - apply string_ltb_irrefl.
Qed.

Lemma key_lt_trans a b c :
  key_lt a b = true -> key_lt b c = true -> key_lt a c = true.
Proof.
  unfold key_lt.
  destruct (Z.ltb_spec (type_rank a) (type_rank b)) as [Hab|Hab].
  - intros _. destruct (Z.ltb_spec (type_rank b) (type_rank c)) as [Hbc|Hbc].
    + intros _. destruct (Z.ltb_spec (type_rank a) (type_rank c)); [done | lia].
    + destruct (Z.ltb_spec (type_rank c) (type_rank b)); [discriminate|].
      intros _. destruct (Z.ltb_spec (type_rank a) (type_rank c)); [done | lia].
  - destruct (Z.ltb_spec (type_rank b) (type_rank a)); [discriminate|].
    destruct (Z.ltb_spec (type_rank b) (type_rank c)) as [Hbc|Hbc].
    + intros _ _. destruct (Z.ltb_spec (type_rank a) (type_rank c)); [done | lia].
    + destruct (Z.ltb_spec (type_rank c) (type_rank b)); [discriminate|].
      destruct (Z.ltb_spec (type_rank a) (type_rank c)); [lia|].
      destruct (Z.ltb_spec (type_rank c) (type_rank a)); [lia|].
      destruct a as [[| x | x | x | x | x | x]|]; try discriminate;
        destruct b as [[| y | y | y | y | y | y]|]; try discriminate;
        intros Ha; destruct c as [[| z | z | z | z | z | z]|]; try discriminate;
        intros Hb.
      * by destruct x, y, z.
      * apply Z.ltb_lt in Ha, Hb. apply Z.ltb_lt. lia.
      * by apply (string_ltb_trans _ _ _ Ha Hb).
      * apply Z.ltb_lt in Ha, Hb. apply Z.ltb_lt. lia.
      * by apply (string_ltb_trans _ _ _ Ha Hb).
Qed.

Lemma key_lt_asym a b : key_lt a b = true -> key_lt b a = false.
Proof.
  intros H. destruct (key_lt b a) eqn:H'; [|reflexivity].
  by rewrite <- (key_lt_irrefl a), (key_lt_trans _ _ _ H H').
Qed.

Lemma string_ltb_neg_trans x y z :
  String.ltb x y = false -> String.ltb y z = false -> String.ltb x z = false.
Proof.
  unfold String.ltb. intros H1 H2.
  destruct (String.compare x z) eqn:Hxz; try reflexivity.
  destruct (String.compare x y) eqn:Hxy; try discriminate.
  - apply String.compare_eq_iff in Hxy as ->. by rewrite Hxz in H2.
  - assert (String.compare y x = Lt) as Hyx.
    { rewrite String.compare_antisym, Hxy. reflexivity. }
    by rewrite (string_compare_trans _ _ _ Hyx Hxz) in H2.
Qed.

(** Keys that compare equal form classes: what is not below a key that
    is not below a third is not below the third. *)
Lemma key_lt_neg_trans a b c :
  key_lt a b = false -> key_lt b c = false -> key_lt a c = false.
Proof.
  unfold key_lt.
  destruct (Z.ltb_spec (type_rank a) (type_rank b)) as [Hab|Hab]; [discriminate|].
  destruct (Z.ltb_spec (type_rank b) (type_rank c)) as [Hbc|Hbc]; [discriminate|].
  destruct (Z.ltb_spec (type_rank a) (type_rank c)) as [Hac|Hac]; [lia|].
  destruct (Z.ltb_spec (type_rank c) (type_rank a)) as [Hca|Hca]; [reflexivity|].
  destruct (Z.ltb_spec (type_rank b) (type_rank a)) as [Hba|Hba]; [lia|].
  destruct (Z.ltb_spec (type_rank c) (type_rank b)) as [Hcb|Hcb]; [lia|].
  destruct a as [[| x | x | x | x | x | x]|], b as [[| y | y | y | y | y | y]|];
    cbn [type_rank] in *; try lia;
    destruct c as [[| z | z | z | z | z | z]|]; cbn [type_rank] in *; try lia;
    try reflexivity; intros Ha Hb.
  - by destruct x, y, z.
  - by apply (string_ltb_neg_trans _ _ _ Ha Hb).
  - by apply (string_ltb_neg_trans _ _ _ Ha Hb).
Qed.

Lemma insert_desc_elem k d l y : y ∈ insert_desc k d l -> y = d \/ y ∈ l.
Proof.
  induction l as [|x l IH]; simpl; intros Hy.
  - apply elem_of_cons in Hy as [->|Hy]; auto.
  - destruct (key_lt _ _).
    + apply elem_of_cons in Hy as [->|Hy]; [right; left|].
      destruct (IH Hy); [auto | right; by right].
    + apply elem_of_cons in Hy as [->|Hy]; auto.
Qed.

Lemma insert_desc_sorted k d l :
  StronglySorted (not_below k) l -> StronglySorted (not_below k) (insert_desc k d l).
Proof.
  induction 1 as [|e l Hl IH He]; simpl.
  - constructor; constructor.
  - destruct (key_lt _ _) eqn:Hlt.
    + constructor; [exact IH|].
      apply List.Forall_forall. intros y Hy%list_elem_of_In.
      destruct (insert_desc_elem _ _ _ _ Hy) as [->|Hy'].
      * by apply key_lt_asym.
      * rewrite List.Forall_forall in He. by apply He, list_elem_of_In.
    + constructor; [by constructor|].
      constructor; [exact Hlt|].
      eapply List.Forall_impl; [|exact He]. intros y Hy. unfold not_below in *.
      by apply (key_lt_neg_trans _ _ _ Hlt Hy).
Qed.

Lemma sort_desc_sorted k l : StronglySorted (not_below k) (sort_desc k l).
Proof.
  induction l as [|x l IH]; simpl; [constructor|]. by apply insert_desc_sorted.
Qed.

Lemma sorted_drop k n l :
  StronglySorted (not_below k) l -> StronglySorted (not_below k) (drop n l).
Proof.
  intros H. revert n. induction H as [|e l Hl IH He]; intros [|n]; simpl;
    [constructor | constructor | by constructor | apply IH].
Qed.

Lemma sorted_take k n l :
  StronglySorted (not_below k) l -> StronglySorted (not_below k) (take n l).
Proof.
  intros H. revert n. induction H as [|e l Hl IH He]; intros [|n]; simpl;
    [constructor | constructor | constructor |].
  constructor; [apply IH|].
  apply List.Forall_forall. intros y Hy%list_elem_of_In.
  rewrite List.Forall_forall in He. apply He, list_elem_of_In.
  by eapply subseteq_take.
Qed.

Lemma window_sorted k skip_n limit_n l :
  StronglySorted (not_below k) (window (Some k) skip_n limit_n l).
Proof.
  unfold window, apply_limit.
  destruct (limit_n =? 0); [|apply sorted_take]; apply sorted_drop, sort_desc_sorted.
Qed.

Lemma sorted_newest_first k l : StronglySorted (not_below k) l -> newest_first k l.
Proof.
  induction 1 as [|e l Hl IH He]; intros i j x y Hij Hi Hj.
  - by rewrite lookup_nil in Hi.
  - destruct j as [|j]; [lia|]. simpl in Hj. destruct i as [|i]; simpl in Hi.
    + injection Hi as ->. rewrite List.Forall_forall in He.
      apply He, list_elem_of_In. by eapply list_elem_of_lookup_2.
    + eapply (IH i j); [lia | done | done].
Qed.

Lemma newest_first_instants k l i j x y tx ty :
  newest_first k l -> (i < j)%nat -> l !! i = Some x -> l !! j = Some y ->
  x !! k = Some (VDatetime tx) -> y !! k = Some (VDatetime ty) ->
  bson_instant ty <= bson_instant tx.
Proof.
  intros H Hij Hi Hj Hx Hy. specialize (H i j x y Hij Hi Hj).
  rewrite Hx, Hy in H. unfold key_lt in H. simpl in H.
  by apply Z.ltb_ge in H.
Qed.

Lemma newest_first_sorted k l : newest_first k l -> StronglySorted (not_below k) l.
Proof.
  induction l as [|e l IH]; intros H; constructor.
  - apply IH. intros i j x y Hij Hi Hj. by apply (H (S i) (S j)); [lia | |].
  - apply List.Forall_forall. intros y Hy%list_elem_of_In.
    apply list_elem_of_lookup in Hy as [j Hj].
    by apply (H 0%nat (S j) e y); [lia | |].
Qed.

(** Where no two documents tie, there is one descending arrangement. *)
Lemma descending_unique k (l sorted : list dict) :
  (forall x y, x ∈ l -> y ∈ l -> not_below k x y -> not_below k y x -> x = y) ->
  sorted ≡ₚ l -> newest_first k sorted -> sorted = sort_desc k l.
Proof.
  intros Hties Hperm Hsorted.
  apply (StronglySorted_unique_strong (not_below k)).
  - intros x y Hx Hy. apply Hties; [by rewrite <- Hperm | by rewrite <- (sort_desc_perm k)].
  - by apply newest_first_sorted.
  - apply sort_desc_sorted.
  - by rewrite sort_desc_perm.
Qed.

Lemma window_elem sort_k skip_n limit_n (l : list dict) x :
  x ∈ window sort_k skip_n limit_n l -> x ∈ l.
Proof.
  unfold window, apply_limit. intros H.
  assert (x ∈ match sort_k with Some k => sort_desc k l | None => l end) as H'.
  { destruct (limit_n =? 0).
    - eapply subseteq_drop, H.
    - eapply subseteq_drop, subseteq_take, H. }
  destruct sort_k as [k|]; [|exact H'].
  by rewrite sort_desc_perm in H'.
Qed.

Lemma window_positive k skip_n limit_n (l : list dict) :
  0 < limit_n ->
  window (Some k) skip_n limit_n l
  = take (Z.to_nat limit_n) (drop (Z.to_nat skip_n) (sort_desc k l)).
Proof.
  intros H. unfold window, apply_limit.
  destruct (Z.eqb_spec limit_n 0); [lia|].
  by rewrite Z.abs_eq by lia.
Qed.

(** *** The public handlers, run *)

Lemma public_filter_compiles e category tag :
  exists pred,
    compile_filter e (public_filter category tag) = Some pred
    /\ forall x, pred x = true -> eq_match (x !! "status") (VStr "published") = true.
Proof.
  unfold public_filter.
  destruct (str_truthy category), (str_truthy tag); simpl;
    eexists; (split; [reflexivity|]); simpl; intros x Hx;
    by apply andb_true_iff in Hx as [Hx _].
Qed.

Lemma list_posts_public_run w d page page_size category tag pred :
  db w = Some d ->
  compile_filter (regex_engine d) (public_filter category tag) = Some pred ->
  let p := default 1 page in
  let ps := default 10 page_size in
  let q := public_filter category tag in
  let docs := List.filter pred (collection d "post") in
  list_posts_public page page_size category tag w
  = if (p - 1) * ps <? 0 then (Raised ValueError, w)
    else if negb (fits_int64 ((p - 1) * ps) && fits_int64 ps) then (Raised OverflowError, w)
    else (Returned (RListing
                      (map (fun x => serialize_doc (local_utcoffset w) (Some x))
                         (window (Some "published_at") ((p - 1) * ps) ps docs))
                      p ps (Z.of_nat (length docs))),
          logged (OpCount "post" q) (logged (OpFind "post" q) w)).
Proof.
  intros Hdb Hpred. simpl. unfold list_posts_public.
  generalize dependent (public_filter category tag). intros q Hpred.
  unfold find, sort, skip, limit, iterate, count_documents, server_filter. run.
  rewrite Hdb. simpl.
  destruct (_ <? 0); [reflexivity|]. simpl. rewrite Hdb. simpl.
  destruct (fits_int64 _ && fits_int64 _); [|reflexivity]. simpl.
  rewrite Hpred. simpl. rewrite Hdb. simpl. rewrite Hpred. reflexivity.
Qed.

Lemma eq_match_text x s : eq_match x (VStr s) = true <-> reads_as s x.
Proof.
  unfold reads_as. split.
  - destruct x as [[]|]; simpl; rewrite ?bool_decide_eq_true;
      try discriminate; try (intros [=]; fail); eauto.
    intros [= ->]. by left.
  - intros [->|(l & -> & Hl)]; simpl; by apply bool_decide_eq_true.
Qed.

Lemma reads_as_text s s' : reads_as s (Some (VStr s')) <-> s' = s.
Proof.
  unfold reads_as. split.
  - intros [[= ->]|(l & ? & _)]; [done | discriminate].
  - intros ->. by left.
Qed.

Lemma published_text x s : reads_as "published" x -> x = Some (VStr s) -> s = "published".
Proof. intros H ->. by apply reads_as_text in H. Qed.

Lemma published_not_draft x : reads_as "published" x -> x <> Some (VStr "draft").
Proof. intros H ->. apply reads_as_text in H. discriminate H. Qed.

Lemma get_post_by_slug_run slug w d :
  db w = Some d ->
  get_post_by_slug slug w
  = (match head (List.filter (public_slug_test slug) (collection d "post")) with
     | Some x => Returned (RDoc (serialize_doc (local_utcoffset w) (Some x)))
     | None => not_found
     end,
     logged (OpFindOne "post" [Field "slug" (Eq (VStr slug));
                               Field "status" (Eq (VStr "published"))]) w).
Proof.
  intros Hdb. unfold get_post_by_slug. unfold bind at 1.
  erewrite find_one_run; [| exact Hdb | reflexivity].
  fold (public_slug_test slug).
  destruct (head _) as [x|] eqn:Hx; [|reflexivity].
  apply head_filter_Some in Hx.
  assert (x <> ∅) as Hne.
  { intros ->. discriminate Hx. }
  simpl. rewrite bool_decide_eq_false_2 by exact Hne. reflexivity.
Qed.

Lemma head_filter_in {A} (p : A -> bool) l x :
  head (List.filter p l) = Some x -> x ∈ l /\ p x = true.
Proof.
  intros H. assert (x ∈ List.filter p l) as Hin.
  { destruct (List.filter p l); [discriminate|]. injection H as ->. left. }
  apply list_elem_of_In, filter_In in Hin as [Hin Hp].
  split; [by apply list_elem_of_In | exact Hp].
Qed.

Lemma filter_nil_iff {A} (p : A -> bool) l :
  (forall x, x ∈ l -> p x = false) -> List.filter p l = [].
Proof.
  induction l as [|x l IH]; intros H; simpl; [reflexivity|].
  rewrite (H x) by left. apply IH. intros y Hy. apply H. by right.
Qed.

Lemma collection_set d coll l : collection (set_collection d coll l) coll = l.
Proof. unfold collection, set_collection. simpl. by rewrite lookup_insert_eq. Qed.

(** C9: the public handlers reach only published posts.  When every
    stored post that goes by a slug has a status other than [published],
    [get_post_by_slug] fails with 404 "Not found", exactly as it does when
    the collection is empty.  A document it does return is a stored post
    whose status reads as [published].  Every item of a public listing,
    whatever the page, the category and the tag asked for, is the
    serialization of a stored post whose status reads as [published]; so
    none has the stored status [draft]. *)
Theorem public_reads_only_published w d :
  db w = Some d ->
  (forall slug,
     (forall x, x ∈ collection d "post" -> reads_as slug (x !! "slug") ->
                ~ reads_as "published" (x !! "status")) ->
     (get_post_by_slug slug w).1 = not_found
     /\ (get_post_by_slug slug w).1
        = (get_post_by_slug slug (with_db (set_collection d "post" []) w)).1)
  /\ (forall slug r,
        (get_post_by_slug slug w).1 = Returned r ->
        exists x,
          x ∈ collection d "post"
          /\ reads_as "published" (x !! "status")
          /\ (forall s, x !! "status" = Some (VStr s) -> s = "published")
          /\ x !! "status" <> Some (VStr "draft")
          /\ r = RDoc (serialize_doc (local_utcoffset w) (Some x)))
  /\ (forall page page_size category tag items p ps total,
        (list_posts_public page page_size category tag w).1
        = Returned (RListing items p ps total) ->
        forall item, item ∈ items ->
        exists x,
          x ∈ collection d "post"
          /\ reads_as "published" (x !! "status")
          /\ (forall s, x !! "status" = Some (VStr s) -> s = "published")
          /\ x !! "status" <> Some (VStr "draft")
          /\ item = serialize_doc (local_utcoffset w) (Some x)).
Proof.
  intros Hdb. split; [|split].
  - intros slug Hnone.
    rewrite (get_post_by_slug_run _ _ _ Hdb).
    erewrite (get_post_by_slug_run _ (with_db _ w)) by reflexivity.
    rewrite collection_set. simpl.
    rewrite filter_nil_iff; [split; reflexivity|].
    intros x Hx. unfold public_slug_test.
    destruct (eq_match (x !! "slug") _) eqn:Hs; [|reflexivity].
    destruct (eq_match (x !! "status") _) eqn:Hst; [|reflexivity].
    apply eq_match_text in Hs, Hst. by destruct (Hnone x Hx Hs).
  - intros slug r. rewrite (get_post_by_slug_run _ _ _ Hdb). simpl.
    destruct (head _) as [x|] eqn:Hx; [|discriminate].
    intros [= <-]. apply head_filter_in in Hx as [Hin Hp].
    unfold public_slug_test in Hp.
    apply andb_true_iff in Hp as [_ [Hp _]%andb_true_iff].
    apply eq_match_text in Hp.
    exists x. repeat split; eauto using published_not_draft, published_text.
  - intros page page_size category tag items p ps total.
    destruct (public_filter_compiles (regex_engine d) category tag) as (pred & Hc & Hpub).
    rewrite (list_posts_public_run _ _ _ _ _ _ _ Hdb Hc). simpl.
    destruct (_ <? 0); [discriminate|].
    destruct (negb _); [discriminate|]. simpl.
    intros [= <- _ _ _] item Hitem.
    apply list_elem_of_fmap in Hitem as (x & -> & Hx).
    apply window_elem, list_elem_of_In, filter_In in Hx as [Hin Hp].
    apply Hpub, eq_match_text in Hp.
    exists x. split; [by apply list_elem_of_In|].
    repeat split; eauto using published_not_draft, published_text.
Qed.

(** C7: the public listing.  A request that names no page and no page
    size is the request for page 1 with page size 10.  For positive [page]
    and [page_size] (any size the driver can send, which is any below
    2^63: the handler sets no upper limit) the items are cut from the
    matching posts in a descending order of [published_at], whichever way
    the store breaks the ties: without the first [(page - 1) * page_size]
    and up to [page_size] of them; [total] is the number of all posts
    matching the same filter.  Whenever a listing is returned, its total
    is that number, so it is the same on every page. *)
Theorem public_listing_pagination w d category tag :
  db w = Some d ->
  list_posts_public None None category tag w
  = list_posts_public (Some 1) (Some 10) category tag w
  /\ exists docs,
       select d "post" (public_filter category tag) = Some docs
       /\ (forall page page_size,
             let p := default 1 page in
             let ps := default 10 page_size in
             1 <= p -> 1 <= ps -> (p - 1) * ps < 2 ^ 63 -> ps < 2 ^ 63 ->
             exists sorted,
               sorted ≡ₚ docs
               /\ newest_first "published_at" sorted
               /\ (list_posts_public page page_size category tag w).1
                  = Returned (RListing
                                (map (fun x => serialize_doc (local_utcoffset w) (Some x))
                                   (take (Z.to_nat ps)
                                      (drop (Z.to_nat ((p - 1) * ps)) sorted)))
                                p ps (Z.of_nat (length docs))))
       /\ (forall page page_size items p ps total,
             (list_posts_public page page_size category tag w).1
             = Returned (RListing items p ps total) ->
             p = default 1 page /\ ps = default 10 page_size
             /\ total = Z.of_nat (length docs)).
Proof.
  intros Hdb. split; [reflexivity|].
  destruct (public_filter_compiles (regex_engine d) category tag) as (pred & Hc & _).
  exists (List.filter pred (collection d "post")). split; [|split].
  - unfold select. by rewrite Hc.
  - intros page page_size p ps Hp Hps Hskip Hlim.
    exists (sort_desc "published_at" (List.filter pred (collection d "post"))).
    split; [apply sort_desc_perm|].
    split; [apply sorted_newest_first, sort_desc_sorted|].
    rewrite (list_posts_public_run _ _ _ _ _ _ _ Hdb Hc). fold p ps.
    destruct (Z.ltb_spec ((p - 1) * ps) 0); [nia|].
    assert (fits_int64 ((p - 1) * ps) && fits_int64 ps = true) as ->.
    { unfold fits_int64. apply andb_true_iff; split; apply andb_true_iff; split;
        first [apply Z.leb_le | apply Z.ltb_lt]; lia. }
    simpl. by rewrite window_positive by lia.
  - intros page page_size items p ps total.
    rewrite (list_posts_public_run _ _ _ _ _ _ _ Hdb Hc). simpl.
    destruct (_ <? 0); [discriminate|].
    destruct (negb _); [discriminate|]. simpl.
    intros [= _ <- <- <-]. auto.
Qed.

(** *** Searching for a text *)

Lemma parse_literal q : literal_text q = true -> parse_atoms q = Some (literals q).
Proof.
  induction q as [|c q IH]; simpl; [reflexivity|].
  intros [Hc Hq]%andb_true_iff. apply negb_true_iff in Hc.
  rewrite (IH Hq). 
  destruct (Ascii.eqb_spec c "\") as [->|_]; [discriminate Hc|].
  destruct (Ascii.eqb_spec c ".") as [->|_]; [discriminate Hc|].
  rewrite Hc. reflexivity.
Qed.

Lemma match_here_prefix q s :
  match_here true (literals q) s = true <-> exists b, lower s = lower q +:+ b.
Proof.
  revert s. induction q as [|c q IH]; intros s; simpl.
  - split; [eauto | reflexivity].
  - destruct s as [|c' s]; simpl.
    + split; [discriminate | intros [b [=]]].
    + rewrite andb_true_iff, IH. split.
      * intros [Hc [b Hb]]. apply Ascii.eqb_eq in Hc. exists b. by rewrite Hc, Hb.
      * intros [b [= Hc Hb]]. split; [apply Ascii.eqb_eq; congruence | eauto].
Qed.

Lemma match_anywhere_occurs q s :
  match_anywhere true (literals q) s = true <-> occurs_ci q s.
Proof.
  unfold occurs_ci. induction s as [|c s IH]; simpl.
  - rewrite orb_false_r, match_here_prefix. split.
    + intros [b Hb]. by exists "", b.
    + intros (a & b & Hab). destruct a; [eauto | discriminate Hab].
  - rewrite orb_true_iff, match_here_prefix, IH. split.
    + intros [[b Hb]|(a & b & Hab)].
      * by exists "", b.
      * exists (String (to_lower c) a), b. simpl. by rewrite Hab.
    + intros ([|x a] & b & Hab).
      * left. eauto.
      * right. injection Hab as _ Hab. eauto.
Qed.

Lemma regex_compile_literal e q :
  literal_text q = true -> ascii_text q = true ->
  regex_compile e q "i" = Some (search (e q "i") true (literals q)).
Proof.
  intros H Ha. unfold regex_compile. by rewrite (parse_literal _ H), Ha.
Qed.

Lemma search_occurs server q s :
  ascii_text s = true ->
  search server true (literals q) s = true <-> occurs_ci q s.
Proof. intros Ha. unfold search. rewrite Ha. apply match_anywhere_occurs. Qed.

Lemma regex_match_contains server q x :
  ascii_field x ->
  regex_match (search server true (literals q)) x = true <-> field_contains q x.
Proof.
  destruct x as [[]|]; simpl; try (split; [discriminate | contradiction]).
  - apply search_occurs.
  - intros Ha. rewrite List.Forall_forall in Ha.
    rewrite existsb_exists, Exists_exists. split.
    + intros (s & Hin & Hs). exists s. split; [by apply list_elem_of_In|].
      by apply (search_occurs server), Hs; apply Ha.
    + intros (s & Hin & Hs). exists s. split; [by apply list_elem_of_In|].
      apply search_occurs; [apply Ha; by apply list_elem_of_In | exact Hs].
Qed.

Lemma list_posts_admin_run w d status q pred :
  db w = Some d ->
  compile_filter (regex_engine d) (admin_filter status q) = Some pred ->
  list_posts_admin status q w
  = (Returned (RDocs (map (fun x => serialize_doc (local_utcoffset w) (Some x))
                        (sort_desc "created_at"
                           (List.filter pred (collection d "post"))))),
     logged (OpFind "post" (admin_filter status q)) w).
Proof.
  intros Hdb Hpred. unfold list_posts_admin.
  generalize dependent (admin_filter status q). intros f Hpred.
  unfold find, sort, iterate, server_filter. run.
  rewrite Hdb. simpl. rewrite Hdb. simpl. rewrite Hpred. reflexivity.
Qed.

Lemma admin_filter_literal e status q :
  q <> "" -> literal_text q = true -> ascii_text q = true ->
  exists pred,
    compile_filter e (admin_filter status (Some q)) = Some pred
    /\ (forall x,
          pred x = true ->
          str_truthy status = true -> reads_as (default "" status) (x !! "status"))
    /\ forall x,
         ascii_texts x ->
         pred x = true
         <-> (str_truthy status = true -> reads_as (default "" status) (x !! "status"))
             /\ search_hit q x.
Proof.
  intros Hq Hlit Hascii. unfold admin_filter.
  assert (str_truthy (Some q) = true) as ->.
  { simpl. apply negb_true_iff. by apply String.eqb_neq. }
  unfold compile_filter, compile_clause, compile_fields, compile_field, compile_cond.
  destruct (str_truthy status); simpl;
    rewrite (regex_compile_literal _ _ Hlit Hascii); simpl.
  - eexists. split; [reflexivity|]. split.
    + intros x Hx _. simpl in Hx. apply andb_true_iff in Hx as [Hx _].
      by apply eq_match_text.
    + intros x (Ht & He & Hc). simpl.
      rewrite !andb_true_r, orb_false_r, andb_true_iff, !orb_true_iff.
      rewrite eq_match_text, !regex_match_contains by assumption.
      unfold search_hit. tauto.
  - eexists. split; [reflexivity|]. split; [discriminate|].
    intros x (Ht & He & Hc). simpl.
    rewrite !andb_true_r, orb_false_r, !orb_true_iff.
    rewrite !regex_match_contains by assumption. unfold search_hit. split; [|tauto].
    intros H. split; [discriminate | exact H].
Qed.

Lemma public_filter_no_search category tag : Forall no_search (public_filter category tag).
Proof.
  unfold public_filter. destruct (str_truthy category), (str_truthy tag);
    repeat constructor.
Qed.

(** C4, amended: a search text is handed to the store as a regular
    expression.  For an ASCII text that is not empty and holds none of the
    characters with a meaning in a regular expression, the administrative
    listing selects, among the posts whose title, excerpt and content are
    ASCII text, exactly those in which the text occurs, the case of the
    letters aside, in the title, the excerpt or the content (and which
    have the status asked for, when one is); every post it selects is a
    stored post with that status.  What it returns are the selected
    posts in a descending order of [created_at], whichever way the store
    breaks the ties.  The query of the public listing never holds a text
    search. *)
Theorem admin_search_on_plain_text w d status q :
  db w = Some d ->
  q <> "" ->
  literal_text q = true ->
  ascii_text q = true ->
  (exists docs,
     select d "post" (admin_filter status (Some q)) = Some docs
     /\ (forall x,
           ascii_texts x ->
           x ∈ docs
           <-> x ∈ collection d "post"
               /\ (str_truthy status = true -> reads_as (default "" status) (x !! "status"))
               /\ search_hit q x)
     /\ (forall x,
           x ∈ docs ->
           x ∈ collection d "post"
           /\ (str_truthy status = true -> reads_as (default "" status) (x !! "status")))
     /\ exists sorted,
          sorted ≡ₚ docs
          /\ newest_first "created_at" sorted
          /\ (list_posts_admin status (Some q) w).1
             = Returned (RDocs (map (fun x => serialize_doc (local_utcoffset w) (Some x))
                                  sorted)))
  /\ (forall category tag, Forall no_search (public_filter category tag)).
Proof.
  intros Hdb Hq Hlit Hascii. split; [|apply public_filter_no_search].
  destruct (admin_filter_literal (regex_engine d) status q Hq Hlit Hascii)
    as (pred & Hc & Hstatus & Hpred).
  exists (List.filter pred (collection d "post")). split; [|split; [|split]].
  - unfold select. by rewrite Hc.
  - intros x Hx. rewrite list_elem_of_In, filter_In, <- list_elem_of_In, (Hpred x Hx).
    tauto.
  - intros x [Hin Hp]%list_elem_of_In%filter_In. split; [by apply list_elem_of_In|].
    by apply Hstatus.
  - exists (sort_desc "created_at" (List.filter pred (collection d "post"))).
    split; [apply sort_desc_perm|].
    split; [apply sorted_newest_first, sort_desc_sorted|].
    by rewrite (list_posts_admin_run _ _ _ _ _ Hdb Hc).
Qed.

End Facts.

(** * The statements on concrete worlds *)

Module Runs.
Import PyData Mongo Runtime Driver Schemas Main Spec Facts Scenario.

#[local] Open Scope Z_scope.

(** An equation between closed terms, settled by evaluating its left-hand
    side. *)
Ltac evaluated :=
  lazymatch goal with
  | |- ?a = ?b => vm_cast_no_check (@eq_refl _ b)
  end.

(** Discharge the first premise of [H], an equation, by evaluation. *)
Ltac evaluate_premise H :=
  cbv zeta in H;
  lazymatch type of H with
  | ?P -> _ =>
      let HP := fresh in
      assert (HP : P) by evaluated;
      specialize (H HP); clear HP
  end.

Lemma database_of_posts ps cs : collection (database_of ps cs) "post" = ps.
Proof. unfold collection, database_of. simpl. by rewrite lookup_insert_eq. Qed.

Lemma database_of_categories ps cs : collection (database_of ps cs) "category" = cs.
Proof.
  unfold collection, database_of. simpl.
  rewrite lookup_insert_ne by done. by rewrite lookup_singleton_eq.
Qed.

Lemma retitle_sets_a_field : PostUpdate.model_dump_exclude_unset retitle <> ∅.
Proof. intros H%post_update_dump_empty. discriminate H. Qed.

Lemma republish_sets_a_field : PostUpdate.model_dump_exclude_unset republish <> ∅.
Proof. intros H%post_update_dump_empty. discriminate H. Qed.

Lemma redate_sets_a_field : PostUpdate.model_dump_exclude_unset redate <> ∅.
Proof. intros H%post_update_dump_empty. discriminate H. Qed.

Lemma rename_sets_a_field : CategoryUpdate.model_dump_exclude_unset rename <> ∅.
Proof. intros H%category_update_dump_empty. discriminate H. Qed.

Lemma id1_is_valid : Bson.is_valid id1 = true.
Proof. evaluated. Qed.

Lemma id1_parses : Bson.ObjectId id1 = Some id1.
Proof. evaluated. Qed.

Lemma dated_world_db : db dated_world = Some (database_of [dated_stored] []).
Proof. evaluated. Qed.

Lemma dated_world_stored : stored "post" id1 dated_world = Some dated_stored.
Proof. evaluated. Qed.

Lemma tech_world_db : db tech_world = Some (database_of [] [tech_stored]).
Proof. evaluated. Qed.

Lemma unstamped_world_db : db unstamped_world = Some (database_of [unstamped_post] []).
Proof. reflexivity. Qed.

Lemma unstamped_world_stored : stored "post" id1 unstamped_world = Some unstamped_post.
Proof. evaluated. Qed.

(** C1 at work: in a store with no documents, updating the title of post
    [id1] and the name of category [id1] both return the exception
    object. *)
Lemma update_of_unknown_id_run :
  (update_post id1 retitle empty_world).1 = not_found_returned
  /\ (update_category id1 rename empty_world).1 = not_found_returned
  /\ not_found_returned <> not_found
  /\ (get_post_admin id1 empty_world).1 = not_found.
Proof.
  apply (update_of_unknown_id_returns_the_exception id1 retitle rename empty_world
           (database_of [] []) id1 id1_is_valid eq_refl id1_parses
           retitle_sets_a_field rename_sets_a_field); evaluated.
Defined.

(** C2, as stated, fails: a stored post that is published and has no
    [published_at] gets none from an update that only changes its title,
    although the merged fields have status [published] and no
    [published_at]. *)
Lemma stamp_on_merge_fails : ~ stamp_decided_on_merge id1 retitle unstamped_world.
Proof.
  intros H. specialize (H id1 unstamped_post).
  do 4 evaluate_premise H.
  assert (field "published_at"
            (stored "post" id1 (update_post id1 retitle unstamped_world).2) = None)
    as E by evaluated.
  rewrite E in H. discriminate H.
Qed.

(** C2, amended, at work on the unstamped post: setting the status to
    [published] stamps it, changing the title does not. *)
Lemma update_stamp_run :
  field "published_at" (stored "post" id1 (update_post id1 republish unstamped_world).2)
  = Some (current_instant unstamped_world)
  /\ field "published_at" (stored "post" id1 (update_post id1 retitle unstamped_world).2)
     = unstamped_post !! "published_at".
Proof.
  split.
  - apply (update_stamp_reads_only_the_partial id1 republish unstamped_world
             (database_of [unstamped_post] []) id1 unstamped_post
             id1_is_valid eq_refl id1_parses republish_sets_a_field
             unstamped_world_stored); [reflexivity | discriminate].
  - apply (update_stamp_reads_only_the_partial id1 retitle unstamped_world
             (database_of [unstamped_post] []) id1 unstamped_post
             id1_is_valid eq_refl id1_parses retitle_sets_a_field
             unstamped_world_stored); [discriminate | reflexivity].
Defined.

(** C3, as stated, fails: a post created as published with a publish time
    of the caller's choice loses that time when an update sets its status
    to [published] again. *)
Lemma restamp_on_republish : ~ stamped_only_the_first_time id1 republish dated_world.
Proof.
  intros H. specialize (H id1 dated_stored chosen_time).
  do 5 evaluate_premise H.
  assert (field "published_at"
            (stored "post" id1 (update_post id1 republish dated_world).2)
          = Some (current_instant dated_world)) as E by evaluated.
  rewrite E in H. discriminate H.
Qed.

(** C3, amended, at work: the chosen publish time survives an update that
    sets a new title, and an update that supplies a publish time stores
    it. *)
Lemma publish_stamp_run :
  field "published_at" (stored "post" id1 (update_post id1 retitle dated_world).2)
  = Some (VDatetime chosen_time)
  /\ field "published_at" (stored "post" id1 (update_post id1 redate unstamped_world).2)
     = Some (VDatetime chosen_time).
Proof.
  split.
  - rewrite (proj2 publish_stamp_follows_the_request _ _ _ _ _ _
               id1_is_valid dated_world_db id1_parses retitle_sets_a_field
               dated_world_stored).
    evaluated.
  - rewrite (proj2 publish_stamp_follows_the_request _ _ _ _ _ _
               id1_is_valid unstamped_world_db id1_parses redate_sets_a_field
               unstamped_world_stored).
    evaluated.
Defined.

Lemma abc_post_texts : ascii_texts abc_post.
Proof.
  assert (abc_post !! "title" = Some (VStr "abc")) as Ht by evaluated.
  assert (abc_post !! "excerpt" = Some VNone) as He by evaluated.
  assert (abc_post !! "content" = Some (VStr "x")) as Hc by evaluated.
  unfold ascii_texts. rewrite Ht, He, Hc. by repeat split.
Qed.

(** C4, as stated, fails: the search text [.] selects the post titled
    [abc], in which no full stop occurs. *)
Lemma search_for_a_dot_finds_abc : ~ search_is_substring_match "." abc_world.
Proof.
  intros H. destruct (H _ eq_refl) as (docs & Hsel & Hiff).
  assert (select (database_of [abc_post] []) "post" (admin_filter None (Some "."))
          = Some [abc_post]) as Hrun by evaluated.
  rewrite Hrun in Hsel. injection Hsel as <-.
  destruct (proj1 (Hiff abc_post)) as [_ Hhit]; [left|].
  destruct abc_post_texts as (Ht & He & Hc).
  destruct Hhit as [Hhit|[Hhit|Hhit]];
    apply (regex_match_contains None) in Hhit; try assumption;
    lazymatch type of Hhit with
    | ?lhs = true => assert (lhs = false) as E by evaluated; rewrite E in Hhit
    end;
    discriminate Hhit.
Qed.

(** C4, amended, at work: the text [AB] selects the post titled [abc]. *)
Lemma admin_search_run :
  (list_posts_admin None (Some "AB") abc_world).1
  = Returned (RDocs [serialize_doc (local_utcoffset abc_world) (Some abc_post)]).
Proof.
  destruct (admin_search_on_plain_text abc_world (database_of [abc_post] []) None "AB")
    as [(docs & Hsel & _ & _ & sorted & Hperm & _ & Hrun) _];
    [reflexivity | discriminate | reflexivity | reflexivity |].
  assert (select (database_of [abc_post] []) "post" (admin_filter None (Some "AB"))
          = Some [abc_post]) as Hdocs by evaluated.
  rewrite Hdocs in Hsel. injection Hsel as <-.
  apply Permutation_singleton_r in Hperm as ->. exact Hrun.
Defined.

(** C5 at work: a second post with the slug [a] and a second category
    with the slug [tech] are refused, and the databases stay as they
    were. *)
Lemma create_with_a_taken_slug_run :
  (create_post dated_post dated_world
   = (Raised (HTTPException 400 "Post slug already exists"),
      logged (OpFindOne "post" [Field "slug" (Eq (VStr (Post.slug dated_post)))])
        dated_world)
   /\ db (create_post dated_post dated_world).2 = db dated_world)
  /\ (create_category tech tech_world
      = (Raised (HTTPException 400 "Category slug already exists"),
         logged (OpFindOne "category" [Field "slug" (Eq (VStr (Category.slug tech)))])
           tech_world)
      /\ db (create_category tech tech_world).2 = db tech_world).
Proof.
  split.
  - apply (proj1 create_with_a_taken_slug_is_refused dated_post dated_world
             (database_of [dated_stored] []) dated_stored dated_world_db).
    + rewrite database_of_posts. left.
    + evaluated.
  - apply (proj2 create_with_a_taken_slug_is_refused tech tech_world
             (database_of [] [tech_stored]) tech_stored tech_world_db).
    + rewrite database_of_categories. left.
    + evaluated.
Defined.

(** C6, as stated, fails: the empty document comes back itself, not as
    a copy, and the document dated half an hour before the first instant
    of UTC does not come back at all. *)
Lemma serializer_does_not_always_copy :
  ~ returns_a_copy (fun _ => 0) empty_object 1%positive
  /\ ~ returns_a_copy (fun _ => 0) early_object 1%positive.
Proof.
  split; intros (l & h' & Hrun & Hne).
  - assert ((serialize_doc_obj (fun _ => 0) (Some 1%positive) empty_object).1
            = Returned (Some 1%positive)) as E by evaluated.
    rewrite Hrun in E. cbn [fst] in E. congruence.
  - assert ((serialize_doc_obj (fun _ => 0) (Some 1%positive) early_object).1
            = Raised OverflowError) as E by evaluated.
    rewrite Hrun in E. discriminate E.
Qed.

(** C6, amended, at work: the one object of the heap is serialized into
    a second object; the first still holds the post, the second holds the
    identifier as text and the creation time as 16:00 UTC. *)
Lemma serialize_doc_run :
  exists l h' r,
    serialize_doc_obj (fun _ => 0) (Some 1%positive) one_object = (Returned (Some l), h')
    /\ h' !! 1%positive = Some zoned_post
    /\ h' !! l = Some r
    /\ one_object !! l = None
    /\ r !! "_id" = None
    /\ r !! "id" = Some (VStr id1)
    /\ r !! "title" = Some (VStr "A")
    /\ r !! "created_at" = Some (VStr "1997-05-23T16:00:00+00:00").
Proof.
  assert (one_object !! 1%positive = Some zoned_post) as Hobj by evaluated.
  assert (zoned_post !! "title" = Some (VStr "A")) as Ht by evaluated.
  assert (zoned_post <> ∅) as Hne.
  { intros E. rewrite E, lookup_empty in Ht. discriminate Ht. }
  assert (convertible (fun _ => 0) zoned_post) as Hconv.
  { apply convertible_check. evaluated. }
  destruct (serialize_doc_contract (fun _ => 0) one_object 1%positive zoned_post Hobj)
    as (_ & _ & _ & Hok & _).
  destruct (Hok Hne Hconv)
    as (l & h' & r & Hrun & Hnew & Hin & _ & Hout & _ & Hnoid & _ & Hid & _
        & Htime & Hother).
  exists l, h', r. repeat split; try assumption.
  - apply Hid. evaluated.
  - apply (Hother "title"); [discriminate | left; discriminate | exact Ht | reflexivity].
  - destruct (Htime "created_at" {| wall := clock 0 + 3600000000;
                                    tzinfo := Some 3600000000 |})
      as (u & Hu & -> & _); [discriminate | left; discriminate | evaluated |].
    assert (astimezone_utc (fun _ => 0)
              {| wall := clock 0 + 3600000000; tzinfo := Some 3600000000 |}
            = Some {| wall := clock 0; tzinfo := utc |}) as E by evaluated.
    rewrite E in Hu. injection Hu as <-. evaluated.
Defined.

Lemma published_ties x y :
  x ∈ [second_post; first_post; third_post] ->
  y ∈ [second_post; first_post; third_post] ->
  not_below "published_at" x y -> not_below "published_at" y x -> x = y.
Proof.
  assert (key_lt (sort_key (first_post !! "published_at"))
            (sort_key (second_post !! "published_at")) = true) as H12 by evaluated.
  assert (key_lt (sort_key (first_post !! "published_at"))
            (sort_key (third_post !! "published_at")) = true) as H13 by evaluated.
  assert (key_lt (sort_key (second_post !! "published_at"))
            (sort_key (third_post !! "published_at")) = true) as H23 by evaluated.
  unfold not_below. intros Hx Hy.
  repeat (apply elem_of_cons in Hx as [->|Hx]); [| | | by apply elem_of_nil in Hx];
    (repeat (apply elem_of_cons in Hy as [->|Hy]); [| | | by apply elem_of_nil in Hy]);
    intros; congruence.
Qed.

(** The three published posts of the blog have one descending
    arrangement. *)
Lemma published_order sorted :
  sorted ≡ₚ [second_post; first_post; third_post] ->
  newest_first "published_at" sorted ->
  sorted = [third_post; second_post; first_post].
Proof.
  intros Hperm Hsorted.
  rewrite (descending_unique "published_at" _ _ published_ties Hperm Hsorted).
  evaluated.
Qed.

(** C7 at work: with page size 2 the three published posts, which lie a
    millisecond apart, come on two pages, newest first, and both pages
    report the total 3. *)
Lemma public_listing_run :
  (list_posts_public (Some 1) (Some 2) None None blog_world).1
  = Returned (RListing [serialize_doc (fun _ => 0) (Some third_post);
                        serialize_doc (fun _ => 0) (Some second_post)] 1 2 3)
  /\ (list_posts_public (Some 2) (Some 2) None None blog_world).1
     = Returned (RListing [serialize_doc (fun _ => 0) (Some first_post)] 2 2 3).
Proof.
  destruct (public_listing_pagination blog_world
              (database_of [second_post; draft_post; first_post; third_post] [])
              None None eq_refl) as (_ & docs & Hsel & Hpage & _).
  assert (select (database_of [second_post; draft_post; first_post; third_post] [])
            "post" (public_filter None None)
          = Some [second_post; first_post; third_post]) as Hdocs by evaluated.
  rewrite Hdocs in Hsel. injection Hsel as <-.
  split.
  - destruct (Hpage (Some 1) (Some 2)) as (sorted & Hperm & Hsorted & ->);
      [simpl; lia ..|].
    rewrite (published_order _ Hperm Hsorted). reflexivity.
  - destruct (Hpage (Some 2) (Some 2)) as (sorted & Hperm & Hsorted & ->);
      [simpl; lia ..|].
    rewrite (published_order _ Hperm Hsorted). reflexivity.
Defined.

(** C8 at work: an empty partial for the stored post [id1]. *)
Lemma update_with_empty_partial_run :
  update_post id1 PostUpdate.unset unstamped_world = (no_update, unstamped_world)
  /\ update_category id1 CategoryUpdate.unset unstamped_world = (no_update, unstamped_world)
  /\ no_update <> not_found
  /\ no_update <> not_found_returned.
Proof.
  apply (update_with_empty_partial_is_noop id1 PostUpdate.unset CategoryUpdate.unset
           unstamped_world id1_is_valid); reflexivity.
Defined.

(** C9 at work: the draft is not found by its slug, which is the answer
    of an empty collection. *)
Lemma public_reads_run :
  (get_post_by_slug "fourth" blog_world).1 = not_found
  /\ (get_post_by_slug "fourth" blog_world).1
     = (get_post_by_slug "fourth"
          (with_db (set_collection
                      (database_of [second_post; draft_post; first_post; third_post] [])
                      "post" []) blog_world)).1.
Proof.
  apply (proj1 (public_reads_only_published blog_world
                  (database_of [second_post; draft_post; first_post; third_post] [])
                  eq_refl) "fourth").
  intros x Hx Hslug Hstatus. rewrite database_of_posts in Hx.
  assert (forall id slug status n s, reads_as s (post_at id slug status n !! "slug") -> slug = s)
    as Hs.
  { intros id slug status n s Hr.
    assert (post_at id slug status n !! "slug" = Some (VStr slug)) as E by reflexivity.
    rewrite E in Hr. by apply reads_as_text in Hr. }
  assert (forall id slug status n s,
            reads_as s (post_at id slug status n !! "status") -> status = s) as Hst.
  { intros id slug status n s Hr.
    assert (post_at id slug status n !! "status" = Some (VStr status)) as E by reflexivity.
    rewrite E in Hr. by apply reads_as_text in Hr. }
  repeat (apply elem_of_cons in Hx as [->|Hx]);
    [| | | | by apply elem_of_nil in Hx].
  - apply Hs in Hslug. discriminate Hslug.
  - apply Hst in Hstatus. discriminate Hstatus.
  - apply Hs in Hslug. discriminate Hslug.
  - apply Hs in Hslug. discriminate Hslug.
Defined.

(** C10 at work: the same answer whether the post [id1] is stored or
    not. *)
Lemma update_with_empty_partial_blind_run :
  (update_post id1 PostUpdate.unset unstamped_world).1
  = (update_post id1 PostUpdate.unset empty_world).1
  /\ (update_category id1 CategoryUpdate.unset unstamped_world).1
     = (update_category id1 CategoryUpdate.unset empty_world).1
  /\ oplog (update_post id1 PostUpdate.unset unstamped_world).2 = oplog unstamped_world
  /\ oplog (update_category id1 CategoryUpdate.unset unstamped_world).2
     = oplog unstamped_world.
Proof.
  apply (update_with_empty_partial_ignores_store id1 PostUpdate.unset
           CategoryUpdate.unset unstamped_world empty_world id1_is_valid); reflexivity.
Defined.

End Runs.

(** ** The handlers beyond the updates: lookups, deletions, creation,
    listings and the feed *)

Module Handlers.
Import PyData Mongo Runtime Driver Schemas Main Spec Facts.

#[local] Open Scope Z_scope.

(** *** Identifiers as text *)

Lemma hex_digit_lower k : 0 <= k < 16 -> lower_hex (hex_digit k) = true.
Proof.
  intros Hk. replace k with (Z.of_nat (Z.to_nat k)) by lia.
  assert (Z.to_nat k < 16)%nat as Hn by lia. revert Hn. generalize (Z.to_nat k).
  intros n Hn. do 16 (destruct n as [|n]; [reflexivity|]). lia.
Qed.

Lemma lower_hex_facts c :
  lower_hex c = true ->
  Bson.is_hex c = true /\ Bson.is_space c = false /\ to_lower c = c.
Proof.
  destruct c as [[] [] [] [] [] [] [] []]; intros H; try discriminate H;
    repeat split; reflexivity.
Qed.

Lemma all_chars_app p a b : all_chars p (a +:+ b) = all_chars p a && all_chars p b.
Proof.
  induction a as [|c a IH]; simpl; [reflexivity|]. rewrite IH. apply andb_assoc.
Qed.

Lemma length_append a b : String.length (a +:+ b) = (String.length a + String.length b)%nat.
Proof. induction a as [|c a IH]; simpl; [reflexivity | by rewrite IH]. Qed.

Lemma fixed_hex_chars w n : all_chars lower_hex (fixed_hex w n) = true.
Proof.
  revert n. induction w as [|w IH]; intros n; simpl; [reflexivity|].
  rewrite all_chars_app, IH. simpl. rewrite hex_digit_lower; [reflexivity|].
  apply Z.mod_pos_bound. lia.
Qed.

Lemma fixed_hex_length w n : String.length (fixed_hex w n) = w.
Proof.
  revert n. induction w as [|w IH]; intros n; simpl; [reflexivity|].
  rewrite length_append, IH. simpl. lia.
Qed.

Lemma fromhex_lower_hex k s :
  String.length s = (2 * k)%nat -> all_chars lower_hex s = true ->
  Bson.fromhex s = Some s.
Proof.
  revert s. induction k as [|k IH]; intros s Hlen Hall.
  - destruct s; [reflexivity | discriminate Hlen].
  - destruct s as [|c1 [|c2 s]]; simpl in Hlen; [lia | lia |].
    simpl in Hall. apply andb_true_iff in Hall as [H1 [H2 Hall]%andb_true_iff].
    destruct (lower_hex_facts _ H1) as (Hh1 & Hs1 & Hl1).
    destruct (lower_hex_facts _ H2) as (Hh2 & _ & Hl2).
    simpl. rewrite Hs1, Hh1, Hh2, Hl1, Hl2. simpl.
    rewrite IH; [reflexivity | lia | exact Hall].
Qed.

Lemma generated_id_parses n : Bson.ObjectId (Bson.generated_id n) = Some (Bson.generated_id n).
Proof.
  unfold Bson.ObjectId, Bson.generated_id. rewrite fixed_hex_length, Nat.eqb_refl.
  apply (fromhex_lower_hex 12); [apply fixed_hex_length | apply fixed_hex_chars].
Qed.

Lemma generated_id_valid n : Bson.is_valid (Bson.generated_id n) = true.
Proof.
  unfold Bson.is_valid. rewrite generated_id_parses.
  destruct (String.eqb_spec (Bson.generated_id n) "") as [E|_]; [|reflexivity].
  pose proof (fixed_hex_length 24 n) as Hl. unfold Bson.generated_id in E.
  rewrite E in Hl. discriminate Hl.
Qed.

(** Letter case *)

Lemma to_lower_facts c :
  Bson.is_hex (to_lower c) = Bson.is_hex c
  /\ Bson.is_space (to_lower c) = Bson.is_space c
  /\ to_lower (to_lower c) = to_lower c.
Proof. destruct c as [[] [] [] [] [] [] [] []]; repeat split; reflexivity. Qed.

Lemma lower_length s : String.length (lower s) = String.length s.
Proof. induction s as [|c s IH]; simpl; [reflexivity | by rewrite IH]. Qed.

Lemma fromhex_lower_bounded n s :
  (String.length s <= n)%nat -> Bson.fromhex (lower s) = Bson.fromhex s.
Proof.
  revert s. induction n as [|n IH]; intros s Hlen.
  - destruct s; [reflexivity | simpl in Hlen; lia].
  - destruct s as [|c1 s]; [reflexivity|]. simpl in Hlen.
    destruct (to_lower_facts c1) as (Hh1 & Hs1 & Hl1).
    simpl. rewrite Hs1. destruct (Bson.is_space c1).
    + apply IH. lia.
    + destruct s as [|c2 s]; [reflexivity|]. simpl in Hlen.
      destruct (to_lower_facts c2) as (Hh2 & _ & Hl2).
      simpl. rewrite Hh1, Hh2, Hl1, Hl2.
      destruct (Bson.is_hex c1 && Bson.is_hex c2); [|reflexivity].
      rewrite IH by lia. reflexivity.
Qed.

Lemma ObjectId_lower id : Bson.ObjectId (lower id) = Bson.ObjectId id.
Proof.
  unfold Bson.ObjectId. rewrite lower_length.
  destruct (Nat.eqb _ 24); [|reflexivity].
  by apply (fromhex_lower_bounded (String.length id)).
Qed.

Lemma is_valid_lower id : Bson.is_valid (lower id) = Bson.is_valid id.
Proof.
  unfold Bson.is_valid. rewrite ObjectId_lower.
  destruct id; reflexivity.
Qed.

(** X2: the handlers that take an identifier read it without
    regard to letter case: the lower-cased text gives the same outcome and
    the same world as the text itself. *)
Theorem identifier_case_does_not_matter id pu cu w :
  get_post_admin (lower id) w = get_post_admin id w
  /\ update_post (lower id) pu w = update_post id pu w
  /\ update_category (lower id) cu w = update_category id cu w
  /\ delete_post (lower id) w = delete_post id w
  /\ delete_category (lower id) w = delete_category id w.
Proof.
  unfold get_post_admin, update_post, update_category, delete_post, delete_category,
    object_id.
  rewrite is_valid_lower, ObjectId_lower. repeat split; reflexivity.
Qed.

(** *** Identifiers *)

Lemma wrong_length_is_invalid id : String.length id <> 24%nat -> Bson.is_valid id = false.
Proof.
  intros H. unfold Bson.is_valid, Bson.ObjectId.
  destruct (String.eqb id ""); [reflexivity|].
  destruct (Nat.eqb_spec (String.length id) 24); [contradiction | reflexivity].
Qed.

(** X1: an identifier whose text is not 24 characters long is
    refused with 400 "Invalid id" by every handler that takes one, before
    the store, the clock or the payload is looked at: the world is left
    as it was. *)
Theorem malformed_id_is_refused_before_the_store id pu cu w :
  String.length id <> 24%nat ->
  get_post_admin id w = (Raised (HTTPException 400 "Invalid id"), w)
  /\ update_post id pu w = (Raised (HTTPException 400 "Invalid id"), w)
  /\ update_category id cu w = (Raised (HTTPException 400 "Invalid id"), w)
  /\ delete_post id w = (Raised (HTTPException 400 "Invalid id"), w)
  /\ delete_category id w = (Raised (HTTPException 400 "Invalid id"), w).
Proof.
  intros H%wrong_length_is_invalid.
  unfold get_post_admin, update_post, update_category, delete_post, delete_category.
  rewrite H. repeat split; reflexivity.
Qed.

(** *** Reading one post *)

Lemma get_post_admin_run id w d h :
  Bson.is_valid id = true -> db w = Some d -> Bson.ObjectId id = Some h ->
  get_post_admin id w
  = (match stored "post" h w with
     | Some x => Returned (RDoc (serialize_doc (local_utcoffset w) (Some x)))
     | None => not_found
     end,
     logged (OpFindOne "post" [Field "_id" (Eq (VObjectId h))]) w).
Proof.
  intros Hid Hdb Hh. unfold get_post_admin. rewrite Hid. simpl.
  run. rewrite (object_id_run _ _ _ Hh).
  erewrite find_one_run; [| exact Hdb | apply compile_id_filter].
  rewrite (stored_id_test _ _ _ _ Hdb).
  destruct (head _) as [x|] eqn:Hx; [|reflexivity].
  apply head_filter_Some in Hx.
  assert (x <> ∅) as Hne.
  { intros ->. discriminate Hx. }
  simpl. rewrite bool_decide_eq_false_2 by exact Hne. reflexivity.
Qed.

(** *** Removing a document *)

Lemma remove_first_no_match p l : List.filter p l = [] -> remove_first p l = (l, 0).
Proof.
  induction l as [|e l IH]; simpl; [reflexivity|].
  destruct (p e); [discriminate|]. intros H. by rewrite (IH H).
Qed.

Lemma remove_first_match p l e :
  head (List.filter p l) = Some e ->
  exists l1 l2,
    l = l1 ++ e :: l2 /\ List.filter p l1 = []
    /\ remove_first p l = (l1 ++ l2, 1).
Proof.
  induction l as [|x l IH]; simpl; [discriminate|].
  destruct (p x) eqn:Hx; simpl.
  - intros [= ->]. by exists [], l.
  - intros H. destruct (IH H) as (l1 & l2 & -> & Hl1 & Hr).
    exists (x :: l1), l2. simpl. rewrite Hx, Hr. auto.
Qed.

Lemma delete_one_run coll f w d p :
  db w = Some d -> compile_filter (regex_engine d) f = Some p ->
  delete_one coll f w
  = let r := remove_first p (collection d coll) in
    (Returned r.2, if r.2 =? 0 then w else with_db (set_collection d coll r.1) w).
Proof.
  intros Hdb Hp. unfold delete_one, server_filter. run. rewrite Hdb, Hp.
  destruct (remove_first p (collection d coll)) as [l n]. simpl.
  destruct (n =? 0); reflexivity.
Qed.

Lemma delete_post_run id w d h :
  Bson.is_valid id = true -> db w = Some d -> Bson.ObjectId id = Some h ->
  delete_post id w
  = let r := remove_first (id_test (VObjectId h)) (collection d "post") in
    (Returned {| deleted := r.2 =? 1 |},
     if r.2 =? 0 then w else with_db (set_collection d "post" r.1) w).
Proof.
  intros Hid Hdb Hh. unfold delete_post. rewrite Hid. simpl.
  unfold bind at 1. rewrite (object_id_run _ _ _ Hh).
  unfold bind at 1. erewrite delete_one_run; [| exact Hdb | apply compile_id_filter].
  simpl. reflexivity.
Qed.

Lemma delete_category_run id w d h :
  Bson.is_valid id = true -> db w = Some d -> Bson.ObjectId id = Some h ->
  delete_category id w
  = let r := remove_first (id_test (VObjectId h)) (collection d "category") in
    (Returned {| deleted := r.2 =? 1 |},
     if r.2 =? 0 then w else with_db (set_collection d "category" r.1) w).
Proof.
  intros Hid Hdb Hh. unfold delete_category. rewrite Hid. simpl.
  unfold bind at 1. rewrite (object_id_run _ _ _ Hh).
  unfold bind at 1. erewrite delete_one_run; [| exact Hdb | apply compile_id_filter].
  simpl. reflexivity.
Qed.

Lemma collection_set_other d coll coll' l :
  coll <> coll' -> collection (set_collection d coll l) coll' = collection d coll'.
Proof. intros H. unfold collection, set_collection. simpl. by rewrite lookup_insert_ne. Qed.

Lemma filter_id_none h (l : list dict) :
  (forall x, x ∈ l -> x !! "_id" <> Some (VObjectId h)) ->
  List.filter (id_test (VObjectId h)) l = [].
Proof.
  intros H. apply filter_nil_iff. intros x Hx. rewrite id_test_oid.
  apply bool_decide_eq_false. by apply H.
Qed.

Lemma unique_id_elsewhere (l1 l2 : list dict) e x :
  ids_unique (l1 ++ e :: l2) -> x ∈ l1 ++ l2 -> x !! "_id" <> e !! "_id".
Proof.
  unfold ids_unique. rewrite fmap_app, fmap_cons.
  intros Hnd Hx Heq. apply NoDup_app in Hnd as (_ & Hdisj & [Hnot _]%NoDup_cons).
  apply elem_of_app in Hx as [Hx|Hx].
  - apply (Hdisj (x !! "_id")); [by apply list_elem_of_fmap_2|].
    rewrite Heq. left.
  - apply Hnot. rewrite <- Heq. by apply list_elem_of_fmap_2.
Qed.

(** X4: deleting under a well-formed identifier that no document
    of the collection has returns [{"deleted": false}] and changes
    nothing; it is not an error. *)
Theorem delete_of_unknown_id_changes_nothing id w d h :
  Bson.is_valid id = true ->
  db w = Some d ->
  Bson.ObjectId id = Some h ->
  (stored "post" h w = None -> delete_post id w = (Returned {| deleted := false |}, w))
  /\ (stored "category" h w = None ->
      delete_category id w = (Returned {| deleted := false |}, w)).
Proof.
  intros Hid Hdb Hh. split; intros Hst;
    rewrite (stored_id_test _ _ _ _ Hdb) in Hst; apply head_filter_none in Hst.
  - rewrite (delete_post_run _ _ _ _ Hid Hdb Hh), (remove_first_no_match _ _ Hst).
    reflexivity.
  - rewrite (delete_category_run _ _ _ _ Hid Hdb Hh), (remove_first_no_match _ _ Hst).
    reflexivity.
Qed.

(** X5: in a collection whose identifiers are unique, deleting a
    stored post returns [{"deleted": true}] and removes exactly that
    document, the others staying in their order; afterwards the post is
    not stored, [get_post_admin] fails with 404 and a second deletion
    returns [{"deleted": false}]. *)
Theorem delete_removes_the_document id w d h e :
  Bson.is_valid id = true ->
  db w = Some d ->
  Bson.ObjectId id = Some h ->
  ids_unique (collection d "post") ->
  stored "post" h w = Some e ->
  exists l1 l2,
    collection d "post" = l1 ++ e :: l2
    /\ delete_post id w
       = (Returned {| deleted := true |}, with_db (set_collection d "post" (l1 ++ l2)) w)
    /\ stored "post" h (delete_post id w).2 = None
    /\ (get_post_admin id (delete_post id w).2).1 = not_found
    /\ (delete_post id (delete_post id w).2).1 = Returned {| deleted := false |}.
Proof.
  intros Hid Hdb Hh Huniq Hst.
  rewrite (stored_id_test _ _ _ _ Hdb) in Hst.
  pose proof (head_filter_Some _ _ _ Hst) as He. rewrite id_test_oid in He.
  apply bool_decide_eq_true in He.
  destruct (remove_first_match _ _ _ Hst) as (l1 & l2 & Hl & _ & Hr).
  exists l1, l2. split; [exact Hl|].
  assert (delete_post id w
          = (Returned {| deleted := true |},
             with_db (set_collection d "post" (l1 ++ l2)) w)) as Hrun.
  { rewrite (delete_post_run _ _ _ _ Hid Hdb Hh), Hr. reflexivity. }
  rewrite Hrun. simpl. split; [reflexivity|].
  assert (List.filter (id_test (VObjectId h)) (l1 ++ l2) = []) as Hgone.
  { apply filter_id_none. intros x Hx. rewrite <- He.
    apply (unique_id_elsewhere l1 l2); [by rewrite <- Hl | exact Hx]. }
  assert (stored "post" h (with_db (set_collection d "post" (l1 ++ l2)) w) = None) as Hnone.
  { erewrite stored_id_test by reflexivity. by rewrite collection_set, Hgone. }
  split; [exact Hnone|]. split.
  - erewrite get_post_admin_run; [| exact Hid | reflexivity | exact Hh].
    by rewrite Hnone.
  - erewrite delete_post_run; [| exact Hid | reflexivity | exact Hh].
    rewrite collection_set, (remove_first_no_match _ _ Hgone). reflexivity.
Qed.

Lemma remove_first_sublist p l : sublist (remove_first p l).1 l.
Proof.
  induction l as [|e l IH]; simpl; [constructor|].
  destruct (p e); simpl.
  - by apply sublist_cons.
  - destruct (remove_first p l) as [r n]. simpl in *. by apply sublist_skip.
Qed.

(** X6: [delete_category] leaves every post in place, also those
    that name the category in [category_slug], and [delete_post] leaves
    the categories in place; the collection deleted from loses documents
    at most. *)
Theorem delete_touches_one_collection id w d h :
  Bson.is_valid id = true ->
  db w = Some d ->
  Bson.ObjectId id = Some h ->
  (exists d', db (delete_category id w).2 = Some d'
              /\ collection d' "post" = collection d "post"
              /\ sublist (collection d' "category") (collection d "category"))
  /\ (exists d', db (delete_post id w).2 = Some d'
                 /\ collection d' "category" = collection d "category"
                 /\ sublist (collection d' "post") (collection d "post")).
Proof.
  intros Hid Hdb Hh. split.
  - rewrite (delete_category_run _ _ _ _ Hid Hdb Hh). simpl.
    destruct (Z.eqb_spec (remove_first (id_test (VObjectId h)) (collection d "category")).2 0)
      as [Hz|_].
    + exists d. split; [exact Hdb|]. split; [reflexivity|]. reflexivity.
    + eexists. split; [reflexivity|]. split.
      * by apply collection_set_other.
      * rewrite collection_set. apply remove_first_sublist.
  - rewrite (delete_post_run _ _ _ _ Hid Hdb Hh). simpl.
    destruct (Z.eqb_spec (remove_first (id_test (VObjectId h)) (collection d "post")).2 0)
      as [Hz|_].
    + exists d. split; [exact Hdb|]. split; [reflexivity|]. reflexivity.
    + eexists. split; [reflexivity|]. split.
      * by apply collection_set_other.
      * rewrite collection_set. apply remove_first_sublist.
Qed.

(** *** Partial updates *)

Ltac dump_lookup :=
  unfold PostUpdate.model_dump_exclude_unset, CategoryUpdate.model_dump_exclude_unset;
  rewrite !lookup_dump_app, lookup_dump_last; reflexivity.

Lemma post_update_dump_slug p :
  PostUpdate.model_dump_exclude_unset p !! "slug" = dump_opt VStr <$> PostUpdate.slug p.
Proof.
  unfold PostUpdate.model_dump_exclude_unset.
  rewrite !lookup_dump_app, lookup_dump_last. simpl.
  destruct (PostUpdate.slug p); reflexivity.
Qed.

Lemma post_update_dump_no_stamps p :
  PostUpdate.model_dump_exclude_unset p !! "created_at" = None
  /\ PostUpdate.model_dump_exclude_unset p !! "updated_at" = None.
Proof. split; dump_lookup. Qed.

Lemma fields_set_other upd w k :
  k <> "updated_at" -> k <> "published_at" -> fields_set upd w !! k = upd !! k.
Proof.
  intros H1 H2. unfold fields_set. destruct (publish_due upd);
    by rewrite !lookup_insert_ne.
Qed.

Lemma fields_set_updated_at upd w :
  fields_set upd w !! "updated_at"
  = Some (if publish_due upd then current_instant (ticked w) else current_instant w).
Proof.
  unfold fields_set. destruct (publish_due upd); apply lookup_insert_eq.
Qed.

Lemma set_first_shape p upd l e :
  head (List.filter p l) = Some e ->
  exists l1 l2,
    l = l1 ++ e :: l2 /\ List.filter p l1 = []
    /\ set_first p upd l = (l1 ++ (upd ∪ e) :: l2, true).
Proof.
  induction l as [|x l IH]; simpl; [discriminate|].
  destruct (p x) eqn:Hx; simpl.
  - intros [= ->]. by exists [], l.
  - intros H. destruct (IH H) as (l1 & l2 & -> & Hl1 & Hr).
    exists (x :: l1), l2. simpl. rewrite Hx, Hr. auto.
Qed.

Lemma update_post_world id payload w d h existing :
  Bson.is_valid id = true -> db w = Some d -> Bson.ObjectId id = Some h ->
  PostUpdate.model_dump_exclude_unset payload <> ∅ ->
  stored "post" h w = Some existing ->
  let fields := fields_set (PostUpdate.model_dump_exclude_unset payload) w in
  let q := [Field "_id" (Eq (VObjectId h))] in
  exists l1 l2,
    collection d "post" = l1 ++ existing :: l2
    /\ List.filter (id_test (VObjectId h)) l1 = []
    /\ update_post id payload w
       = (Returned (RDoc (serialize_doc (local_utcoffset w) (Some (fields ∪ existing)))),
          logged (OpFindOne "post" q)
            (with_db (set_collection d "post" (l1 ++ (fields ∪ existing) :: l2))
               (logged (OpUpdateOne "post" q fields)
                  (after_stamps (PostUpdate.model_dump_exclude_unset payload) w)))).
Proof.
  intros Hid Hdb Hh Hne Hst. simpl.
  destruct (update_post_stored _ _ _ _ _ _ Hid Hdb Hh Hne Hst) as [_ Hout].
  rewrite (stored_id_test _ _ _ _ Hdb) in Hst.
  destruct (set_first_shape (id_test (VObjectId h))
              (fields_set (PostUpdate.model_dump_exclude_unset payload) w) _ _ Hst)
    as (l1 & l2 & Hl & Hl1 & Hr).
  exists l1, l2. split; [exact Hl|]. split; [exact Hl1|].
  rewrite (surjective_pairing (update_post id payload w)), Hout. f_equal.
  rewrite (update_post_run _ _ _ _ _ Hid Hdb Hh Hne). simpl. rewrite Hr. reflexivity.
Qed.

(** X7: a partial update of a stored post returns the
    serialization of the document the store holds afterwards.  In it every
    field the partial names has the partial's value, also [None], every
    other field but the two stamps is as it was, [_id] and [created_at]
    among them, and [updated_at] is a date for the last reading of the
    clock the handler took, to the millisecond a store keeps.  A publish
    time the partial gives is taken to lie well inside the years a
    [datetime] holds. *)
Theorem update_post_sets_what_the_partial_names id payload w d h existing :
  Bson.is_valid id = true ->
  db w = Some d ->
  Bson.ObjectId id = Some h ->
  PostUpdate.model_dump_exclude_unset payload <> ∅ ->
  stored "post" h w = Some existing ->
  (forall t, PostUpdate.published_at payload = Some (Some t) -> well_inside t) ->
  let update := PostUpdate.model_dump_exclude_unset payload in
  let w' := (update_post id payload w).2 in
  exists merged n,
    stored "post" h w' = Some merged
    /\ (update_post id payload w).1
       = Returned (RDoc (serialize_doc (local_utcoffset w) (Some merged)))
    /\ (forall k, k <> "updated_at" -> k <> "published_at" ->
          merged !! k = match update !! k with
                        | Some v => Some v
                        | None => existing !! k
                        end)
    /\ merged !! "_id" = Some (VObjectId h)
    /\ merged !! "created_at" = existing !! "created_at"
    /\ reads w' = S n /\ (reads w <= n)%nat
    /\ stamped_at (readings w n) (merged !! "updated_at").
Proof.
  intros Hid Hdb Hh Hne Hst _ update w'. subst update w'.
  destruct (update_post_stored _ _ _ _ _ _ Hid Hdb Hh Hne Hst) as [Hafter Hout].
  set (update := PostUpdate.model_dump_exclude_unset payload) in *.
  assert (forall k, k <> "updated_at" -> k <> "published_at" ->
            (fields_set update w ∪ existing) !! k
            = match update !! k with Some v => Some v | None => existing !! k end) as Hk.
  { intros k H1 H2. rewrite lookup_union, (fields_set_other _ _ _ H1 H2).
    destruct (update !! k), (existing !! k); reflexivity. }
  exists (fields_set update w ∪ existing),
         (if publish_due update then S (reads w) else reads w).
  split; [exact Hafter|]. split; [exact Hout|]. split; [exact Hk|].
  split; [|split; [|split; [|split]]].
  - rewrite Hk by done. subst update. rewrite post_update_dump_no_id.
    pose proof Hst as Hst'. rewrite (stored_id_test _ _ _ _ Hdb) in Hst'.
    apply head_filter_Some in Hst'. rewrite id_test_oid in Hst'.
    by apply bool_decide_eq_true in Hst'.
  - rewrite Hk by done. subst update.
    by rewrite (proj1 (post_update_dump_no_stamps payload)).
  - rewrite (update_post_run _ _ _ _ _ Hid Hdb Hh Hne). simpl.
    unfold after_stamps. fold update.
    destruct (set_first _ _ _) as [l [|]]; destruct (publish_due update); reflexivity.
  - destruct (publish_due update); lia.
  - rewrite (lookup_union_Some_l _ _ _ _ (fields_set_updated_at update w)).
    destruct (publish_due update); (eexists; split; [reflexivity|]);
      unfold bson_instant; simpl; lia.
Qed.

(** X8: a partial update of a stored post replaces that document
    at its place in the collection; the documents before and after it and
    the categories are left as they were. *)
Theorem update_post_changes_one_document id payload w d h existing :
  Bson.is_valid id = true ->
  db w = Some d ->
  Bson.ObjectId id = Some h ->
  PostUpdate.model_dump_exclude_unset payload <> ∅ ->
  stored "post" h w = Some existing ->
  exists l1 l2 merged d',
    collection d "post" = l1 ++ existing :: l2
    /\ db (update_post id payload w).2 = Some d'
    /\ collection d' "post" = l1 ++ merged :: l2
    /\ collection d' "category" = collection d "category"
    /\ (forall x, x ∈ l1 -> x !! "_id" <> Some (VObjectId h)).
Proof.
  intros Hid Hdb Hh Hne Hst.
  destruct (update_post_world _ _ _ _ _ _ Hid Hdb Hh Hne Hst) as (l1 & l2 & Hl & Hl1 & Hrun).
  exists l1, l2. eexists. eexists. rewrite Hrun. simpl.
  split; [exact Hl|]. split; [reflexivity|]. split; [apply collection_set|].
  split.
  - unfold collection, set_collection. simpl. by rewrite lookup_insert_ne.
  - intros x Hx Hid'. 
    assert (id_test (VObjectId h) x = true) as Ht.
    { rewrite id_test_oid. by apply bool_decide_eq_true. }
    assert (x ∈ List.filter (id_test (VObjectId h)) l1) as Hin.
    { apply list_elem_of_In, filter_In. split; [by apply list_elem_of_In | exact Ht]. }
    rewrite Hl1 in Hin. by apply elem_of_nil in Hin.
Qed.

(** X9: unlike creation, an update does not check the slug: a
    partial that sets the slug of one post to the slug of another succeeds,
    and the collection then holds two posts with that slug. *)
Theorem update_post_does_not_check_the_slug id payload w d h existing other s :
  Bson.is_valid id = true ->
  db w = Some d ->
  Bson.ObjectId id = Some h ->
  stored "post" h w = Some existing ->
  PostUpdate.slug payload = Some (Some s) ->
  other ∈ collection d "post" ->
  other !! "slug" = Some (VStr s) ->
  other !! "_id" <> Some (VObjectId h) ->
  exists merged d',
    (update_post id payload w).1
    = Returned (RDoc (serialize_doc (local_utcoffset w) (Some merged)))
    /\ db (update_post id payload w).2 = Some d'
    /\ merged ∈ collection d' "post"
    /\ other ∈ collection d' "post"
    /\ merged !! "slug" = Some (VStr s)
    /\ merged !! "_id" = Some (VObjectId h).
Proof.
  intros Hid Hdb Hh Hst Hslug Hother Hos Hoid.
  assert (PostUpdate.model_dump_exclude_unset payload <> ∅) as Hne.
  { intros E. pose proof (post_update_dump_slug payload) as Hs.
    rewrite E, Hslug, lookup_empty in Hs. discriminate Hs. }
  destruct (update_post_world _ _ _ _ _ _ Hid Hdb Hh Hne Hst) as (l1 & l2 & Hl & Hl1 & Hrun).
  pose proof Hst as Hst'. rewrite (stored_id_test _ _ _ _ Hdb) in Hst'.
  apply head_filter_Some in Hst'. rewrite id_test_oid in Hst'.
  apply bool_decide_eq_true in Hst'.
  eexists. eexists. rewrite Hrun. simpl.
  split; [reflexivity|]. split; [reflexivity|]. rewrite collection_set.
  split; [|split; [|split]].
  - apply elem_of_app. right. left.
  - rewrite Hl in Hother. apply elem_of_app in Hother as [?|Hother];
      [apply elem_of_app; by left|].
    apply elem_of_cons in Hother as [->|?]; [contradiction|].
    apply elem_of_app. right. by right.
  - apply lookup_union_Some_l. rewrite fields_set_other by done.
    by rewrite post_update_dump_slug, Hslug.
  - rewrite lookup_union_r; [exact Hst'|].
    apply fields_set_no_id, post_update_dump_no_id.
Qed.

(** *** Creating a document *)

Lemma filter_slug_none s (l : list dict) :
  (forall x, x ∈ l -> ~ reads_as s (x !! "slug")) ->
  List.filter (slug_test s) l = [].
Proof.
  intros H. apply filter_nil_iff. intros x Hx. unfold slug_test.
  rewrite andb_true_r. apply not_true_is_false. intros Hm.
  apply (H x Hx). by apply eq_match_text.
Qed.

Lemma inserted_id data w :
  inserted data w !! "_id" = Some (VObjectId (Bson.generated_id (next_id w))).
Proof. apply lookup_insert_eq. Qed.

Lemma inserted_other data w k :
  k <> "_id" -> k <> "created_at" -> k <> "updated_at" ->
  inserted data w !! k = data !! k.
Proof. intros. unfold inserted. by rewrite !lookup_insert_ne. Qed.

(** The lookup by identifier that ends both create handlers, on the
    store that holds the new document at its end. *)
Lemma reread_run coll doc n w d tz :
  db w = Some (set_collection d coll (collection d coll ++ [doc])) ->
  doc !! "_id" = Some (VObjectId (Bson.generated_id n)) ->
  List.filter (id_test (VObjectId (Bson.generated_id n))) (collection d coll) = [] ->
  local_utcoffset w = tz ->
  (oid <- object_id (Bson.generated_id n) ;;
   doc <- find_one coll [Field "_id" (Eq oid)] ;;
   r <- serialize doc ;;
   ret (RDoc r)) w
  = (Returned (RDoc (serialize_doc tz (Some doc))),
     logged (OpFindOne coll [Field "_id" (Eq (VObjectId (Bson.generated_id n)))]) w).
Proof.
  intros Hdb Hid Hfresh <-.
  remember (serialize_doc (local_utcoffset w) (Some doc)) as r eqn:Hr.
  unfold bind at 1.
  rewrite (object_id_run _ _ _ (generated_id_parses _)).
  unfold bind at 1. erewrite find_one_run; [| exact Hdb | apply compile_id_filter].
  rewrite collection_set, List.filter_app, Hfresh. simpl.
  rewrite id_test_oid, Hid, bool_decide_eq_true_2 by reflexivity.
  subst r. reflexivity.
Qed.

Lemma next_id_ticked w : next_id (ticked w) = next_id w.
Proof. reflexivity. Qed.

Lemma create_post_run payload w d :
  db w = Some d ->
  List.filter (slug_test (Post.slug payload)) (collection d "post") = [] ->
  unused_id "post" w ->
  let doc := post_created (Post.model_dump payload) w in
  exists w',
    create_post payload w
    = (Returned (RDoc (serialize_doc (local_utcoffset w) (Some doc))), w')
    /\ db w' = Some (set_collection d "post" (collection d "post" ++ [doc]))
    /\ local_utcoffset w' = local_utcoffset w.
Proof.
  intros Hdb Hslug Hfresh. cbv zeta.
  pose proof Hfresh as Hfresh'. unfold unused_id in Hfresh'.
  rewrite (stored_id_test _ _ _ _ Hdb) in Hfresh'. apply head_filter_none in Hfresh'.
  unfold create_post.
  pose proof (post_dump_no_id payload) as Hnoid.
  generalize dependent (Post.model_dump payload). intros data Hnoid.
  unfold bind at 1. rewrite (existing_slug_run _ _ _ _ Hdb), Hslug.
  cbn [doc_truthy head].
  unfold post_created. fold (publish_due data).
  destruct (publish_due data).
  - unfold bind at 1. unfold bind at 1. unfold now_utc, ret.
    unfold bind at 1.
    erewrite create_document_run;
      [| exact Hdb | by rewrite lookup_insert_ne | exact Hfresh].
    cbv beta iota.
    erewrite reread_run;
      [| reflexivity | apply inserted_id | rewrite next_id_ticked; exact Hfresh'
       | reflexivity].
    eexists. split; [reflexivity|]. split; reflexivity.
  - unfold bind at 1. unfold ret at 1.
    unfold bind at 1.
    erewrite create_document_run; [| exact Hdb | exact Hnoid | exact Hfresh].
    cbv beta iota.
    erewrite reread_run;
      [| reflexivity | apply inserted_id | exact Hfresh' | reflexivity].
    eexists. split; [reflexivity|]. split; reflexivity.
Qed.

Lemma post_created_id data w :
  post_created data w !! "_id" = Some (VObjectId (Bson.generated_id (next_id w))).
Proof.
  unfold post_created. destruct (publish_due data); rewrite inserted_id; reflexivity.
Qed.

Lemma post_created_other data w k :
  k <> "_id" -> k <> "created_at" -> k <> "updated_at" -> k <> "published_at" ->
  post_created data w !! k = data !! k.
Proof.
  intros. unfold post_created. destruct (publish_due data);
    rewrite inserted_other by done; [by rewrite lookup_insert_ne | done].
Qed.

Lemma post_created_publish_time data w :
  post_created data w !! "published_at"
  = if publish_due data then Some (current_instant w) else data !! "published_at".
Proof.
  unfold post_created. destruct (publish_due data);
    rewrite inserted_other by done; [apply lookup_insert_eq | done].
Qed.

(** X11: creating a post under a slug that no stored post goes
    by returns the serialization of one new document, which is appended
    to the posts while the categories stay as they were.  The document
    has the generated identifier and every field of the payload as
    dumped; its [published_at] is a date for the publish time the payload
    gives, for the first reading of the clock when the payload gives none
    and the status is [published], and [None] otherwise, a date being
    held to the millisecond a store keeps.  A publish time the payload
    gives is taken to lie well inside the years a [datetime] holds. *)
Theorem create_post_stores_the_payload payload w d :
  db w = Some d ->
  (forall x, x ∈ collection d "post" -> ~ reads_as (Post.slug payload) (x !! "slug")) ->
  unused_id "post" w ->
  (forall t, Post.published_at payload = Some t -> well_inside t) ->
  exists doc w' d',
    create_post payload w
    = (Returned (RDoc (serialize_doc (local_utcoffset w) (Some doc))), w')
    /\ db w' = Some d'
    /\ collection d' "post" = collection d "post" ++ [doc]
    /\ collection d' "category" = collection d "category"
    /\ doc !! "_id" = Some (VObjectId (Bson.generated_id (next_id w)))
    /\ (forall k, k <> "_id" -> k <> "created_at" -> k <> "updated_at" ->
                  k <> "published_at" ->
                  doc !! k = Post.model_dump payload !! k)
    /\ match Post.published_at payload with
       | Some t => stamped_at (bson_instant t) (doc !! "published_at")
       | None =>
           if bool_decide (Post.status payload = "published")
           then stamped_at (readings w (reads w)) (doc !! "published_at")
           else doc !! "published_at" = Some VNone
       end.
Proof.
  intros Hdb Hslug Hfresh _.
  destruct (create_post_run payload w d Hdb (filter_slug_none _ _ Hslug) Hfresh)
    as (w' & Hrun & Hdb' & _).
  exists (post_created (Post.model_dump payload) w), w'. eexists.
  split; [exact Hrun|]. split; [exact Hdb'|].
  split; [apply collection_set|].
  split; [by apply collection_set_other|].
  split; [apply post_created_id|].
  split; [intros; by apply post_created_other|].
  rewrite post_created_publish_time, publish_due_create, post_dump_published_at.
  destruct (Post.published_at payload) as [t|]; destruct (bool_decide _); simpl;
    try reflexivity; (eexists; split; [reflexivity|]); unfold bson_instant; simpl; lia.
Qed.

(** X12: a post that was just created can be read back: the
    administrative lookup by the generated identifier gives the response
    the creation gave; the public lookup by the slug gives it too when the
    post was created as [published], and fails with 404 otherwise. *)
Theorem created_post_can_be_read_back payload w d :
  db w = Some d ->
  (forall x, x ∈ collection d "post" -> ~ reads_as (Post.slug payload) (x !! "slug")) ->
  unused_id "post" w ->
  let w' := (create_post payload w).2 in
  (get_post_admin (Bson.generated_id (next_id w)) w').1 = (create_post payload w).1
  /\ (get_post_by_slug (Post.slug payload) w').1
     = if bool_decide (Post.status payload = "published")
       then (create_post payload w).1
       else not_found.
Proof.
  intros Hdb Hslug Hfresh. cbv zeta.
  pose proof (filter_slug_none _ _ Hslug) as Hnone.
  destruct (create_post_run payload w d Hdb Hnone Hfresh) as (w' & Hrun & Hdb' & Htz).
  rewrite Hrun. cbn [fst snd].
  pose proof Hfresh as Hfresh'. unfold unused_id in Hfresh'.
  rewrite (stored_id_test _ _ _ _ Hdb) in Hfresh'. apply head_filter_none in Hfresh'.
  pose proof (post_created_id (Post.model_dump payload) w) as Hid.
  pose proof (post_created_other (Post.model_dump payload) w "slug") as Hs.
  pose proof (post_created_other (Post.model_dump payload) w "status") as Hst.
  rewrite post_dump_status in Hst.
  change (Post.model_dump payload !! "slug") with (Some (VStr (Post.slug payload))) in Hs.
  specialize (Hs ltac:(done) ltac:(done) ltac:(done) ltac:(done)).
  specialize (Hst ltac:(done) ltac:(done) ltac:(done) ltac:(done)).
  generalize dependent (post_created (Post.model_dump payload) w).
  intros doc Hrun Hdb' Hid Hs Hst.
  split.
  - rewrite (get_post_admin_run _ _ _ _ (generated_id_valid _) Hdb' (generated_id_parses _)).
    rewrite (stored_id_test _ _ _ _ Hdb'), collection_set, List.filter_app, Hfresh'.
    cbn [fst app List.filter].
    rewrite id_test_oid, Hid.
    rewrite bool_decide_eq_true_2 by reflexivity. cbn [head]. by rewrite Htz.
  - rewrite (get_post_by_slug_run _ _ _ Hdb'), collection_set, List.filter_app.
    assert (List.filter (public_slug_test (Post.slug payload)) (collection d "post") = [])
      as ->.
    { apply filter_nil_iff. intros x Hx. unfold public_slug_test.
      apply andb_false_intro1, not_true_is_false. intros Hm.
      apply (Hslug x Hx). by apply eq_match_text. }
    cbn [fst app List.filter]. unfold public_slug_test.
    rewrite Hs, Hst.
    cbn [eq_match]. rewrite bool_decide_eq_true_2 by reflexivity.
    rewrite andb_true_r. cbn [andb].
    destruct (bool_decide_reflect (Post.status payload = "published")) as [He|He].
    + rewrite He, bool_decide_eq_true_2 by reflexivity. cbn [head]. by rewrite Htz.
    + rewrite bool_decide_eq_false_2 by congruence. reflexivity.
Qed.

(** *** Categories *)

Lemma category_update_dump_no_id p :
  CategoryUpdate.model_dump_exclude_unset p !! "_id" = None.
Proof. dump_lookup. Qed.

Lemma category_update_dump_no_stamp p :
  CategoryUpdate.model_dump_exclude_unset p !! "created_at" = None.
Proof. dump_lookup. Qed.

Lemma update_category_world id payload w d h existing :
  Bson.is_valid id = true -> db w = Some d -> Bson.ObjectId id = Some h ->
  CategoryUpdate.model_dump_exclude_unset payload <> ∅ ->
  stored "category" h w = Some existing ->
  let fields := <["updated_at" := current_instant w]>
                  (CategoryUpdate.model_dump_exclude_unset payload) in
  let q := [Field "_id" (Eq (VObjectId h))] in
  exists l1 l2,
    collection d "category" = l1 ++ existing :: l2
    /\ List.filter (id_test (VObjectId h)) l1 = []
    /\ update_category id payload w
       = (Returned (RDoc (serialize_doc (local_utcoffset w) (Some (fields ∪ existing)))),
          logged (OpFindOne "category" q)
            (with_db (set_collection d "category" (l1 ++ (fields ∪ existing) :: l2))
               (logged (OpUpdateOne "category" q fields) (ticked w)))).
Proof.
  intros Hid Hdb Hh Hne Hst. cbv zeta.
  rewrite (stored_id_test _ _ _ _ Hdb) in Hst.
  set (fields := <["updated_at" := current_instant w]>
                   (CategoryUpdate.model_dump_exclude_unset payload)).
  destruct (set_first_shape (id_test (VObjectId h)) fields _ _ Hst)
    as (l1 & l2 & Hl & Hl1 & Hr).
  exists l1, l2. split; [exact Hl|]. split; [exact Hl1|].
  rewrite (update_category_run _ _ _ _ _ Hid Hdb Hh Hne). cbv zeta. fold fields.
  rewrite Hr. cbn [fst snd].
  rewrite List.filter_app, Hl1. cbn [app List.filter].
  assert (id_test (VObjectId h) (fields ∪ existing) = true) as ->.
  { rewrite id_test_oid. apply bool_decide_eq_true.
    rewrite lookup_union_r.
    - apply head_filter_Some in Hst. rewrite id_test_oid in Hst.
      by apply bool_decide_eq_true in Hst.
    - unfold fields. rewrite lookup_insert_ne by done.
      apply category_update_dump_no_id. }
  reflexivity.
Qed.

(** X10: a partial update of a stored category returns the
    serialization of the document the store holds afterwards: the
    partial's fields over the stored ones, with [updated_at] a date for
    the one reading of the clock the handler takes, to the millisecond a
    store keeps; the document keeps its place, and the posts are left as
    they were. *)
Theorem update_category_sets_what_the_partial_names id payload w d h existing :
  Bson.is_valid id = true ->
  db w = Some d ->
  Bson.ObjectId id = Some h ->
  CategoryUpdate.model_dump_exclude_unset payload <> ∅ ->
  stored "category" h w = Some existing ->
  let update := CategoryUpdate.model_dump_exclude_unset payload in
  exists merged w' d' l1 l2,
    update_category id payload w
    = (Returned (RDoc (serialize_doc (local_utcoffset w) (Some merged))), w')
    /\ (forall k, k <> "updated_at" ->
          merged !! k = match update !! k with
                        | Some v => Some v
                        | None => existing !! k
                        end)
    /\ merged !! "_id" = Some (VObjectId h)
    /\ merged !! "created_at" = existing !! "created_at"
    /\ stamped_at (readings w (reads w)) (merged !! "updated_at")
    /\ reads w' = S (reads w)
    /\ db w' = Some d'
    /\ collection d "category" = l1 ++ existing :: l2
    /\ collection d' "category" = l1 ++ merged :: l2
    /\ collection d' "post" = collection d "post".
Proof.
  intros Hid Hdb Hh Hne Hst update. subst update.
  destruct (update_category_world _ _ _ _ _ _ Hid Hdb Hh Hne Hst)
    as (l1 & l2 & Hl & Hl1 & Hrun).
  set (update := CategoryUpdate.model_dump_exclude_unset payload) in *.
  set (fields := <["updated_at" := current_instant w]> update) in *.
  assert (forall k, k <> "updated_at" ->
            (fields ∪ existing) !! k
            = match update !! k with Some v => Some v | None => existing !! k end) as Hk.
  { intros k H1. unfold fields. rewrite lookup_union, lookup_insert_ne by done.
    destruct (update !! k), (existing !! k); reflexivity. }
  exists (fields ∪ existing). eexists. eexists. exists l1, l2.
  split; [exact Hrun|]. split; [exact Hk|].
  split; [|split; [|split; [|split; [|split; [|split; [|split]]]]]].
  - rewrite Hk by done. subst update. rewrite category_update_dump_no_id.
    pose proof Hst as Hst'. rewrite (stored_id_test _ _ _ _ Hdb) in Hst'.
    apply head_filter_Some in Hst'. rewrite id_test_oid in Hst'.
    by apply bool_decide_eq_true in Hst'.
  - rewrite Hk by done. subst update. by rewrite category_update_dump_no_stamp.
  - eexists. split.
    + apply lookup_union_Some_l. unfold fields. apply lookup_insert_eq.
    + unfold bson_instant. simpl. lia.
  - reflexivity.
  - reflexivity.
  - exact Hl.
  - apply collection_set.
  - by apply collection_set_other.
Qed.

Lemma category_dump_no_id p : Category.model_dump p !! "_id" = None.
Proof. reflexivity. Qed.

Lemma create_category_run payload w d :
  db w = Some d ->
  List.filter (slug_test (Category.slug payload)) (collection d "category") = [] ->
  unused_id "category" w ->
  let doc := inserted (Category.model_dump payload) w in
  exists w',
    create_category payload w
    = (Returned (RDoc (serialize_doc (local_utcoffset w) (Some doc))), w')
    /\ db w' = Some (set_collection d "category" (collection d "category" ++ [doc])).
Proof.
  intros Hdb Hslug Hfresh. cbv zeta.
  pose proof Hfresh as Hfresh'. unfold unused_id in Hfresh'.
  rewrite (stored_id_test _ _ _ _ Hdb) in Hfresh'. apply head_filter_none in Hfresh'.
  unfold create_category.
  pose proof (category_dump_no_id payload) as Hnoid.
  generalize dependent (Category.model_dump payload). intros data Hnoid.
  unfold bind at 1. rewrite (existing_slug_run _ _ _ _ Hdb), Hslug.
  cbn [doc_truthy head].
  unfold bind at 1.
  erewrite create_document_run; [| exact Hdb | exact Hnoid | exact Hfresh].
  cbv beta iota.
  erewrite reread_run;
    [| reflexivity | apply inserted_id | exact Hfresh' | reflexivity].
  eexists. split; reflexivity.
Qed.

(** X13: creating a category under a slug that no stored
    category goes by returns the serialization of one new document, which
    is appended to the categories while the posts stay as they were.  The
    document has the generated identifier and the three fields of the
    payload as dumped. *)
Theorem create_category_stores_the_payload payload w d :
  db w = Some d ->
  (forall x, x ∈ collection d "category" ->
             ~ reads_as (Category.slug payload) (x !! "slug")) ->
  unused_id "category" w ->
  exists doc w' d',
    create_category payload w
    = (Returned (RDoc (serialize_doc (local_utcoffset w) (Some doc))), w')
    /\ db w' = Some d'
    /\ collection d' "category" = collection d "category" ++ [doc]
    /\ collection d' "post" = collection d "post"
    /\ doc !! "_id" = Some (VObjectId (Bson.generated_id (next_id w)))
    /\ doc !! "name" = Some (VStr (Category.name payload))
    /\ doc !! "slug" = Some (VStr (Category.slug payload))
    /\ doc !! "description" = Some (dump_opt VStr (Category.description payload)).
Proof.
  intros Hdb Hslug Hfresh.
  destruct (create_category_run payload w d Hdb (filter_slug_none _ _ Hslug) Hfresh)
    as (w' & Hrun & Hdb').
  exists (inserted (Category.model_dump payload) w), w'. eexists.
  split; [exact Hrun|]. split; [exact Hdb'|].
  split; [apply collection_set|].
  split; [by apply collection_set_other|].
  split; [apply inserted_id|].
  split; [by rewrite inserted_other|].
  split; [by rewrite inserted_other|].
  by rewrite inserted_other.
Qed.

(** *** Listings *)

Lemma list_posts_admin_result w d status q :
  db w = Some d ->
  (list_posts_admin status q w).1
  = match compile_filter (regex_engine d) (admin_filter status q) with
    | Some pred =>
        Returned (RDocs (map (fun x => serialize_doc (local_utcoffset w) (Some x))
                           (sort_desc "created_at"
                              (List.filter pred (collection d "post")))))
    | None => Raised OperationFailure
    end.
Proof.
  intros Hdb.
  destruct (compile_filter _ _) as [pred|] eqn:Hpred.
  - by rewrite (list_posts_admin_run _ _ _ _ _ Hdb Hpred).
  - unfold list_posts_admin.
    generalize dependent (admin_filter status q). intros f Hpred.
    unfold find, sort, iterate, server_filter. run.
    rewrite Hdb. simpl. rewrite Hdb. simpl. rewrite Hpred. reflexivity.
Qed.

(** X15: a listing shows the stored posts its query selects
    in descending order of a date: the items of a public listing are a
    run of consecutive posts, starting after those the earlier pages
    skip, of an arrangement of the selected posts in descending order of
    [published_at], and the items of an administrative listing are such
    an arrangement in descending order of [created_at], whole.  Of two
    posts of the arrangement the later one never has the later instant;
    the order of posts with equal dates is left open. *)
Theorem listings_are_newest_first w d :
  db w = Some d ->
  (forall page page_size category tag items p ps total,
     - 2 ^ 63 < default 10 page_size ->
     (list_posts_public page page_size category tag w).1
     = Returned (RListing items p ps total) ->
     exists docs sorted n,
       select d "post" (public_filter category tag) = Some docs
       /\ sorted ≡ₚ docs
       /\ newest_first "published_at" sorted
       /\ items
          = map (fun x => serialize_doc (local_utcoffset w) (Some x))
              (take n (drop (Z.to_nat ((default 1 page - 1) * default 10 page_size))
                         sorted))
       /\ (forall i j x y tx ty,
             (i < j)%nat -> sorted !! i = Some x -> sorted !! j = Some y ->
             x !! "published_at" = Some (VDatetime tx) ->
             y !! "published_at" = Some (VDatetime ty) ->
             bson_instant ty <= bson_instant tx))
  /\ (forall status q items,
        (list_posts_admin status q w).1 = Returned (RDocs items) ->
        exists docs sorted,
          select d "post" (admin_filter status q) = Some docs
          /\ sorted ≡ₚ docs
          /\ newest_first "created_at" sorted
          /\ items = map (fun x => serialize_doc (local_utcoffset w) (Some x)) sorted
          /\ (forall i j x y tx ty,
                (i < j)%nat -> sorted !! i = Some x -> sorted !! j = Some y ->
                x !! "created_at" = Some (VDatetime tx) ->
                y !! "created_at" = Some (VDatetime ty) ->
                bson_instant ty <= bson_instant tx)).
Proof.
  intros Hdb. split.
  - intros page page_size category tag items p ps total _.
    destruct (public_filter_compiles (regex_engine d) category tag) as (pred & Hpred & _).
    rewrite (list_posts_public_run _ _ _ _ _ _ _ Hdb Hpred). cbv zeta.
    destruct (_ <? 0); [discriminate|].
    destruct (negb _); [discriminate|]. cbn [fst]. intros [= <- _ _ _].
    assert (newest_first "published_at"
              (sort_desc "published_at" (List.filter pred (collection d "post")))) as Hs
      by apply sorted_newest_first, sort_desc_sorted.
    exists (List.filter pred (collection d "post")),
      (sort_desc "published_at" (List.filter pred (collection d "post"))).
    exists (if default 10 page_size =? 0
            then length (drop (Z.to_nat ((default 1 page - 1) * default 10 page_size))
                           (sort_desc "published_at"
                              (List.filter pred (collection d "post"))))
            else Z.to_nat (Z.abs (default 10 page_size))).
    split; [unfold select; by rewrite Hpred|].
    split; [apply sort_desc_perm|]. split; [exact Hs|]. split.
    + unfold window, apply_limit.
      destruct (default 10 page_size =? 0); [|reflexivity].
      by rewrite firstn_all.
    + intros. by eapply newest_first_instants.
  - intros status q items. rewrite (list_posts_admin_result _ _ _ _ Hdb).
    destruct (compile_filter _ _) as [pred|] eqn:Hpred; [|discriminate].
    intros [= <-].
    assert (newest_first "created_at"
              (sort_desc "created_at" (List.filter pred (collection d "post")))) as Hs
      by apply sorted_newest_first, sort_desc_sorted.
    exists (List.filter pred (collection d "post")),
      (sort_desc "created_at" (List.filter pred (collection d "post"))).
    split; [unfold select; by rewrite Hpred|].
    split; [apply sort_desc_perm|]. split; [exact Hs|].
    split; [reflexivity|]. intros. by eapply newest_first_instants.
Qed.

(** X16: the public listing selects the stored posts whose
    status reads as [published], whose [category_slug] reads as the
    category asked for and whose [tags] hold the tag asked for; a category
    or a tag that is absent or the empty text selects nothing out.  The
    total of a listing counts these posts and every item is one of
    them. *)
Theorem public_listing_selects_by_category_and_tag w d page page_size category tag :
  db w = Some d ->
  exists docs,
    select d "post" (public_filter category tag) = Some docs
    /\ (forall x,
          x ∈ docs
          <-> x ∈ collection d "post"
              /\ reads_as "published" (x !! "status")
              /\ (str_truthy category = true ->
                  reads_as (default "" category) (x !! "category_slug"))
              /\ (str_truthy tag = true -> reads_as (default "" tag) (x !! "tags")))
    /\ (forall items p ps total,
          (list_posts_public page page_size category tag w).1
          = Returned (RListing items p ps total) ->
          total = Z.of_nat (length docs)
          /\ forall item, item ∈ items ->
               exists x, x ∈ docs
                 /\ item = serialize_doc (local_utcoffset w) (Some x)).
Proof.
  intros Hdb.
  assert (exists pred,
            compile_filter (regex_engine d) (public_filter category tag) = Some pred
            /\ forall x, pred x = true
                 <-> reads_as "published" (x !! "status")
                     /\ (str_truthy category = true ->
                         reads_as (default "" category) (x !! "category_slug"))
                     /\ (str_truthy tag = true ->
                         reads_as (default "" tag) (x !! "tags")))
    as (pred & Hpred & Hspec).
  { unfold public_filter.
    destruct (str_truthy category), (str_truthy tag); simpl;
      eexists; (split; [reflexivity|]); intros x; simpl;
      rewrite ?andb_true_r, ?orb_false_r, ?andb_true_iff, !eq_match_text;
      intuition discriminate. }
  exists (List.filter pred (collection d "post")).
  split; [unfold select; by rewrite Hpred|]. split.
  - intros x. rewrite <- Hspec. rewrite list_elem_of_In, filter_In, <- list_elem_of_In.
    reflexivity.
  - intros items p ps total.
    rewrite (list_posts_public_run _ _ _ _ _ _ _ Hdb Hpred). cbv zeta.
    destruct (_ <? 0); [discriminate|].
    destruct (negb _); [discriminate|]. cbn [fst]. intros [= <- _ _ <-].
    split; [reflexivity|]. intros item Hitem.
    apply list_elem_of_In, in_map_iff in Hitem as (x & <- & Hx%list_elem_of_In).
    exists x. split; [by eapply window_elem | reflexivity].
Qed.

(** X17: the public listing checks neither [page] nor
    [page_size].  A page and a page size whose skip
    [(page - 1) * page_size] is negative fail with [ValueError] before the
    store is asked; page size 0 returns every matching post on whatever
    page, in descending order of [published_at]; a negative page size on
    page 1 returns the first posts of that order, no more of them than its
    absolute value; and a skip or a page size beyond eight bytes fails
    with [OverflowError].  The order of posts with equal dates is left
    open. *)
Theorem public_listing_outside_the_positive_range w d category tag :
  db w = Some d ->
  exists docs,
    select d "post" (public_filter category tag) = Some docs
    /\ (forall page page_size,
          (default 1 page - 1) * default 10 page_size < 0 ->
          list_posts_public page page_size category tag w = (Raised ValueError, w))
    /\ (forall page,
          exists sorted,
            sorted ≡ₚ docs
            /\ newest_first "published_at" sorted
            /\ (list_posts_public page (Some 0) category tag w).1
               = Returned (RListing
                             (map (fun x => serialize_doc (local_utcoffset w) (Some x))
                                sorted)
                             (default 1 page) 0 (Z.of_nat (length docs))))
    /\ (forall page_size,
          - 2 ^ 63 < page_size < 0 ->
          exists sorted n,
            sorted ≡ₚ docs
            /\ newest_first "published_at" sorted
            /\ Z.of_nat n <= - page_size
            /\ (list_posts_public (Some 1) (Some page_size) category tag w).1
               = Returned (RListing
                             (map (fun x => serialize_doc (local_utcoffset w) (Some x))
                                (take n sorted))
                             1 page_size (Z.of_nat (length docs))))
    /\ (forall page page_size,
          0 <= (default 1 page - 1) * default 10 page_size ->
          2 ^ 63 <= (default 1 page - 1) * default 10 page_size
          \/ 2 ^ 63 <= default 10 page_size \/ default 10 page_size < - 2 ^ 63 ->
          list_posts_public page page_size category tag w = (Raised OverflowError, w)).
Proof.
  intros Hdb.
  destruct (public_filter_compiles (regex_engine d) category tag) as (pred & Hpred & _).
  exists (List.filter pred (collection d "post")).
  assert (newest_first "published_at"
            (sort_desc "published_at" (List.filter pred (collection d "post")))) as Hs
    by apply sorted_newest_first, sort_desc_sorted.
  split; [unfold select; by rewrite Hpred|].
  split; [|split; [|split]].
  - intros page page_size Hneg.
    rewrite (list_posts_public_run _ _ _ _ _ _ _ Hdb Hpred). cbv zeta.
    by destruct (Z.ltb_spec ((default 1 page - 1) * default 10 page_size) 0); [|lia].
  - intros page.
    exists (sort_desc "published_at" (List.filter pred (collection d "post"))).
    split; [apply sort_desc_perm|]. split; [exact Hs|].
    rewrite (list_posts_public_run _ _ _ _ _ _ _ Hdb Hpred). cbv zeta.
    change (default 10 (Some 0)) with 0. rewrite Z.mul_0_r. reflexivity.
  - intros page_size Hps.
    exists (sort_desc "published_at" (List.filter pred (collection d "post"))),
      (Z.to_nat (- page_size)).
    split; [apply sort_desc_perm|]. split; [exact Hs|]. split; [lia|].
    rewrite (list_posts_public_run _ _ _ _ _ _ _ Hdb Hpred). cbv zeta.
    change (default 1 (Some 1)) with 1. change (default 10 (Some page_size)) with page_size.
    change ((1 - 1) * page_size) with 0.
    change (0 <? 0) with false. cbv iota.
    assert (fits_int64 0 && fits_int64 page_size = true) as ->.
    { unfold fits_int64. apply andb_true_iff. split; [reflexivity|].
      apply andb_true_iff. split; [apply Z.leb_le | apply Z.ltb_lt]; lia. }
    cbn [negb fst]. unfold window, apply_limit.
    destruct (Z.eqb_spec page_size 0); [lia|].
    replace (Z.abs page_size) with (- page_size) by lia. reflexivity.
  - intros page page_size Hpos Hbig.
    rewrite (list_posts_public_run _ _ _ _ _ _ _ Hdb Hpred). cbv zeta.
    destruct (Z.ltb_spec ((default 1 page - 1) * default 10 page_size) 0); [lia|].
    assert (fits_int64 ((default 1 page - 1) * default 10 page_size)
            && fits_int64 (default 10 page_size) = false) as ->; [|reflexivity].
    unfold fits_int64. apply not_true_is_false.
    rewrite !andb_true_iff, !Z.leb_le, !Z.ltb_lt. lia.
Qed.

(** X18: the administrative listing with no search text, or
    the empty one, sends one query and returns the posts whose status
    reads as the status asked for, every post when the status is absent
    or empty, in descending order of [created_at]. *)
Theorem admin_listing_without_search w d status q :
  db w = Some d ->
  str_truthy q = false ->
  exists ds,
    list_posts_admin status q w
    = (Returned (RDocs (map (fun x => serialize_doc (local_utcoffset w) (Some x)) ds)),
       logged (OpFind "post" (admin_filter status q)) w)
    /\ (forall x, x ∈ ds
          <-> x ∈ collection d "post"
              /\ (str_truthy status = true ->
                  reads_as (default "" status) (x !! "status")))
    /\ (str_truthy status = false -> ds ≡ₚ collection d "post")
    /\ newest_first "created_at" ds.
Proof.
  intros Hdb Hq.
  assert (exists pred,
            compile_filter (regex_engine d) (admin_filter status q) = Some pred
            /\ (forall x, pred x = true
                  <-> (str_truthy status = true ->
                       reads_as (default "" status) (x !! "status")))
            /\ (str_truthy status = false -> forall x, pred x = true))
    as (pred & Hpred & Hspec & Hall).
  { unfold admin_filter. rewrite Hq.
    destruct (str_truthy status); simpl; eexists; (split; [reflexivity|]);
      (split; [intros x|]); simpl; rewrite ?andb_true_r, ?eq_match_text;
      intuition discriminate. }
  exists (sort_desc "created_at" (List.filter pred (collection d "post"))).
  split; [apply (list_posts_admin_run _ _ _ _ _ Hdb Hpred)|].
  split; [|split].
  - intros x. rewrite sort_desc_perm, <- Hspec.
    rewrite list_elem_of_In, filter_In, <- list_elem_of_In. reflexivity.
  - intros Hs. rewrite sort_desc_perm.
    clear -Hs Hall. specialize (Hall Hs).
    induction (collection d "post") as [|x l IH]; simpl; [reflexivity|].
    rewrite Hall. by rewrite IH.
  - apply sorted_newest_first, sort_desc_sorted.
Qed.

(** *** Serialization, field by field *)

Lemma serialized_eq tz d :
  serialized tz d
  = serialize_value tz <$>
      match d !! "_id" with
      | Some v => <["id" := VStr (py_str v)]> (delete "_id" d)
      | None => d
      end.
Proof.
  unfold serialized. destruct (decide (d = ∅)) as [->|Hne].
  - unfold serialize_doc. rewrite decide_True by reflexivity. simpl.
    rewrite lookup_empty. by rewrite fmap_empty.
  - by rewrite serialize_doc_nonempty.
Qed.

Lemma serialize_doc_serialized tz d : serialize_doc tz (Some d) = Some (serialized tz d).
Proof.
  unfold serialized, serialize_doc. by destruct (decide (d = ∅)).
Qed.

Lemma serialized_lookup tz d k :
  k <> "id" -> k <> "_id" ->
  serialized tz d !! k = serialize_value tz <$> d !! k.
Proof.
  intros H1 H2. rewrite serialized_eq, lookup_fmap.
  destruct (d !! "_id"); [|reflexivity].
  by rewrite lookup_insert_ne, lookup_delete_ne.
Qed.

Lemma serialized_id tz d v :
  d !! "_id" = Some v -> serialized tz d !! "id" = Some (VStr (py_str v)).
Proof.
  intros H. rewrite serialized_eq, lookup_fmap, H. by rewrite lookup_insert_eq.
Qed.

Lemma serialized_no_id tz d : serialized tz d !! "_id" = None.
Proof.
  rewrite serialized_eq, lookup_fmap.
  destruct (d !! "_id") eqn:H.
  - rewrite lookup_insert_ne by done. by rewrite lookup_delete_eq.
  - by rewrite H.
Qed.

Lemma serialize_value_no_datetime tz v : isinstance_datetime (serialize_value tz v) = false.
Proof. by destruct v. Qed.

(** X14: for a dictionary whose dates all move to UTC within
    the years a [datetime] holds, [serialize_doc] returns a dictionary.
    No field of the result holds a datetime; but for [_id] and [id] the
    result has the fields of its argument; it is empty only for the empty
    dictionary; and serializing it again, in whatever time zone, gives it
    back unchanged. *)
Theorem serialize_doc_result_is_stable tz tz' (d : dict) :
  convertible tz d ->
  exists r,
    serialize_doc tz (Some d) = Some r
    /\ (forall k v, r !! k = Some v -> isinstance_datetime v = false)
    /\ (forall k, k <> "id" -> k <> "_id" -> (r !! k = None <-> d !! k = None))
    /\ (r = ∅ <-> d = ∅)
    /\ serialize_doc tz' (Some r) = Some r.
Proof.
  intros _.
  exists (serialized tz d). split; [apply serialize_doc_serialized|].
  assert (forall k v, serialized tz d !! k = Some v -> isinstance_datetime v = false) as Hnd.
  { intros k v. rewrite serialized_eq, lookup_fmap.
    destruct (_ !! k); simpl; [|discriminate].
    intros [= <-]. apply serialize_value_no_datetime. }
  split; [exact Hnd|]. split; [|split].
  - intros k H1 H2. rewrite serialized_lookup by done. by destruct (d !! k).
  - rewrite serialized_eq. split.
    + intros H%fmap_empty_inv. destruct (d !! "_id") eqn:Hid; [|exact H].
      by apply insert_non_empty in H.
    + intros ->. rewrite lookup_empty. apply fmap_empty.
  - rewrite serialize_doc_serialized. f_equal.
    rewrite (serialized_eq tz' (serialized tz d)), serialized_no_id.
    apply map_eq. intros k. rewrite lookup_fmap.
    destruct (serialized tz d !! k) as [v|] eqn:Hk; [|reflexivity]. simpl.
    f_equal. specialize (Hnd k v Hk). by destruct v.
Qed.

(** *** The syndication feed *)

Lemma feed_items_run tz ds acc w :
  feed_items tz ds acc w
  = match mapM (fun d => WPFeedItem.validate (serialized tz d)) ds with
    | Some items => (Returned (acc ++ items), w)
    | None => (Raised ValueError, w)
    end.
Proof.
  revert acc. induction ds as [|d ds IH]; intros acc.
  - simpl. by rewrite app_nil_r.
  - cbn [feed_items mapM]. fold (serialized tz d).
    destruct (WPFeedItem.validate (serialized tz d)) as [item|]; [|reflexivity].
    rewrite IH. simpl. destruct (mapM _ ds); simpl; [|reflexivity].
    by rewrite <- app_assoc.
Qed.

Lemma wp_feed_run limit w d :
  db w = Some d ->
  let n := default 50 limit in
  let ds := window (Some "published_at") 0 n
              (List.filter published_test (collection d "post")) in
  wp_feed limit w
  = if negb (fits_int64 n) then (Raised OverflowError, w)
    else (match mapM (fun x => WPFeedItem.validate (serialized (local_utcoffset w) x)) ds
          with
          | Some items => Returned items
          | None => Raised ValueError
          end,
          logged (OpFind "post" [Field "status" (Eq (VStr "published"))]) w).
Proof.
  intros Hdb. cbv zeta. unfold wp_feed.
  unfold find, sort, Driver.limit, iterate, server_filter. run.
  rewrite Hdb. simpl. rewrite Hdb. simpl.
  destruct (fits_int64 (default 50 limit)); simpl; [|reflexivity].
  rewrite feed_items_run. simpl.
  by destruct (mapM _ _).
Qed.

Lemma required_str_Some s k x :
  WPFeedItem.required_str s k = Some x -> s !! k = Some (VStr x).
Proof.
  unfold WPFeedItem.required_str. destruct (s !! k) as [[]|]; congruence.
Qed.

Lemma optional_str_Some s k o :
  WPFeedItem.optional_str s k = Some o -> text_of o (s !! k).
Proof.
  unfold WPFeedItem.optional_str, text_of.
  destruct (s !! k) as [[]|]; intros [= <-]; auto.
Qed.

Lemma optional_strs_Some s k o :
  WPFeedItem.optional_strs s k = Some o -> texts_of o (s !! k).
Proof.
  unfold WPFeedItem.optional_strs, texts_of.
  destruct (s !! k) as [[]|]; intros [= <-]; auto.
Qed.

Lemma validate_feeds tz x item :
  WPFeedItem.validate (serialized tz x) = Some item -> feeds tz x item.
Proof.
  unfold WPFeedItem.validate. intros H.
  repeat match type of H with
         | mbind _ ?m = Some _ =>
             let E := fresh "E" in
             destruct m eqn:E; [cbn [mbind option_bind] in H | discriminate H]
         end.
  injection H as <-. unfold feeds. cbv zeta. cbn [WPFeedItem.id WPFeedItem.title
    WPFeedItem.slug WPFeedItem.content WPFeedItem.excerpt WPFeedItem.image_url
    WPFeedItem.category_slug WPFeedItem.tags WPFeedItem.author WPFeedItem.published_at].
  rewrite <- !(serialized_lookup tz x) by done.
  split.
  { intros v Hv. apply required_str_Some in E.
    rewrite (serialized_id _ _ _ Hv) in E. congruence. }
  repeat split;
    first [by apply required_str_Some | by apply optional_str_Some
          | by apply optional_strs_Some].
Qed.

Lemma published_test_spec x :
  published_test x = true <-> reads_as "published" (x !! "status").
Proof. unfold published_test. by rewrite andb_true_r, eq_match_text. Qed.

Lemma window_length k limit_n (l : list dict) :
  limit_n <> 0 -> Z.of_nat (length (window k 0 limit_n l)) <= Z.abs limit_n.
Proof.
  intros H. unfold window, apply_limit.
  destruct (Z.eqb_spec limit_n 0); [contradiction|].
  rewrite length_take. lia.
Qed.

(** X19: when the feed returns, its items show, one for
    one and in descending order of [published_at], stored posts whose
    status reads as [published]: the identifier as text and the declared
    fields as [serialize_doc] leaves them, a publish time as its ISO text
    in UTC.  There are at most [limit] items, 50 by default, and with
    limit 0 all published posts; the store is asked once. *)
Theorem feed_items_are_the_published_posts w d limit items :
  db w = Some d ->
  (wp_feed limit w).1 = Returned items ->
  exists ds,
    Forall2 (feeds (local_utcoffset w)) ds items
    /\ (forall x, x ∈ ds ->
          x ∈ collection d "post" /\ reads_as "published" (x !! "status"))
    /\ newest_first "published_at" ds
    /\ (default 50 limit <> 0 -> Z.of_nat (length items) <= Z.abs (default 50 limit))
    /\ (default 50 limit = 0 ->
        ds ≡ₚ List.filter published_test (collection d "post"))
    /\ (wp_feed limit w).2
       = logged (OpFind "post" [Field "status" (Eq (VStr "published"))]) w.
Proof.
  intros Hdb. rewrite (wp_feed_run _ _ _ Hdb). cbv zeta.
  destruct (negb _); [discriminate|]. cbn [fst snd].
  set (ds := window _ _ _ _).
  destruct (mapM _ ds) as [items'|] eqn:Hm; [|discriminate].
  intros [= ->]. apply mapM_Some in Hm.
  exists ds. split; [|split; [|split; [|split; [|split]]]].
  - eapply Forall2_impl; [exact Hm|]. intros x item. apply validate_feeds.
  - intros x Hx. apply window_elem in Hx.
    apply list_elem_of_In, filter_In in Hx as [Hx Hp].
    split; [by apply list_elem_of_In | by apply published_test_spec].
  - apply sorted_newest_first, window_sorted.
  - intros Hn. rewrite <- (Forall2_length _ _ _ Hm). by apply window_length.
  - intros Hn. unfold ds, window, apply_limit. rewrite Hn. simpl.
    apply sort_desc_perm.
  - reflexivity.
Qed.

Lemma wp_feed_refused w d limit x :
  db w = Some d ->
  fits_int64 (default 50 limit) = true ->
  x ∈ window (Some "published_at") 0 (default 50 limit)
        (List.filter published_test (collection d "post")) ->
  WPFeedItem.validate (serialized (local_utcoffset w) x) = None ->
  wp_feed limit w
  = (Raised ValueError, logged (OpFind "post" [Field "status" (Eq (VStr "published"))]) w).
Proof.
  intros Hdb Hfit Hx Hno. rewrite (wp_feed_run _ _ _ Hdb). cbv zeta.
  rewrite Hfit. cbn [negb].
  destruct (mapM _ _) as [items|] eqn:Hm; [|reflexivity]. exfalso.
  apply mapM_Some in Hm.
  destruct (proj1 (list_elem_of_lookup _ _) Hx) as [i Hi].
  destruct (Forall2_lookup_l _ _ _ _ _ Hm Hi) as (item & _ & Hv).
  congruence.
Qed.

Lemma validate_needs_text tz x k :
  k ∈ ["title"; "slug"; "content"] ->
  (forall s, serialize_value tz <$> x !! k <> Some (VStr s)) ->
  WPFeedItem.validate (serialized tz x) = None.
Proof.
  intros Hk Hno.
  destruct (WPFeedItem.validate (serialized tz x)) as [item|] eqn:Hv; [|reflexivity].
  exfalso. apply validate_feeds in Hv. destruct Hv as (_ & Ht & Hs & Hc & _).
  rewrite !elem_of_cons in Hk. destruct Hk as [->|[->|[->|Hk]]];
    [by eapply Hno | by eapply Hno | by eapply Hno | by apply elem_of_nil in Hk].
Qed.

(** X20: one published post within the limit whose [title],
    [slug] or [content] is absent, [None] or no text at all makes the
    whole feed fail with the validation error, a [ValueError], whatever
    the other posts are. *)
Theorem feed_fails_on_a_post_without_text w d limit x k :
  db w = Some d ->
  fits_int64 (default 50 limit) = true ->
  x ∈ window (Some "published_at") 0 (default 50 limit)
        (List.filter published_test (collection d "post")) ->
  k ∈ ["title"; "slug"; "content"] ->
  (forall s, serialize_value (local_utcoffset w) <$> x !! k <> Some (VStr s)) ->
  wp_feed limit w
  = (Raised ValueError, logged (OpFind "post" [Field "status" (Eq (VStr "published"))]) w).
Proof.
  intros Hdb Hfit Hx Hk Hno.
  apply (wp_feed_refused w d limit x Hdb Hfit Hx).
  by apply (validate_needs_text _ _ k).
Qed.

(** *** A post the feed cannot show *)

Lemma post_update_dump_title p :
  PostUpdate.model_dump_exclude_unset p !! "title" = dump_opt VStr <$> PostUpdate.title p.
Proof.
  unfold PostUpdate.model_dump_exclude_unset.
  rewrite lookup_dump_app. simpl. destruct (PostUpdate.title p); [reflexivity|].
  rewrite !lookup_dump_app, lookup_dump_last. reflexivity.
Qed.

(** X22: an update may set the title of a published post to
    [None], which the model of the partial allows; the update succeeds,
    and from then on the feed without a limit fails with the validation
    error. *)
Theorem a_null_title_breaks_the_feed id payload w d h existing :
  Bson.is_valid id = true ->
  db w = Some d ->
  Bson.ObjectId id = Some h ->
  stored "post" h w = Some existing ->
  reads_as "published" (existing !! "status") ->
  PostUpdate.title payload = Some None ->
  PostUpdate.status payload = None ->
  exists merged,
    (update_post id payload w).1
    = Returned (RDoc (serialize_doc (local_utcoffset w) (Some merged)))
    /\ merged !! "title" = Some VNone
    /\ (wp_feed (Some 0) (update_post id payload w).2).1 = Raised ValueError.
Proof.
  intros Hid Hdb Hh Hst Hpub Htitle Hstatus.
  assert (PostUpdate.model_dump_exclude_unset payload <> ∅) as Hne.
  { intros E. pose proof (post_update_dump_title payload) as Ht.
    rewrite E, Htitle, lookup_empty in Ht. discriminate Ht. }
  destruct (update_post_world _ _ _ _ _ _ Hid Hdb Hh Hne Hst) as (l1 & l2 & Hl & Hl1 & Hrun).
  set (fields := fields_set (PostUpdate.model_dump_exclude_unset payload) w) in *.
  assert ((fields ∪ existing) !! "title" = Some VNone) as Hmt.
  { apply lookup_union_Some_l. unfold fields. rewrite fields_set_other by done.
    by rewrite post_update_dump_title, Htitle. }
  assert ((fields ∪ existing) !! "status" = existing !! "status") as Hms.
  { rewrite lookup_union_r; [reflexivity|]. unfold fields.
    rewrite fields_set_other by done. by rewrite post_update_dump_status, Hstatus. }
  exists (fields ∪ existing). rewrite Hrun. cbn [fst snd].
  split; [reflexivity|]. split; [exact Hmt|].
  erewrite (wp_feed_refused _ _ (Some 0) (fields ∪ existing));
    [reflexivity | reflexivity | reflexivity | | ].
  - rewrite collection_set. unfold window, apply_limit. simpl.
    rewrite sort_desc_perm. apply list_elem_of_In, filter_In. split.
    + apply list_elem_of_In, elem_of_app. right. left.
    + apply published_test_spec. by rewrite Hms.
  - apply (validate_needs_text _ _ "title"); [left|].
    intros s. rewrite Hmt. discriminate.
Qed.

Lemma is_valid_parses id : Bson.is_valid id = true -> exists h, Bson.ObjectId id = Some h.
Proof.
  unfold Bson.is_valid. destruct (String.eqb id ""); [discriminate|].
  destruct (Bson.ObjectId id) as [h|]; [eauto | discriminate].
Qed.

(** X3: [get_post_admin] on a well-formed identifier returns the
    serialization of the stored post with that identifier, whose [id] is
    the identifier in lower case, and fails with 404 "Not found" when no
    post has it; the database is left as it was. *)
Theorem get_post_admin_reads_the_stored_post id w d h :
  Bson.is_valid id = true ->
  db w = Some d ->
  Bson.ObjectId id = Some h ->
  (forall x, stored "post" h w = Some x ->
     x ∈ collection d "post"
     /\ exists r,
          (get_post_admin id w).1 = Returned (RDoc (Some r))
          /\ serialize_doc (local_utcoffset w) (Some x) = Some r
          /\ r !! "id" = Some (VStr h))
  /\ (stored "post" h w = None -> (get_post_admin id w).1 = not_found)
  /\ db (get_post_admin id w).2 = db w.
Proof.
  intros Hid Hdb Hh. rewrite (get_post_admin_run _ _ _ _ Hid Hdb Hh). cbn [fst snd].
  split; [|split].
  - intros x Hx. rewrite Hx. rewrite (stored_id_test _ _ _ _ Hdb) in Hx.
    apply head_filter_in in Hx as [Hin Hp]. split; [exact Hin|].
    rewrite id_test_oid in Hp. apply bool_decide_eq_true in Hp.
    exists (serialized (local_utcoffset w) x).
    rewrite serialize_doc_serialized. split; [reflexivity|]. split; [reflexivity|].
    by rewrite (serialized_id _ _ _ Hp).
  - by intros ->.
  - reflexivity.
Qed.

(** X21: without a database the handlers that read or write
    the store fail with [TypeError] as they subscript the handle:
    the lookups, the listings, the feed, the deletions and the updates
    with a partial that is not empty.  A malformed identifier is still
    refused first. *)
Theorem handlers_need_the_database w :
  db w = None ->
  (forall id, Bson.is_valid id = true ->
     get_post_admin id w = (Raised TypeError, w)
     /\ delete_post id w = (Raised TypeError, w)
     /\ delete_category id w = (Raised TypeError, w)
     /\ (forall payload, PostUpdate.model_dump_exclude_unset payload <> ∅ ->
           (update_post id payload w).1 = Raised TypeError)
     /\ (forall payload, CategoryUpdate.model_dump_exclude_unset payload <> ∅ ->
           (update_category id payload w).1 = Raised TypeError))
  /\ (forall page page_size category tag,
        list_posts_public page page_size category tag w = (Raised TypeError, w))
  /\ (forall status q, list_posts_admin status q w = (Raised TypeError, w))
  /\ (forall slug, get_post_by_slug slug w = (Raised TypeError, w))
  /\ (forall limit, wp_feed limit w = (Raised TypeError, w)).
Proof.
  intros Hdb. split; [|split; [|split; [|split]]].
  - intros id Hid. destruct (is_valid_parses _ Hid) as [h Hh].
    unfold get_post_admin, delete_post, delete_category, update_post, update_category.
    rewrite Hid. cbn [negb].
    split; [|split; [|split; [|split]]].
    + unfold bind at 1. rewrite (object_id_run _ _ _ Hh).
      unfold find_one, subscript_db, bind. by rewrite Hdb.
    + unfold bind at 1. rewrite (object_id_run _ _ _ Hh).
      unfold delete_one, subscript_db, bind. by rewrite Hdb.
    + unfold bind at 1. rewrite (object_id_run _ _ _ Hh).
      unfold delete_one, subscript_db, bind. by rewrite Hdb.
    + intros payload Hne. destruct (decide _) as [|_]; [contradiction|].
      destruct (_ && _); run; rewrite (object_id_run _ _ _ Hh);
        unfold update_one, subscript_db, bind; simpl; by rewrite Hdb.
    + intros payload Hne. destruct (decide _) as [|_]; [contradiction|].
      run; rewrite (object_id_run _ _ _ Hh);
        unfold update_one, subscript_db, bind; simpl; by rewrite Hdb.
  - intros page page_size category tag.
    unfold list_posts_public, find, subscript_db, bind. by rewrite Hdb.
  - intros status q. unfold list_posts_admin, find, subscript_db, bind. by rewrite Hdb.
  - intros slug. unfold get_post_by_slug, find_one, subscript_db, bind. by rewrite Hdb.
  - intros limit. unfold wp_feed, find, subscript_db, bind. by rewrite Hdb.
Qed.

End Handlers.

(** ** The handlers at work *)

Module HandlerRuns.
Import PyData Mongo Runtime Driver Schemas Main Spec Facts Scenario Runs Handlers.

#[local] Open Scope Z_scope.

Lemma blog_world_db :
  db blog_world = Some (database_of [second_post; draft_post; first_post; third_post] []).
Proof. reflexivity. Qed.

Lemma empty_world_unused coll : unused_id coll empty_world.
Proof.
  unfold unused_id, stored. simpl. unfold collection. simpl.
  destruct ({[ "post" := []; "category" := [] ]} !! coll) as [l|] eqn:E; [|reflexivity].
  assert (l = []) as ->; [|reflexivity].
  destruct (decide (coll = "post")) as [->|H1].
  - rewrite lookup_insert_eq in E. congruence.
  - rewrite lookup_insert_ne in E by done.
    destruct (decide (coll = "category")) as [->|H2].
    + rewrite lookup_singleton_eq in E. congruence.
    + rewrite lookup_singleton_ne in E by done. discriminate E.
Qed.

Lemma empty_world_no_slug coll s x :
  x ∈ collection (database_of [] []) coll -> ~ reads_as s (x !! "slug").
Proof.
  intros Hx. exfalso. unfold collection, database_of in Hx. simpl in Hx.
  destruct (decide (coll = "post")) as [->|H1].
  - rewrite lookup_insert_eq in Hx. by apply elem_of_nil in Hx.
  - rewrite lookup_insert_ne in Hx by done.
    destruct (decide (coll = "category")) as [->|H2].
    + rewrite lookup_singleton_eq in Hx. by apply elem_of_nil in Hx.
    + rewrite lookup_singleton_ne in Hx by done. by apply elem_of_nil in Hx.
Qed.

(** X1 at work: the text [abc] is no identifier. *)
Lemma malformed_id_run :
  get_post_admin "abc" empty_world = (Raised (HTTPException 400 "Invalid id"), empty_world)
  /\ update_post "abc" retitle empty_world
     = (Raised (HTTPException 400 "Invalid id"), empty_world)
  /\ update_category "abc" rename empty_world
     = (Raised (HTTPException 400 "Invalid id"), empty_world)
  /\ delete_post "abc" empty_world = (Raised (HTTPException 400 "Invalid id"), empty_world)
  /\ delete_category "abc" empty_world
     = (Raised (HTTPException 400 "Invalid id"), empty_world).
Proof.
  apply (malformed_id_is_refused_before_the_store "abc" retitle rename empty_world).
  simpl. lia.
Defined.

(** X3 at work: the post created in [dated_world] is read by its
    identifier. *)
Lemma get_post_admin_run_stored :
  exists r,
    (get_post_admin id1 dated_world).1 = Returned (RDoc (Some r))
    /\ r !! "id" = Some (VStr id1).
Proof.
  destruct (get_post_admin_reads_the_stored_post id1 dated_world
              (database_of [dated_stored] []) id1 id1_is_valid dated_world_db id1_parses)
    as [H _].
  destruct (H dated_stored dated_world_stored) as (_ & r & Hr & _ & Hid).
  exists r. split; [exact Hr | exact Hid].
Defined.

(** X4 at work: nothing to delete in the empty store. *)
Lemma delete_of_unknown_id_run :
  delete_post id1 empty_world = (Returned {| deleted := false |}, empty_world)
  /\ delete_category id1 empty_world = (Returned {| deleted := false |}, empty_world).
Proof.
  destruct (delete_of_unknown_id_changes_nothing id1 empty_world (database_of [] []) id1
              id1_is_valid eq_refl id1_parses) as [Hp Hc].
  split; [apply Hp | apply Hc]; evaluated.
Defined.

Lemma dated_ids_unique : ids_unique (collection (database_of [dated_stored] []) "post").
Proof. rewrite database_of_posts. apply NoDup_singleton. Qed.

(** X5 at work: the post of [dated_world] is deleted, and is gone. *)
Lemma delete_removes_run :
  exists l1 l2,
    collection (database_of [dated_stored] []) "post" = l1 ++ dated_stored :: l2
    /\ delete_post id1 dated_world
       = (Returned {| deleted := true |},
          with_db (set_collection (database_of [dated_stored] []) "post" (l1 ++ l2))
            dated_world)
    /\ stored "post" id1 (delete_post id1 dated_world).2 = None
    /\ (get_post_admin id1 (delete_post id1 dated_world).2).1 = not_found
    /\ (delete_post id1 (delete_post id1 dated_world).2).1
       = Returned {| deleted := false |}.
Proof.
  exact (delete_removes_the_document id1 dated_world (database_of [dated_stored] []) id1
           dated_stored id1_is_valid dated_world_db id1_parses dated_ids_unique
           dated_world_stored).
Defined.

(** X6 at work: deleting the category [id1] where a post has that
    identifier leaves the post. *)
Lemma delete_touches_one_collection_run :
  (exists d', db (delete_category id1 dated_world).2 = Some d'
              /\ collection d' "post" = collection (database_of [dated_stored] []) "post"
              /\ sublist (collection d' "category")
                   (collection (database_of [dated_stored] []) "category"))
  /\ (exists d', db (delete_post id1 dated_world).2 = Some d'
                 /\ collection d' "category"
                    = collection (database_of [dated_stored] []) "category"
                 /\ sublist (collection d' "post")
                      (collection (database_of [dated_stored] []) "post")).
Proof.
  exact (delete_touches_one_collection id1 dated_world (database_of [dated_stored] []) id1
           id1_is_valid dated_world_db id1_parses).
Defined.

(** X7 at work: retitling the unstamped post changes its title and keeps
    its slug. *)
Lemma update_post_sets_run :
  exists merged,
    stored "post" id1 (update_post id1 retitle unstamped_world).2 = Some merged
    /\ (update_post id1 retitle unstamped_world).1
       = Returned (RDoc (serialize_doc (fun _ => 0) (Some merged)))
    /\ merged !! "title" = Some (VStr "B")
    /\ merged !! "slug" = Some (VStr "a")
    /\ stamped_at (clock 0) (merged !! "updated_at").
Proof.
  destruct (update_post_sets_what_the_partial_names id1 retitle unstamped_world
              (database_of [unstamped_post] []) id1 unstamped_post id1_is_valid
              unstamped_world_db id1_parses retitle_sets_a_field unstamped_world_stored
              ltac:(discriminate))
    as (merged & n & Hst & Hout & Hk & _ & _ & Hn & Hle & Hup).
  exists merged. split; [exact Hst|]. split; [exact Hout|].
  split; [|split].
  - rewrite (Hk "title") by done. evaluated.
  - rewrite (Hk "slug") by done. evaluated.
  - assert (reads (update_post id1 retitle unstamped_world).2 = 1%nat) as E by evaluated.
    rewrite E in Hn. injection Hn as <-. exact Hup.
Defined.

(** X8 at work: the one post of the collection is replaced in place. *)
Lemma update_post_changes_one_document_run :
  exists l1 l2 merged d',
    collection (database_of [unstamped_post] []) "post" = l1 ++ unstamped_post :: l2
    /\ db (update_post id1 retitle unstamped_world).2 = Some d'
    /\ collection d' "post" = l1 ++ merged :: l2
    /\ collection d' "category" = collection (database_of [unstamped_post] []) "category"
    /\ (forall x, x ∈ l1 -> x !! "_id" <> Some (VObjectId id1)).
Proof.
  exact (update_post_changes_one_document id1 retitle unstamped_world
           (database_of [unstamped_post] []) id1 unstamped_post id1_is_valid
           unstamped_world_db id1_parses retitle_sets_a_field unstamped_world_stored).
Defined.

Lemma blog_world_first : stored "post" id1 blog_world = Some first_post.
Proof. evaluated. Qed.

Lemma second_post_id : second_post !! "_id" = Some (VObjectId id2).
Proof. evaluated. Qed.

(** X9 at work: the first post takes the slug of the second. *)
Lemma update_post_does_not_check_the_slug_run :
  exists merged d',
    (update_post id1 reslug blog_world).1
    = Returned (RDoc (serialize_doc (fun _ => 0) (Some merged)))
    /\ db (update_post id1 reslug blog_world).2 = Some d'
    /\ merged ∈ collection d' "post"
    /\ second_post ∈ collection d' "post"
    /\ merged !! "slug" = Some (VStr "second")
    /\ merged !! "_id" = Some (VObjectId id1).
Proof.
  apply (update_post_does_not_check_the_slug id1 reslug blog_world
           (database_of [second_post; draft_post; first_post; third_post] [])
           id1 first_post second_post "second" id1_is_valid blog_world_db id1_parses
           blog_world_first eq_refl).
  - rewrite database_of_posts. left.
  - evaluated.
  - rewrite second_post_id. discriminate.
Defined.

Lemma tech_world_stored : stored "category" id1 tech_world = Some tech_stored.
Proof. evaluated. Qed.

(** X10 at work: renaming the category [tech]. *)
Lemma update_category_sets_run :
  exists merged,
    (update_category id1 rename tech_world).1
    = Returned (RDoc (serialize_doc (fun _ => 0) (Some merged)))
    /\ merged !! "name" = Some (VStr "B")
    /\ merged !! "slug" = Some (VStr "tech")
    /\ merged !! "_id" = Some (VObjectId id1).
Proof.
  destruct (update_category_sets_what_the_partial_names id1 rename tech_world
              (database_of [] [tech_stored]) id1 tech_stored id1_is_valid
              tech_world_db id1_parses rename_sets_a_field tech_world_stored)
    as (merged & w' & d' & l1 & l2 & Hrun & Hk & Hid & _).
  exists merged. rewrite Hrun. split; [reflexivity|]. split; [|split].
  - rewrite (Hk "name") by done. evaluated.
  - rewrite (Hk "slug") by done. evaluated.
  - exact Hid.
Defined.

(** X11 at work: the first post of an empty store. *)
Lemma create_post_stores_run :
  exists doc,
    (create_post dated_post empty_world).1
    = Returned (RDoc (serialize_doc (fun _ => 0) (Some doc)))
    /\ doc !! "_id" = Some (VObjectId id1)
    /\ doc !! "title" = Some (VStr "A")
    /\ stamped_at (bson_instant chosen_time) (doc !! "published_at").
Proof.
  assert (forall t, Post.published_at dated_post = Some t -> well_inside t) as Hin.
  { intros t [= <-]. unfold well_inside. split; apply Z.leb_le; evaluated. }
  destruct (create_post_stores_the_payload dated_post empty_world (database_of [] [])
              eq_refl (empty_world_no_slug "post" _) (empty_world_unused "post") Hin)
    as (doc & w' & d' & Hrun & _ & _ & _ & Hid & Hk & Hpub).
  exists doc. rewrite Hrun. split; [reflexivity|]. split; [|split].
  - rewrite Hid. evaluated.
  - rewrite (Hk "title") by done. evaluated.
  - exact Hpub.
Defined.

(** X12 at work: that post is read back by its identifier and by its
    slug. *)
Lemma created_post_read_back_run :
  (get_post_admin (Bson.generated_id (next_id empty_world))
     (create_post dated_post empty_world).2).1
  = (create_post dated_post empty_world).1
  /\ (get_post_by_slug (Post.slug dated_post) (create_post dated_post empty_world).2).1
     = if bool_decide (Post.status dated_post = "published")
       then (create_post dated_post empty_world).1
       else not_found.
Proof.
  exact (created_post_can_be_read_back dated_post empty_world (database_of [] [])
           eq_refl (empty_world_no_slug "post" _) (empty_world_unused "post")).
Defined.

(** X13 at work: the first category of an empty store. *)
Lemma create_category_stores_run :
  exists doc,
    (create_category tech empty_world).1
    = Returned (RDoc (serialize_doc (fun _ => 0) (Some doc)))
    /\ doc !! "_id" = Some (VObjectId id1)
    /\ doc !! "name" = Some (VStr "Tech")
    /\ doc !! "slug" = Some (VStr "tech").
Proof.
  destruct (create_category_stores_the_payload tech empty_world (database_of [] [])
              eq_refl (empty_world_no_slug "category" _) (empty_world_unused "category"))
    as (doc & w' & d' & Hrun & _ & _ & _ & Hid & Hname & Hslug & _).
  exists doc. rewrite Hrun. split; [reflexivity|]. split; [|split].
  - rewrite Hid. evaluated.
  - exact Hname.
  - exact Hslug.
Defined.

Lemma blog_world_published :
  select (database_of [second_post; draft_post; first_post; third_post] []) "post"
    (public_filter None None)
  = Some [second_post; first_post; third_post].
Proof. evaluated. Qed.

Lemma blog_world_first_page :
  (list_posts_public (Some 1) (Some 2) None None blog_world).1
  = Returned (RListing
                (map (fun x => serialize_doc (local_utcoffset blog_world) (Some x))
                   [third_post; second_post]) 1 2 3).
Proof. evaluated. Qed.

(** X15 at work: the first page of two of the three published posts
    shows the two newest of them. *)
Lemma listings_order_run :
  exists n,
    map (fun x => serialize_doc (local_utcoffset blog_world) (Some x))
      [third_post; second_post]
    = map (fun x => serialize_doc (local_utcoffset blog_world) (Some x))
        (take n [third_post; second_post; first_post]).
Proof.
  destruct (listings_are_newest_first blog_world _ blog_world_db) as [Hpub _].
  destruct (Hpub (Some 1) (Some 2) None None _ _ _ _ ltac:(simpl; lia)
              blog_world_first_page)
    as (docs & sorted & n & Hsel & Hperm & Hs & Hitems & _).
  rewrite blog_world_published in Hsel. injection Hsel as <-.
  rewrite (published_order _ Hperm Hs) in Hitems.
  exists n. exact Hitems.
Defined.

(** X16 at work: the public listing of the blog with no category and no
    tag. *)
Lemma public_listing_selects_run :
  exists docs,
    select (database_of [second_post; draft_post; first_post; third_post] []) "post"
      (public_filter None None) = Some docs
    /\ (forall x,
          x ∈ docs
          <-> x ∈ collection
                    (database_of [second_post; draft_post; first_post; third_post] [])
                    "post"
              /\ reads_as "published" (x !! "status")
              /\ (str_truthy None = true -> reads_as (default "" None) (x !! "category_slug"))
              /\ (str_truthy None = true -> reads_as (default "" None) (x !! "tags")))
    /\ (forall items p ps total,
          (list_posts_public (Some 1) (Some 2) None None blog_world).1
          = Returned (RListing items p ps total) ->
          total = Z.of_nat (length docs)
          /\ forall item, item ∈ items ->
               exists x, x ∈ docs
                 /\ item = serialize_doc (local_utcoffset blog_world) (Some x)).
Proof.
  exact (public_listing_selects_by_category_and_tag blog_world _ (Some 1) (Some 2)
           None None blog_world_db).
Defined.

(** X17 at work: page 0 is refused, and page size 0 returns the three
    published posts. *)
Lemma public_listing_edge_run :
  list_posts_public (Some 0) None None None blog_world = (Raised ValueError, blog_world)
  /\ (list_posts_public None (Some 0) None None blog_world).1
     = Returned (RListing
                   (map (fun x => serialize_doc (local_utcoffset blog_world) (Some x))
                      [third_post; second_post; first_post])
                   1 0 3).
Proof.
  destruct (public_listing_outside_the_positive_range blog_world _ None None blog_world_db)
    as (docs & Hsel & Hneg & Hzero & _).
  rewrite blog_world_published in Hsel. injection Hsel as <-.
  split.
  - apply Hneg. simpl. lia.
  - destruct (Hzero None) as (sorted & Hperm & Hs & Hrun).
    by rewrite (published_order _ Hperm Hs) in Hrun.
Defined.

(** X14 at work: the post dated in a zone one hour ahead of UTC. *)
Lemma serialize_doc_stable_run :
  exists r,
    serialize_doc (fun _ => 0) (Some zoned_post) = Some r
    /\ (forall k v, r !! k = Some v -> isinstance_datetime v = false)
    /\ (forall k, k <> "id" -> k <> "_id" -> (r !! k = None <-> zoned_post !! k = None))
    /\ (r = ∅ <-> zoned_post = ∅)
    /\ serialize_doc (fun _ => 3600000000) (Some r) = Some r.
Proof.
  apply (serialize_doc_result_is_stable (fun _ => 0) (fun _ => 3600000000) zoned_post).
  apply convertible_check. evaluated.
Defined.

(** X18 at work: the drafts of the blog. *)
Lemma admin_listing_run :
  exists ds,
    list_posts_admin (Some "draft") None blog_world
    = (Returned (RDocs (map (fun x => serialize_doc (local_utcoffset blog_world) (Some x))
                          ds)),
       logged (OpFind "post" (admin_filter (Some "draft") None)) blog_world)
    /\ (forall x, x ∈ ds
          <-> x ∈ collection
                    (database_of [second_post; draft_post; first_post; third_post] [])
                    "post"
              /\ (str_truthy (Some "draft") = true ->
                  reads_as (default "" (Some "draft")) (x !! "status")))
    /\ (str_truthy (Some "draft") = false ->
        ds ≡ₚ collection
                (database_of [second_post; draft_post; first_post; third_post] []) "post")
    /\ newest_first "created_at" ds.
Proof.
  exact (admin_listing_without_search blog_world _ (Some "draft") None blog_world_db
           eq_refl).
Defined.

Lemma dated_world_feed : (wp_feed None dated_world).1 = Returned [dated_item].
Proof. evaluated. Qed.

(** X19 at work: the feed of the one published post. *)
Lemma feed_of_one_post_run :
  exists ds,
    Forall2 (feeds (local_utcoffset dated_world)) ds [dated_item]
    /\ (forall x, x ∈ ds ->
          x ∈ collection (database_of [dated_stored] []) "post"
          /\ reads_as "published" (x !! "status"))
    /\ newest_first "published_at" ds
    /\ (default 50 None <> 0 ->
        Z.of_nat (length [dated_item]) <= Z.abs (default 50 None))
    /\ (default 50 None = 0 ->
        ds ≡ₚ List.filter published_test
                (collection (database_of [dated_stored] []) "post"))
    /\ (wp_feed None dated_world).2
       = logged (OpFind "post" [Field "status" (Eq (VStr "published"))]) dated_world.
Proof.
  exact (feed_items_are_the_published_posts dated_world _ None [dated_item]
           dated_world_db dated_world_feed).
Defined.

Lemma untitled_window :
  window (Some "published_at") 0 (default 50 None)
    (List.filter published_test (collection (database_of [untitled_post] []) "post"))
  = [untitled_post].
Proof. evaluated. Qed.

Lemma untitled_post_title : untitled_post !! "title" = None.
Proof. evaluated. Qed.

(** X20 at work: a published post with no title fails the feed. *)
Lemma feed_fails_run :
  wp_feed None untitled_world
  = (Raised ValueError,
     logged (OpFind "post" [Field "status" (Eq (VStr "published"))]) untitled_world).
Proof.
  apply (feed_fails_on_a_post_without_text untitled_world
           (database_of [untitled_post] []) None untitled_post "title" eq_refl eq_refl).
  - rewrite untitled_window. left.
  - left.
  - intros s. rewrite untitled_post_title. discriminate.
Defined.

(** X21 at work: a lookup, a listing and the feed with no database. *)
Lemma handlers_need_the_database_run :
  get_post_admin id1 bare_world = (Raised TypeError, bare_world)
  /\ list_posts_admin None None bare_world = (Raised TypeError, bare_world)
  /\ wp_feed None bare_world = (Raised TypeError, bare_world).
Proof.
  destruct (handlers_need_the_database bare_world eq_refl)
    as (Hid & _ & Hadmin & _ & Hfeed).
  destruct (Hid id1 id1_is_valid) as [Hget _].
  split; [exact Hget|]. split; [apply Hadmin | apply Hfeed].
Defined.

Lemma unstamped_post_status : unstamped_post !! "status" = Some (VStr "published").
Proof. evaluated. Qed.

(** X22 at work: the unstamped post loses its title, and the feed
    fails. *)
Lemma null_title_run :
  exists merged,
    (update_post id1 untitle unstamped_world).1
    = Returned (RDoc (serialize_doc (local_utcoffset unstamped_world) (Some merged)))
    /\ merged !! "title" = Some VNone
    /\ (wp_feed (Some 0) (update_post id1 untitle unstamped_world).2).1
       = Raised ValueError.
Proof.
  apply (a_null_title_breaks_the_feed id1 untitle unstamped_world
           (database_of [unstamped_post] []) id1 unstamped_post id1_is_valid
           unstamped_world_db id1_parses unstamped_world_stored).
  - rewrite unstamped_post_status. by left.
  - reflexivity.
  - reflexivity.
Defined.

End HandlerRuns.
